(** * tea-data-loader: factor analysis over a multi-symbol collection

    A shallow embedding of the Python sources

      - [fac_analyse/utils.py]     ([stable_corr], [get_ts_group])
      - [fac_analyse/summary.py]   ([Summary], [FacSummary])
      - [fac_analyse/analysis.py]  ([Analysis])
      - [loader/py_loader.py], [loader/group_by.py] ([DataLoader],
        [DataLoaderGroupBy])

    together with the properties their specification states about them.

    Numbers.  The tabular engine computes on binary64 floats.  Column
    arithmetic that only needs [+], [-], [log] and [exp] is stated over
    an arbitrary carrier (class [Num]); the real numbers are one
    instance.  The bucketing of [get_ts_group] is written over a class
    of scalars, of which binary64, the program's, is one instance and
    the exact rationals another.  The aggregates of the analysis are
    modelled over exact rationals [Q], with [None] for a null cell:
    rounding is not part of that part of the model. *)

From Stdlib Require Import ZArith QArith Qfield List String Ascii Bool.
From Stdlib Require Import Reals Psatz.
From Stdlib Require Import Decimal DecimalString DecimalPos DecimalZ.
From Stdlib Require Floats Uint63.
From stdpp Require Import gmap strings.
Import ListNotations.

Set Implicit Arguments.
Open Scope string_scope.

(* ===================================================================== *)
(** * Python runtime                                                      *)
(* ===================================================================== *)

Module Py.

(** Exceptions, as far as the modelled code raises them.  The last four
    are the engine's: polars raises [ColumnNotFoundError] for a missing
    column, [DuplicateError] from [select] and [ComputeError] from
    [with_columns] for two outputs of one name, and [ComputeError] again
    from [qt.cut] for a value that no bin holds; a panic of the plugin
    reaches Python as [PanicException]. *)
Inductive exn : Type :=
| TypeError (msg : string)
| ValueError (msg : string)
| IndexError
| KeyError (key : string)
| AttributeError (name : string)
| ColumnNotFoundError (name : string)
| DuplicateError
| ComputeError
| PanicException.

Inductive result (A : Type) : Type :=
| Ok (a : A)
| Raise (e : exn).
Arguments Ok {A} a.
Arguments Raise {A} e.

Definition bind {A B} (m : result A) (k : A -> result B) : result B :=
  match m with
  | Ok a => k a
  | Raise e => Raise e
  end.

Definition ret {A} (a : A) : result A := Ok a.

(** [[f(x) for x in xs]]: the first exception aborts the comprehension. *)
Fixpoint mapM {A B} (f : A -> result B) (xs : list A) : result (list B) :=
  match xs with
  | [] => Ok []
  | x :: rest =>
      bind (f x) (fun y => bind (mapM f rest) (fun ys => Ok (y :: ys)))
  end.

(** [str(n)] and [f'{n}'] for an [int]. *)
Definition str_of_int (n : Z) : string :=
  NilZero.string_of_int (Z.to_int n).

(** [int(s)] on the strings [str] produces: an optional [-] and decimal
    digits.  Python also accepts surrounding blanks, [+] and [_]; those
    spellings are rejected here. *)
Definition int_of_str (s : string) : result Z :=
  match NilZero.int_of_string s with
  | Some d => Ok (Z.of_int d)
  | None => Raise (ValueError "invalid literal for int() with base 10")
  end.

(** [s.replace(old, "")]: every non-overlapping occurrence of [old],
    scanning from the left, is removed.  [skip] counts the characters
    of a match that are still to be dropped. *)
Fixpoint remove_from (old : string) (skip : nat) (s : string) : string :=
  match s with
  | EmptyString => EmptyString
  | String c rest =>
      match skip with
      | S k => remove_from old k rest
      | O =>
          if String.prefix old s
          then remove_from old (String.length old - 1) rest
          else String c (remove_from old 0 rest)
      end
  end.

Definition str_remove (old s : string) : string :=
  match old with
  | EmptyString => s
  | _ => remove_from old 0 s
  end.

(** [xs[i]] for a list: negative indices count from the end. *)
Definition list_index {A} (xs : list A) (i : Z) : result A :=
  let n := Z.of_nat (List.length xs) in
  let j := if (i <? 0)%Z then (i + n)%Z else i in
  if ((0 <=? j)%Z && (j <? n)%Z)%bool
  then match nth_error xs (Z.to_nat j) with
       | Some x => Ok x
       | None => Raise IndexError
       end
  else Raise IndexError.

(** [x in xs] for a list of strings. *)
Definition str_in (x : string) (xs : list string) : bool :=
  existsb (String.eqb x) xs.

(** All names distinct. *)
Fixpoint distinct (xs : list string) : bool :=
  match xs with
  | [] => true
  | x :: rest => negb (str_in x rest) && distinct rest
  end.

End Py.

Import Py.

Notation "x <- m ;; k" := (Py.bind m (fun x => k))
  (at level 100, m at next level, right associativity).

(* ===================================================================== *)
(** * The tabular engine (polars), as far as the sources call it          *)
(* ===================================================================== *)

(** The carrier of a float column for the label arithmetic. *)
Class Num (F : Type) : Type := {
  fzero : F;
  fone : F;
  fadd : F -> F -> F;
  fsub : F -> F -> F;
  flog : F -> F;
  fexp : F -> F
}.

#[export] Instance Num_R : Num R := {|
  fzero := 0%R;
  fone := 1%R;
  fadd := Rplus;
  fsub := Rminus;
  flog := ln;
  fexp := exp
|}.

(** The numbers of a factor column, as far as the bucketing computes
    with them.  The program's are binary64; the frames of the analysis
    further down carry exact rationals. *)
Class Scalar (N : Type) : Type := {
  of_Q : Q -> N;
  nadd : N -> N -> N;
  nsub : N -> N -> N;
  nmul : N -> N -> N;
  ndiv : N -> N -> N;
  nltb : N -> N -> bool;
  nleb : N -> N -> bool;
  nis_nan : N -> bool
}.

(** An integer as a binary64 number (below [2^63] in magnitude, where
    the conversion rounds to the nearest). *)
Definition float_of_Z (z : Z) : PrimFloat.float :=
  match z with
  | Z0 => PrimFloat.zero
  | Zpos _ => PrimFloat.of_uint63 (Uint63.of_Z z)
  | Zneg p => PrimFloat.opp (PrimFloat.of_uint63 (Uint63.of_Z (Zpos p)))
  end.

(** Binary64 with the IEEE operations, rounding to the nearest: a
    literal such as [1e-10] or [0.9] is the quotient of two integers,
    correctly rounded. *)
#[export] Instance Scalar_binary64 : Scalar PrimFloat.float := {|
  of_Q := fun q => PrimFloat.div (float_of_Z (Qnum q))
                                 (float_of_Z (Zpos (Qden q)));
  nadd := PrimFloat.add;
  nsub := PrimFloat.sub;
  nmul := PrimFloat.mul;
  ndiv := PrimFloat.div;
  nltb := PrimFloat.ltb;
  nleb := PrimFloat.leb;
  nis_nan := PrimFloat.is_nan
|}.

#[export] Instance Scalar_Q : Scalar Q := {|
  of_Q := fun q => q;
  nadd := Qplus;
  nsub := Qminus;
  nmul := Qmult;
  ndiv := Qdiv;
  nltb := fun x y => if Qlt_le_dec x y then true else false;
  nleb := Qle_bool;
  nis_nan := fun _ => false
|}.

Module Polars.
Section Columns.

Context {F : Type}.

(** A column: one cell per row, [None] is null. *)
Definition column : Type := list (option F).

(** A frame: named columns in order, names unique. *)
Definition frame : Type := list (string * column).

Fixpoint get_column (name : string) (df : frame) : option column :=
  match df with
  | [] => None
  | (k, c) :: rest =>
      if String.eqb k name then Some c else get_column name rest
  end.

(** A new column replaces the one of the same name in place, or is
    appended. *)
Fixpoint set_column (name : string) (c : column) (df : frame) : frame :=
  match df with
  | [] => [(name, c)]
  | (k, v) :: rest =>
      if String.eqb k name then (name, c) :: rest
      else (k, v) :: set_column name c rest
  end.

(** An expression is evaluated against a frame. *)
Definition expr : Type := frame -> result column.

Definition col (name : string) : expr :=
  fun df =>
    match get_column name df with
    | Some c => Ok c
    | None => Raise (ColumnNotFoundError name)
    end.

Definition map_expr (f : column -> column) (e : expr) : expr :=
  fun df => c <- e df ;; Ok (f c).

(** Element-wise operations propagate null. *)
Definition map_cells (f : F -> F) (c : column) : column :=
  map (option_map f) c.

(** [Expr.shift(k)]: row [i] takes the value of row [i - k]; rows that
    fall off either end are null. *)
Definition shift (k : Z) (c : column) : column :=
  map (fun i =>
         let j := (Z.of_nat i - k)%Z in
         if ((0 <=? j)%Z && (j <? Z.of_nat (List.length c))%Z)%bool
         then nth (Z.to_nat j) c None
         else None)
      (seq 0 (List.length c)).

(** [Expr.fill_null(v)]. *)
Definition fill_null (v : F) (c : column) : column :=
  map (fun cell => match cell with Some x => Some x | None => Some v end) c.

(** The non-null cells of a list of cells, in order. *)
Fixpoint valid (cells : list (option F)) : list F :=
  match cells with
  | [] => []
  | Some x :: rest => x :: valid rest
  | None :: rest => valid rest
  end.

(** The rows a window of [n] ending at row [i] covers: row [i] and the
    [n - 1] rows before it, cut off at the start of the column. *)
Definition window (n i : nat) (c : column) : list (option F) :=
  skipn (S i - n) (firstn (S i) c).

(** [Expr.rolling_sum(window_size, min_periods)]: the sum of the
    non-null cells of the window when there are at least [min_periods]
    of them, else null.  This is the kernel for a window of at least one
    row; polars refuses a negative window with an [OverflowError] before
    any column is computed, which the definition does not reproduce. *)
Definition rolling_sum {num : Num F} (window_size min_periods : Z) (c : column)
  : column :=
  map (fun i =>
         let vs := valid (window (Z.to_nat window_size) i c) in
         if (min_periods <=? Z.of_nat (List.length vs))%Z
         then Some (fold_left fadd vs fzero)
         else None)
      (seq 0 (List.length c)).

(** [DataFrame.with_columns]: every expression is evaluated against the
    input frame; two expressions with one output name are an error,
    which [with_columns] reports as a [ComputeError]. *)
Definition with_columns (exprs : list (string * expr)) (df : frame)
  : result frame :=
  if distinct (map fst exprs)
  then
    cols <- mapM (fun ne => c <- snd ne df ;; Ok (fst ne, c)) exprs ;;
    Ok (fold_left (fun acc nc => set_column (fst nc) (snd nc) acc) cols df)
  else Raise ComputeError.

End Columns.
Arguments column : clear implicits.
Arguments frame : clear implicits.
Arguments expr : clear implicits.
End Polars.

(* ===================================================================== *)
(** * fac_analyse/utils.py                                                *)
(* ===================================================================== *)

Module Utils.

Local Open Scope Q_scope.

(** A float the correlation kernel returns: a finite number or
    not-a-number. *)
Inductive float : Type :=
| NaN
| Fin (q : Q).

Inductive corr_method : Type :=
| pearson
| spearman.

(** [Expr.clip(lo, hi)]: null and not-a-number pass through. *)
Definition clip (lo hi : Q) (cell : option float) : option float :=
  match cell with
  | None => None
  | Some NaN => Some NaN
  | Some (Fin q) =>
      if Qlt_le_dec q lo then Some (Fin lo)
      else if Qlt_le_dec hi q then Some (Fin hi)
      else Some (Fin q)
  end.

(** [Expr.fill_nan(None)]: not-a-number becomes null. *)
Definition fill_nan_none (cell : option float) : option Q :=
  match cell with
  | None => None
  | Some NaN => None
  | Some (Fin q) => Some q
  end.

Section Corr.

Context {F : Type}.

(** [pl.corr(x, y, method=...)] over two columns of one frame: the
    engine's kernel, a parameter here. *)
Variable corr : corr_method -> Polars.column F -> Polars.column F
                -> option float.

(** [[
    def stable_corr(x, y, method="pearson"):
        return pl.corr(x, y, method=method).clip(-0.2, 0.2).fill_nan(None)
    ]]
    An aggregating expression: one cell per frame (or group). *)
Definition stable_corr (x y : string) (method : corr_method)
  : Polars.frame F -> result (option Q) :=
  fun df =>
    cx <- Polars.col x df ;;
    cy <- Polars.col y df ;;
    Ok (fill_nan_none (clip (-(2 # 10)) (2 # 10) (corr method cx cy))).

End Corr.

(** ** Bucketing *)

Definition qcolumn : Type := Polars.column Q.

Section Group.

Context {N : Type} {scalar : Scalar N}.

(** [Expr.min()] / [Expr.max()]: over the cells that are neither null
    nor not-a-number; null when every cell is null, not-a-number when
    the column has nothing else. *)
Definition numbers (c : Polars.column N) : list N :=
  List.filter (fun x => negb (nis_nan x)) (Polars.valid c).

Definition col_min (c : Polars.column N) : option N :=
  match numbers c with
  | x :: rest => Some (fold_left (fun m y => if nltb y m then y else m) rest x)
  | [] => hd_error (Polars.valid c)
  end.

Definition col_max (c : Polars.column N) : option N :=
  match numbers c with
  | x :: rest => Some (fold_left (fun m y => if nltb m y then y else m) rest x)
  | [] => hd_error (Polars.valid c)
  end.

(** Evenly spaced points: [num] of them, the first [start] itself, the
    [i]-th [i] steps of [(end - start) / (num - 1)] after it. *)
Definition linspace (start stop : N) (num : Z) : list N :=
  let step := ndiv (nsub stop start) (of_Q (inject_Z (num - 1))) in
  map (fun i =>
         match i with
         | O => start
         | _ => nadd start (nmul (of_Q (inject_Z (Z.of_nat i))) step)
         end)
      (seq 0 (Z.to_nat num)).

(** The bin a value falls in: the first pair of consecutive edges
    [(lo, hi)] with [lo < v <= hi] gives its label. *)
Fixpoint find_bin (bins : list N) (labels : list N) (v : N) : option N :=
  match bins, labels with
  | lo :: ((hi :: _) as rest), l :: labels' =>
      if nltb lo v && nleb v hi then Some l else find_bin rest labels' v
  | _, _ => None
  end.

(** [Expr.qt.cut(bins, labels=labels, right=True, add_bounds=False)]:
    there must be one edge more than labels; a null cell stays null, and
    a value that no bin holds is an error, "value not in bins". *)
Definition cut (bins labels : list N) (c : Polars.column N)
  : result (Polars.column N) :=
  if Nat.eqb (List.length bins) (S (List.length labels))
  then mapM (fun cell =>
               match cell with
               | None => Ok None
               | Some v =>
                   match find_bin bins labels v with
                   | Some l => Ok (Some l)
                   | None => Raise ComputeError
                   end
               end) c
  else Raise (ValueError
    "Number of bin edges must be one more than the number of labels").

(** [Expr.clip(lo, hi)]: a value below [lo] becomes [lo], one above [hi]
    becomes [hi]; null and not-a-number pass through. *)
Definition clip_column (lo hi : N) (c : Polars.column N) : Polars.column N :=
  map (option_map (fun v => if nltb v lo then lo
                            else if nltb hi v then hi else v)) c.

Definition labels_20 : list N :=
  map of_Q
    [ -(1); -(9 # 10); -(8 # 10); -(7 # 10); -(6 # 10); -(5 # 10); -(4 # 10);
      -(3 # 10); -(2 # 10); -(1 # 10);
      1 # 10; 2 # 10; 3 # 10; 4 # 10; 5 # 10; 6 # 10; 7 # 10; 8 # 10; 9 # 10;
      1 ]%Q.

Definition labels_10 : list N :=
  map of_Q
    [ -(1); -(8 # 10); -(6 # 10); -(4 # 10); -(2 # 10);
      2 # 10; 4 # 10; 6 # 10; 8 # 10; 1 ]%Q.

(** [eps = 1e-10] *)
Definition eps : N := of_Q (1 # 10000000000).

(** [Expr.quantile(q, interpolation='nearest')] is the engine's, and so
    is [pq.linspace] of the plugin [polars_qt], whose rounding of the
    inner points the sources do not show: both are parameters.
    [linspace] above is one candidate for the second. *)
Variable quantile : N -> Polars.column N -> option N.
Variable linear_space : N -> N -> Z -> list N.

Definition group_labels (group : Z) : list N :=
  if (group =? 20)%Z then labels_20
  else if (group =? 10)%Z then labels_10
  else linear_space (of_Q (-(1))) (of_Q 1) group.

(** [[
    def get_ts_group(fac, group=10, *, drop_peak=False, peak_bound=0.025):
        fac = pq.parse_into_expr(fac)
        if drop_peak:
            fac_max = fac.quantile(1 - peak_bound, interpolation='nearest')
            fac_min = fac.quantile(peak_bound, interpolation='nearest')
            fac = fac.clip(fac_min, fac_max)
        else:
            fac_max = fac.max()
            fac_min = fac.min()
        eps = 1e-10
        bins = pq.linspace(fac_min - eps, fac_max + eps, group + 1, eager=False)
        if group == 20:   labels = [...]
        elif group == 10: labels = [...]
        else:             labels = pq.linspace(-1, 1, group)
        return fac.qt.cut(bins, labels=labels, right=True, add_bounds=False)
    ]]
    A column without a non-null cell has neither minimum nor maximum:
    the plugin panics on the null bounds. *)
Definition get_ts_group (fac : Polars.column N) (group : Z) (drop_peak : bool)
           (peak_bound : N) : result (Polars.column N) :=
  let bounds :=
    if drop_peak
    then (quantile peak_bound fac, quantile (nsub (of_Q 1) peak_bound) fac)
    else (col_min fac, col_max fac) in
  match bounds with
  | (Some fac_min, Some fac_max) =>
      let fac := if drop_peak then clip_column fac_min fac_max fac else fac in
      let bins := linear_space (nsub fac_min eps) (nadd fac_max eps)
                               (group + 1) in
      cut bins (group_labels group) fac
  | _ => Raise PanicException
  end.

End Group.

End Utils.

(* ===================================================================== *)
(** * Result values                                                       *)
(* ===================================================================== *)

(** A symbol collection as the analysis uses it ([data_loader.DataLoader]):
    the frames in order, the symbols naming them, and the name of the
    daily time column. *)
Record loader (F : Type) : Type := Loader {
  dfs : list (Polars.frame F);
  symbols : option (list string);
  daily_col : string
}.

(** The Python values the result store holds or returns. *)
#[warnings="-register-all"]
Inductive value : Type :=
| VNone
| VStr (s : string)
| VInt (n : Z)
| VOther                                  (* a float, a dict, ... *)
| VList (items : list value)
| VFrame (df : Polars.frame Q)            (* polars DataFrame *)
| VPandas (df : Polars.frame Q)           (* pandas DataFrame *)
| VSeries (cells : list (string * option Q))  (* pandas Series, labelled *)
| VLoader (dl : loader Q)
| VFacSummary (fac : value)
| VMethod (name : string).

Definition is_none (v : value) : bool :=
  match v with
  | VNone => true
  | _ => false
  end.

(** What the Python runtime and the engine do behind the result store.
    [object_attr] tells the names every Python object resolves by itself
    ([__class__], [__dict__], ...). *)
Class Runtime : Type := {
  object_attr : string -> bool;
  (** [values[key]] on a value that is not a list *)
  subscript : value -> value -> result value;
  (** [values.iloc[:, i]] *)
  iloc_column : value -> Z -> result value;
  (** [df.select(exprs)] on a value that is not a pandas frame, [exprs]
      named by its statistic over the labels *)
  select_stat : string -> list string -> value -> result value;
  (** [pl.concat(res, how='vertical').with_columns(fac=pl.Series(facs))
      .to_pandas().set_index('fac')] *)
  concat_frames : list string -> list value -> result value;
  (** [a / b] on two pandas frames *)
  true_div : value -> value -> result value
}.

(* ===================================================================== *)
(** * fac_analyse/summary.py                                              *)
(* ===================================================================== *)

Module Summary.
Section WithRuntime.

Context {runtime : Runtime}.

(** The instance: [facs] and [labels] from [__init__], and whatever the
    analysis assigned afterwards. *)
Record t : Type := Make {
  facs : list string;
  labels : list string;
  attrs : gmap string value
}.

(** [Summary(facs, labels)] *)
Definition __init__ (facs labels : list string) : t :=
  {| facs := facs; labels := labels; attrs := ∅ |}.

(** [summary.name = v] for a result name *)
Definition setattr (name : string) (v : value) (self : t) : t :=
  {| facs := facs self; labels := labels self;
     attrs := <[name := v]> (attrs self) |}.

(** The names the class body defines. *)
Definition methods : list string :=
  ["__init__"; "__getitem__"; "__getattr__"; "apply"; "_fac_attr_single";
   "fac_attr"; "concat"].

(** Ordinary attribute lookup: the instance, then the class. *)
Definition lookup_attr (self : t) (name : string) : option value :=
  if String.eqb name "facs" then Some (VList (map VStr (facs self)))
  else if String.eqb name "labels" then Some (VList (map VStr (labels self)))
  else match attrs self !! name with
       | Some v => Some v
       | None =>
           if str_in name methods || object_attr name
           then Some (VMethod name)
           else None
       end.

(** [df.select(exprs)] on one element of a stored result.  A pandas
    frame has no method [select]: the attribute access falls to the
    column of that name when the frame has one, a series that cannot be
    called, and raises [AttributeError] otherwise. *)
Definition select_of (stat : string) (labels : list string) (df : value)
  : result value :=
  match df with
  | VPandas frame =>
      match Polars.get_column "select" frame with
      | Some _ => Raise (TypeError "'Series' object is not callable")
      | None => Raise (AttributeError "select")
      end
  | _ => select_stat stat labels df
  end.

(** [self.apply(attr, lambda df: df.select(exprs))] followed by the
    concatenation of [concat]: iterating a value that is no list is a
    [TypeError]. *)
Definition concat_of (self : t) (values : value) (stat : string)
  : result value :=
  match values with
  | VList dfs =>
      res <- mapM (select_of stat (labels self)) dfs ;;
      concat_frames (facs self) res
  | _ => Raise (TypeError "object is not iterable")
  end.

(** [[
    def __getattr__(self, name):
        if name == 'ic':        return self.concat('ts_ic', col(self.labels).mean())
        elif name == 'ic_std':  return self.concat('ts_ic', col(self.labels).std())
        elif name == 'ir':      return self.ic / self.ic_std
        elif name == 'ic_skew': return self.concat('ts_ic', col(self.labels).skew())
        elif name == 'ic_kurt': return self.concat('ts_ic', col(self.labels).kurtosis())
        elif name == 'ic_overall': return self.concat('_ic_overall', pl.all())
        elif name in self.facs: return FacSummary(name, self)
        else:                   return None
    ]]
    [get] is the attribute access the body itself makes: [self.ic],
    [self.ic_std], and the [getattr(self, attr)] inside [concat]. *)
Definition __getattr__ (get : string -> result value) (self : t)
  (name : string) : result value :=
  let concat attr stat := (values <- get attr ;; concat_of self values stat) in
  if String.eqb name "ic" then concat "ts_ic" "mean"
  else if String.eqb name "ic_std" then concat "ts_ic" "std"
  else if String.eqb name "ir" then
    (a <- get "ic" ;; b <- get "ic_std" ;; true_div a b)
  else if String.eqb name "ic_skew" then concat "ts_ic" "skew"
  else if String.eqb name "ic_kurt" then concat "ts_ic" "kurtosis"
  else if String.eqb name "ic_overall" then concat "_ic_overall" "all"
  else if str_in name (facs self) then Ok (VFacSummary (VStr name))
  else Ok VNone.

(** Attribute access: Python calls [__getattr__] only after ordinary
    lookup has failed.  [fuel] bounds the nesting of accesses ([ir] reads
    [ic] and [ic_std], which read the stored result). *)
Fixpoint getattr_fuel (fuel : nat) (self : t) (name : string)
  : result value :=
  match lookup_attr self name with
  | Some v => Ok v
  | None =>
      match fuel with
      | O => Raise (TypeError "maximum recursion depth exceeded")
      | S fuel' => __getattr__ (getattr_fuel fuel' self) self name
      end
  end.

(** Three levels of nesting are all the method can reach. *)
Definition getattr (self : t) (name : string) : result value :=
  getattr_fuel 3 self name.

(** [zip(self.facs, values)] searched for the first [f == fac]. *)
Fixpoint find_fac (fac : string) (facs : list string) (values : list value)
  : value :=
  match facs, values with
  | f :: facs', v :: values' =>
      if String.eqb f fac then v else find_fac fac facs' values'
  | _, _ => VNone
  end.

(** [str(fac)] in the message of the [ValueError] *)
Definition show_key (fac : value) : string :=
  match fac with
  | VStr s => s
  | VInt n => str_of_int n
  | _ => "?"
  end.

Definition not_in_result (fac : value) : exn :=
  ValueError ("fac: " ++ show_key fac ++ " not in result").

Definition bad_key : exn := TypeError "fac should be str or int".

(** [[
    def _fac_attr_single(self, attr, fac):
        df = None
        values = getattr(self, attr)
        if isinstance(fac, str):
            if isinstance(values, (list, tuple)):
                for f, value in zip(self.facs, values):
                    if f != fac: continue
                    df = value
                    break
            else:
                df = values[fac]
        elif isinstance(fac, int):
            if isinstance(values, (list, tuple)):
                df = values[fac]
            else:
                df = values.iloc[:, fac]
        else:
            raise TypeError("fac should be str or int")
        if df is None:
            raise ValueError(f"fac: {fac} not in result")
        return df
    ]] *)
Definition _fac_attr_single (self : t) (attr : string) (fac : value)
  : result value :=
  values <- getattr self attr ;;
  df <- match fac with
        | VStr s =>
            match values with
            | VList items => Ok (find_fac s (facs self) items)
            | _ => subscript values fac
            end
        | VInt i =>
            match values with
            | VList items => list_index items i
            | _ => iloc_column values i
            end
        | _ => Raise bad_key
        end ;;
  if is_none df then Raise (not_in_result fac) else Ok df.

(** [[
    def fac_attr(self, attr, facs):
        if not isinstance(facs, (list, tuple)):
            return self._fac_attr_single(attr, facs)
        else:
            return [self._fac_attr_single(attr, fac) for fac in facs]
    ]] *)
Definition fac_attr (self : t) (attr : string) (facs : value)
  : result value :=
  match facs with
  | VList keys =>
      items <- mapM (_fac_attr_single self attr) keys ;; Ok (VList items)
  | _ => _fac_attr_single self attr facs
  end.

(** [FacSummary.__getattr__]: [self.summary.fac_attr(attr, self.fac)] *)
Definition FacSummary_getattr (self : t) (fac : value) (attr : string)
  : result value :=
  fac_attr self attr fac.

End WithRuntime.
End Summary.

(* ===================================================================== *)
(** * The symbol collection of the analysis ([data_loader.DataLoader])    *)
(* ===================================================================== *)

(** The class the analysis imports from [data_loader] is not among the
    sources; its methods follow the specification of the symbol
    collection. *)
Module DataLoader.
Section Broadcast.

Context {F G : Type}.

(** Modelled from the spec: [with_columns] of the absent
    [data_loader.DataLoader] "appl[ies] the same set of column
    expressions to every frame, returning a new collection"; the step is
    togglable by [flag], and "when disabled, raw ... values are kept". *)
Definition with_columns (exprs : list (string * Polars.expr F))
           (flag : bool) (dl : loader F) : result (loader F) :=
  if flag
  then
    frames <- mapM (Polars.with_columns exprs) (dfs dl) ;;
    Ok {| dfs := frames; symbols := symbols dl; daily_col := daily_col dl |}
  else Ok dl.

(** An aggregating expression gives one cell per frame. *)
Definition agg_expr : Type := Polars.frame F -> result (option G).

(** [DataFrame.select] of aggregating expressions: a frame of one row. *)
Definition select_frame (exprs : list (string * agg_expr))
           (df : Polars.frame F) : result (Polars.frame G) :=
  if distinct (map fst exprs)
  then mapM (fun ne => v <- snd ne df ;; Ok (fst ne, [v])) exprs
  else Raise DuplicateError.

(** Modelled from the spec: [select] of the absent
    [data_loader.DataLoader], broadcast over the frames like
    [with_columns]. *)
Definition select (exprs : list (string * agg_expr)) (dl : loader F)
  : result (loader G) :=
  frames <- mapM (select_frame exprs) (dfs dl) ;;
  Ok {| dfs := frames; symbols := symbols dl; daily_col := daily_col dl |}.

(** Modelled from the spec: [collect] of the absent
    [data_loader.DataLoader] "materializes every lazy frame" and
    [lazy] "converts eager frames to lazy wrappers without losing
    data"; neither changes a cell. *)
Definition collect (dl : loader F) : loader F := dl.
Definition lazy (dl : loader F) : loader F := dl.

End Broadcast.

Section Aggregate.

Local Open Scope Q_scope.

Definition height (df : Polars.frame Q) : nat :=
  match df with
  | [] => O
  | (_, c) :: _ => List.length c
  end.

(** The cell of column [name] at row [r]; null when there is none. *)
Definition cell (name : string) (r : nat) (df : Polars.frame Q) : option Q :=
  match Polars.get_column name df with
  | Some c => nth r c None
  | None => None
  end.

(** Modelled from the spec: [drop] of the absent
    [data_loader.DataLoader], broadcast over the frames. *)
Definition drop (name : string) (dl : loader Q) : loader Q :=
  {| dfs := map (List.filter (fun nc => negb (String.eqb (fst nc) name))) (dfs dl);
     symbols := symbols dl; daily_col := daily_col dl |}.

(** The weighted mean of the pairs (weight, value) that have both:
    the weighted sum over the sum of the weights. *)
Definition weighted_mean (pairs : list (option Q * option Q)) : option Q :=
  let acc :=
    fold_left
      (fun nd wx =>
         match wx with
         | (Some w, Some x) => (fst nd + w * x, snd nd + w)
         | _ => nd
         end)
      pairs (0, 0) in
  if Qeq_bool (snd acc) 0 then None else Some (fst acc / snd acc).

(** Modelled from the spec: [agg_dfs(weight=...)] of the absent
    [data_loader.DataLoader], the "count-weighted mean per label" across
    the symbols' frames: for every column but the weight and every row,
    the mean over the symbols of that cell, weighted by the symbol's
    cell of the weight column. *)
Definition agg_dfs_weight (weight : string) (dl : loader Q)
  : Polars.frame Q :=
  match dfs dl with
  | [] => []
  | first :: _ =>
      map (fun name =>
             (name,
              map (fun r =>
                     weighted_mean
                       (map (fun df => (cell weight r df, cell name r df))
                            (dfs dl)))
                  (seq 0 (height first))))
          (List.filter (fun name => negb (String.eqb name weight))
                  (map fst first))
  end.

End Aggregate.
End DataLoader.

(* ===================================================================== *)
(** * pandas, as far as [group_analyse] calls it                          *)
(* ===================================================================== *)

(** A cell is [None] for not-a-number.  Infinite values are left out: a
    division by zero gives [None]. *)
Module Pandas.

Local Open Scope Q_scope.

Definition series : Type := list (string * option Q).

(** [df[names]]: the named columns in the order asked. *)
Definition columns (names : list string) (df : Polars.frame Q)
  : result (Polars.frame Q) :=
  mapM (fun name =>
          match Polars.get_column name df with
          | Some c => Ok (name, c)
          | None => Raise (KeyError name)
          end)
       names.

(** [s / n] for an integer [n] *)
Definition div_int (n : Z) (x : option Q) : option Q :=
  match x with
  | Some q => if (n =? 0)%Z then None else Some (q / inject_Z n)
  | None => None
  end.

Definition sub (x y : option Q) : option Q :=
  match x, y with
  | Some a, Some b => Some (a - b)
  | _, _ => None
  end.

Definition mul_int (x : option Q) (k : Z) : option Q :=
  option_map (fun q => q * inject_Z k) x.

(** [df.iloc[i, :]]: row [i] as a series labelled by the columns. *)
Definition iloc_row (i : Z) (df : Polars.frame Q) : result series :=
  let n := Z.of_nat (DataLoader.height df) in
  let j := if (i <? 0)%Z then (i + n)%Z else i in
  if ((0 <=? j)%Z && (j <? n)%Z)%bool
  then Ok (map (fun nc => (fst nc, nth (Z.to_nat j) (snd nc) None)) df)
  else Raise IndexError.

(** [a - b] for two rows of one frame: they carry the same labels. *)
Definition sub_series (a b : series) : series :=
  map (fun ab => (fst (fst ab), sub (snd (fst ab)) (snd (snd ab))))
      (combine a b).

(** [s - arr] for a numpy array: position by position, the lengths
    must agree. *)
Definition sub_array (s : series) (arr : list (option Q)) : result series :=
  if Nat.eqb (List.length s) (List.length arr)
  then Ok (map (fun sx => (fst (fst sx), sub (snd (fst sx)) (snd sx)))
               (combine s arr))
  else Raise (ValueError "operands could not be broadcast together").

(** The running maximum: a later value replaces the best only when it
    is strictly greater; not-a-number is skipped. *)
Fixpoint argmax_from (best_label : string) (best : Q) (rest : series)
  : string * Q :=
  match rest with
  | [] => (best_label, best)
  | (l, Some x) :: rest' =>
      if Qlt_le_dec best x then argmax_from l x rest'
      else argmax_from best_label best rest'
  | (_, None) :: rest' => argmax_from best_label best rest'
  end.

Fixpoint argmax (s : series) : option (string * Q) :=
  match s with
  | [] => None
  | (l, Some x) :: rest => Some (argmax_from l x rest)
  | (_, None) :: rest => argmax rest
  end.

(** [s.idxmax()]: the label of the first maximum; a series without a
    number has none. *)
Definition idxmax (s : series) : result string :=
  match argmax s with
  | Some (l, _) => Ok l
  | None => Raise (ValueError "attempt to get argmax of an empty sequence")
  end.

(** [s.max()] *)
Definition max (s : series) : option Q :=
  option_map snd (argmax s).

End Pandas.

(* ===================================================================== *)
(** * fac_analyse/analysis.py                                             *)
(* ===================================================================== *)

(** The engine behind the analysis: kernels and chains of collection
    methods whose code is not among the sources. *)
Class Engine (F : Type) : Type := {
  (** [pl.corr] *)
  corr : Utils.corr_method -> Polars.column F -> Polars.column F
         -> option Utils.float;
  (** [.fill_nan(None).fac.winsorize(q=0.025, method='quantile')] *)
  winsorize : Polars.column F -> Polars.column F;
  (** [DataLoader.from_dfs(dfs, symbols=, type=, freq=)] *)
  from_dfs : list (Polars.frame F) -> option (list string) -> option string
             -> option string -> result (loader F);
  (** [dl.group_by_time(rule, time=dl.daily_col).agg(aggs).collect(False)
      .align(on=dl.daily_col)] *)
  group_by_time_agg_align :
    loader F -> string -> list (string * @DataLoader.agg_expr F Q)
    -> result (loader Q);
  (** [s_ic.agg_dfs({daily_col: 'first'}).to_pandas().set_index(daily_col)] *)
  agg_first : loader Q -> result (Polars.frame Q);
  (** [dl.select(col(facs).qt.half_life()).collect(...)
      .agg_dfs(default='mean').to_pandas()] *)
  half_life_table : loader F -> list string -> result (Polars.frame Q)
}.

Module Analysis.
Section WithEngine.

Context {F : Type} {num : Num F} {engine : Engine F} {runtime : Runtime}.

Record t : Type := Make {
  dl : loader F;
  facs : list string;
  base_label : string;
  label_periods : list Z;
  labels : list string;
  columns : list string;
  summary : Summary.t
}.

Definition with_summary (s : Summary.t) (self : t) : t :=
  {| dl := dl self; facs := facs self; base_label := base_label self;
     label_periods := label_periods self; labels := labels self;
     columns := columns self; summary := s |}.

Definition default_label_periods : list Z :=
  [10; 30; 60; 120; 240; 480; 720; 1200]%Z.

(** [f'label_{n}'] *)
Definition label_name (n : Z) : string := "label_" ++ str_of_int n.

(** [[
    ((1 + col(self.base_label)).log().rolling_sum(n, min_periods=n//2)
      .exp() - 1).shift(-n+1).fill_null(0)
    ]]
    on the column itself. *)
Definition forward_return (n : Z) (base : Polars.column F)
  : Polars.column F :=
  Polars.fill_null fzero
    (Polars.shift (- n + 1)
       (Polars.map_cells (fun x => fsub x fone)
          (Polars.map_cells fexp
             (Polars.rolling_sum n (n / 2)
                (Polars.map_cells flog
                   (Polars.map_cells (fadd fone) base)))))).

(** The same as an expression, with its alias [f'label_{n}']. *)
Definition label_expr (base_label : string) (n : Z)
  : string * Polars.expr F :=
  (label_name n,
   Polars.map_expr (forward_return n) (Polars.col base_label)).

(** The expressions of the second [with_columns]: the list
    comprehension over the horizons other than [1], then the keyword
    [label_1=self.base_label]. *)
Definition label_exprs (base_label : string) (label_periods : list Z)
  : list (string * Polars.expr F) :=
  map (label_expr base_label)
      (List.filter (fun n => negb (n =? 1)%Z) label_periods)
  ++ [("label_1", Polars.col base_label)].

(** [col(facs).fill_nan(None).fac.winsorize(...)]: one expression per
    factor, named as the factor. *)
Definition winsorize_exprs (facs : list string)
  : list (string * Polars.expr F) :=
  map (fun fac => (fac, Polars.map_expr winsorize (Polars.col fac))) facs.

(** [[
    def __init__(self, dfs, facs, base_label, symbols=None,
                 label_periods=None, type_=None, freq=None, *, drop_peak=True):
        if type(dfs).__qualname__ == "DataLoader":
            self.dl = dfs
        else:
            self.dl = DataLoader.from_dfs(dfs, symbols=symbols, type=type_, freq=freq)
        ...
        self.label_periods = self.default_label_periods if label_periods is None else label_periods
        self.label_periods = [1, *self.label_periods]
        self.labels = [f'label_{n}' for n in self.label_periods]
        self.columns = [f'{fac}_{label}' for fac in self.facs for label in self.labels]
        self.dl = (self.dl
            .with_columns(col(facs).fill_nan(None).fac.winsorize(...), flag=drop_peak)
            .with_columns([... for n in self.label_periods if n != 1],
                          label_1=self.base_label)
            .collect("Calculating base labels")
            .lazy())
        self.summary = Summary(facs, self.labels)
    ]]
    [self.symbols] and [self.dfs] copy two fields of the collection as it
    came in; no method reads them and the record leaves them out. *)
Definition __init__ (source : loader F + list (Polars.frame F))
           (facs : list string) (base_label : string)
           (symbols : option (list string))
           (label_periods : option (list Z))
           (type_ freq : option string) (drop_peak : bool) : result t :=
  dl0 <- match source with
         | inl dl => Ok dl
         | inr frames => from_dfs frames symbols type_ freq
         end ;;
  let label_periods :=
    (1 :: match label_periods with
          | None => default_label_periods
          | Some periods => periods
          end)%Z in
  let labels := map label_name label_periods in
  let columns :=
    flat_map (fun fac => map (fun label => fac ++ "_" ++ label) labels) facs in
  dl1 <- DataLoader.with_columns (winsorize_exprs facs) drop_peak dl0 ;;
  dl2 <- DataLoader.with_columns (label_exprs base_label label_periods)
                                 true dl1 ;;
  Ok {| dl := DataLoader.lazy (DataLoader.collect dl2);
        facs := facs; base_label := base_label;
        label_periods := label_periods; labels := labels;
        columns := columns; summary := Summary.__init__ facs labels |}.

(** [pl.len()]: the number of rows of the frame. *)
Definition len_expr : @DataLoader.agg_expr F Q :=
  fun df =>
    Ok (Some (inject_Z (Z.of_nat match df with
                                 | [] => O
                                 | (_, c) :: _ => List.length c
                                 end))).

(** The expressions of one factor's correlation, one per label:
    [[stable_corr(fac, label, method=method).alias(label) for label in self.labels]] *)
Definition ic_exprs (self : t) (fac : string) (method : Utils.corr_method)
  : list (string * @DataLoader.agg_expr F Q) :=
  map (fun label => (label, Utils.stable_corr corr fac label method))
      (labels self).

(** [[
    def ic_overall(self, method='pearson'):
        ics = []
        for fac in self.facs:
            ic = self.dl.select([...], count=pl.len()).collect(False)
            ics.append(ic)
        self.summary.symbol_ic = [ic.drop('count') for ic in ics]
        self.summary._ic_overall = [ic.agg_dfs(weight='count') for ic in ics]
        return self
    ]]
    The instance after the call, and the exception if one ended it. *)
Definition ic_overall (method : Utils.corr_method) (self : t)
  : t * result unit :=
  match mapM (fun fac =>
                DataLoader.select
                  (ic_exprs self fac method ++ [("count", len_expr)])
                  (dl self))
             (facs self) with
  | Raise e => (self, Raise e)
  | Ok ics =>
      let s1 :=
        Summary.setattr "symbol_ic"
          (VList (map (fun ic => VLoader (DataLoader.drop "count" ic)) ics))
          (summary self) in
      let s2 :=
        Summary.setattr "_ic_overall"
          (VList (map (fun ic => VFrame (DataLoader.agg_dfs_weight "count" ic))
                      ics))
          s1 in
      (with_summary s2 self, Ok tt)
  end.

(** [[
    def ts_ic(self, rule='1mo', method="pearson", *, keep_symbol_ic=False):
        symbol_ts_ic = []
        for fac in self.facs:
            symbol_ts_ic.append(
                self.dl.group_by_time(rule, time=self.dl.daily_col)
                .agg([...]).collect(False).align(on=self.dl.daily_col))
        if keep_symbol_ic:
            self.summary.symbol_ts_ic = symbol_ts_ic
        ts_ic = [s_ic.agg_dfs({self.dl.daily_col: 'first'}).to_pandas()
                 .set_index(self.dl.daily_col) for s_ic in symbol_ts_ic]
        self.summary.ts_ic = ts_ic
        return self
    ]] *)
Definition ts_ic (rule : string) (method : Utils.corr_method)
           (keep_symbol_ic : bool) (self : t) : t * result unit :=
  match mapM (fun fac =>
                group_by_time_agg_align (dl self) rule
                  (ic_exprs self fac method))
             (facs self) with
  | Raise e => (self, Raise e)
  | Ok symbol_ts_ic =>
      let s1 :=
        if keep_symbol_ic
        then Summary.setattr "symbol_ts_ic"
               (VList (map VLoader symbol_ts_ic)) (summary self)
        else summary self in
      match mapM agg_first symbol_ts_ic with
      | Raise e => (with_summary s1 self, Raise e)
      | Ok ts =>
          (with_summary
             (Summary.setattr "ts_ic" (VList (map VPandas ts)) s1) self,
           Ok tt)
      end
  end.

(** [[
    def half_life(self):
        if self.summary.half_life is None:
            half_life = self.dl.select(col(self.facs).qt.half_life()).collect(...)
            self.summary.half_life = half_life.agg_dfs(default='mean').to_pandas()
        return self
    ]] *)
Definition half_life (self : t) : t * result unit :=
  match Summary.getattr (summary self) "half_life" with
  | Raise e => (self, Raise e)
  | Ok v =>
      if is_none v
      then match half_life_table (dl self) (facs self) with
           | Raise e => (self, Raise e)
           | Ok table =>
               (with_summary
                  (Summary.setattr "half_life" (VPandas table) (summary self))
                  self,
                Ok tt)
           end
      else (self, Ok tt)
  end.

(** [[
    def group_analyse(self, fac, c_rate=3e-4):
        self.half_life()
        fac_name = self.facs[fac] if isinstance(fac, int) else fac
        df = self.summary.fac_attr('group_rets', fac)[self.labels]
        df = df.apply(lambda s: s / int(s.name.replace('label_', '')))
        c_rate = c_rate / np.array(self.label_periods)
        max_group_ret = df.iloc[-1, :]
        min_group_ret = df.iloc[0, :]
        df = max_group_ret - min_group_ret - c_rate * 4
        best_period = df.idxmax().replace('label_', '')
        best_ret = df.max()
        print(..., self.summary.fac_attr('half_life', fac)[0])
        return best_period, best_ret, df
    ]] *)
Definition group_analyse_body (fac : value) (c_rate : Q) (self : t)
  : result (string * option Q * Pandas.series) :=
  _ <- match fac with
       | VInt i => (name <- list_index (facs self) i ;; Ok tt)
       | _ => Ok tt
       end ;;
  group_rets <- Summary.fac_attr (summary self) "group_rets" fac ;;
  df <- match group_rets with
        | VPandas table => Pandas.columns (labels self) table
        | _ => Raise (TypeError "group_rets is not a pandas DataFrame")
        end ;;
  df <- mapM (fun nc =>
                n <- int_of_str (str_remove "label_" (fst nc)) ;;
                Ok (fst nc, map (Pandas.div_int n) (snd nc)))
             df ;;
  let c_rate := map (fun n => Pandas.div_int n (Some c_rate))
                    (label_periods self) in
  max_group_ret <- Pandas.iloc_row (-1) df ;;
  min_group_ret <- Pandas.iloc_row 0 df ;;
  net <- Pandas.sub_array (Pandas.sub_series max_group_ret min_group_ret)
                          (map (fun c => Pandas.mul_int c 4) c_rate) ;;
  best <- Pandas.idxmax net ;;
  let best_period := str_remove "label_" best in
  let best_ret := Pandas.max net in
  _ <- (hl <- Summary.fac_attr (summary self) "half_life" fac ;;
        subscript hl (VInt 0)) ;;
  Ok (best_period, best_ret, net).

Definition group_analyse (fac : value) (c_rate : Q) (self : t)
  : t * result (string * option Q * Pandas.series) :=
  match half_life self with
  | (self', Raise e) => (self', Raise e)
  | (self', Ok _) => (self', group_analyse_body fac c_rate self')
  end.

End WithEngine.
End Analysis.

(* ===================================================================== *)
(** * loader/py_loader.py and loader/group_by.py                          *)
(* ===================================================================== *)

(** The two Python classes wrap classes of the extension module
    [rs_loader], which is compiled from Rust and not among the sources:
    its types and functions are the parameters of this section. *)
Module PyLoader.
Section WithRust.

Variables RS_Loader RS_DataLoaderGroupBy PolarsFrame PyExpr : Type.

(** What a call [DataLoader(typ, symbols)] can be handed as [typ]. *)
Inductive typ_arg : Type :=
| TStr (path : string)
| TFrame (df : PolarsFrame)
| TFrames (frames : list PolarsFrame)
| TLoader (dl : RS_Loader)
| TGroupBy (dlgb : RS_DataLoaderGroupBy).

(** The arguments of [group_by_time], defaults filled in by the caller. *)
Record time_grouping : Type := TimeGrouping {
  rule : string;
  last_time : option string;
  time : string;
  group_by_exprs : option (list PyExpr);
  daily_column : string;
  maintain_order : bool;
  label : string
}.

(** [_RS_Loader(typ, symbols)] *)
Variable rs_new : typ_arg -> option (list string) -> result RS_Loader.
(** [dl.dfs = frames] *)
Variable rs_set_dfs : list PolarsFrame -> RS_Loader -> RS_Loader.
(** [_RS_Loader.group_by_time], [_RS_Loader.group_by] *)
Variable rs_group_by_time :
  RS_Loader -> time_grouping -> result RS_DataLoaderGroupBy.
Variable rs_group_by :
  RS_Loader -> list PyExpr -> bool -> result RS_DataLoaderGroupBy.
(** [_RS_DataLoaderGroupBy.agg] *)
Variable rs_agg : RS_DataLoaderGroupBy -> list PyExpr -> result RS_Loader.

(** An instance of one of the two Python classes. *)
Inductive object : Type :=
| DataLoader (dl : RS_Loader)
| DataLoaderGroupBy (dlgb : RS_DataLoaderGroupBy).

(** [[
    def __init__(self, typ, symbols=None):
        if isinstance(typ, _RS_Loader):
            self.dl = typ
            return
        if isinstance(typ, (LazyFrame, DataFrame)):
            typ = [typ]
        if isinstance(typ, (list, tuple)):
            dl = _RS_Loader("", symbols)
            dl.dfs = typ
            self.dl = dl
        else:
            self.dl = _RS_Loader(typ, symbols)
    ]] *)
Definition DataLoader_init (typ : typ_arg) (symbols : option (list string))
  : result object :=
  match typ with
  | TLoader dl => Ok (DataLoader dl)
  | TFrame df =>
      dl <- rs_new (TStr "") symbols ;; Ok (DataLoader (rs_set_dfs [df] dl))
  | TFrames frames =>
      dl <- rs_new (TStr "") symbols ;; Ok (DataLoader (rs_set_dfs frames dl))
  | _ => dl <- rs_new typ symbols ;; Ok (DataLoader dl)
  end.

(** [DataLoaderGroupBy.__init__]: [self.dlgb = dlgb] *)
Definition DataLoaderGroupBy_init (dlgb : RS_DataLoaderGroupBy) : object :=
  DataLoaderGroupBy dlgb.

(** [[
    def group_by_time(self, rule, last_time=None, time="time", group_by=None,
                      daily_col="trading_date", maintain_order=True,
                      label="left") -> DataLoaderGroupBy:
        if group_by is not None:
            group_by = parse_into_list_of_expressions(group_by)
        return DataLoader(self.dl.group_by_time(rule=rule, ...))
    ]]
    A method of [DataLoader]; the other class has no such attribute. *)
Definition group_by_time (self : object) (args : time_grouping)
  : result object :=
  match self with
  | DataLoader dl =>
      dlgb <- rs_group_by_time dl args ;;
      DataLoader_init (TGroupBy dlgb) None
  | DataLoaderGroupBy _ => Raise (AttributeError "group_by_time")
  end.

(** [[
    def group_by(self, *by, maintain_order=True) -> DataLoaderGroupBy:
        by = parse_into_list_of_expressions( *by)
        return DataLoader(self.dl.group_by(by, maintain_order))
    ]] *)
Definition group_by (self : object) (keys : list PyExpr) (keep_order : bool)
  : result object :=
  match self with
  | DataLoader dl =>
      dlgb <- rs_group_by dl keys keep_order ;;
      DataLoader_init (TGroupBy dlgb) None
  | DataLoaderGroupBy _ => Raise (AttributeError "group_by")
  end.

(** [[
    class DataLoaderGroupBy:
        def agg(self, *aggs, **named_aggs) -> DataLoader:
            aggs = parse_into_list_of_expressions( *aggs, **named_aggs)
            return DataLoader(self.dlgb.agg(aggs))
    ]]
    [DataLoader] defines neither [agg] nor [__getattr__]. *)
Definition agg (self : object) (aggs : list PyExpr) : result object :=
  match self with
  | DataLoaderGroupBy dlgb =>
      dl <- rs_agg dlgb aggs ;; DataLoader_init (TLoader dl) None
  | DataLoader _ => Raise (AttributeError "agg")
  end.

End WithRust.
End PyLoader.

(* ===================================================================== *)
(** * Instances to evaluate the definitions on                            *)
(* ===================================================================== *)

Module Fixtures.

Local Open Scope Q_scope.

(** A runtime whose objects have no attributes of their own and whose
    pandas subscripts do what pandas does on a frame and a series. *)
Definition sample_runtime : Runtime := {|
  object_attr := fun _ => false;
  subscript := fun v k =>
    match v, k with
    | VPandas df, VStr s =>
        match Polars.get_column s df with
        | Some c => Ok (VSeries (map (fun x => (s, x)) c))
        | None => Raise (KeyError s)
        end
    | VSeries (_ :: _), VInt 0 => Ok VOther
    | _, _ => Raise (TypeError "object is not subscriptable")
    end;
  iloc_column := fun _ _ => Raise IndexError;
  select_stat := fun _ _ df => Ok df;
  concat_frames := fun _ items => Ok (VList items);
  true_div := fun a _ => Ok a
|}.

(** An engine over rational cells: a correlation kernel that answers
    [1], no winsorization, and grouped results of one row per symbol. *)
Definition sample_engine : Engine Q := {|
  corr := fun _ _ _ => Some (Utils.Fin 1);
  winsorize := fun c => c;
  from_dfs := fun frames symbols _ _ =>
    Ok {| dfs := frames; symbols := symbols; daily_col := "trading_date" |};
  group_by_time_agg_align := fun dl _ aggs =>
    DataLoader.select aggs dl;
  agg_first := fun dl => Ok (hd [] (dfs dl));
  half_life_table := fun _ facs => Ok (map (fun f => (f, [Some 1])) facs)
|}.

(** Rational cells with the identity for [log] and [exp]: enough to
    follow rows through windows and shifts. *)
Definition sample_num : Num Q := {|
  fzero := 0; fone := 1; fadd := Qplus; fsub := Qminus;
  flog := fun x => x; fexp := fun x => x
|}.

Definition two_rows : Polars.frame Q :=
  [("ret", [Some (1 # 10); Some (2 # 10)]); ("f", [Some 1; Some 2])].

Definition one_symbol : loader Q :=
  {| dfs := [two_rows]; symbols := Some ["a"]; daily_col := "trading_date" |}.

(** A store with two factors and a grouped-return frame for each. *)
Definition sample_store : Summary.t :=
  Summary.setattr "group_rets"
    (VList [VPandas two_rows; VPandas []])
    (Summary.__init__ ["f"; "g"] ["label_1"]).

(** An analysis of one symbol, one factor and the horizons 1 and 2. *)
Definition sample_init : result Analysis.t :=
  Analysis.__init__ (num := sample_num) (engine := sample_engine)
    (inl one_symbol) ["f"] "ret" None (Some [2%Z]) None None false.

Definition started : Analysis.t :=
  match sample_init with
  | Ok a => a
  | Raise _ =>
      Analysis.Make one_symbol [] "" [] [] [] (Summary.__init__ [] [])
  end.

(** Grouped returns of one factor over the horizons 1, 2 and 4, bottom
    group first; with [c_rate = 3e-4] the horizons 1 and 2 tie. *)
Definition tie_table : Polars.frame Q :=
  [("group", [Some (-(1)); Some 1]);
   ("label_1", [Some 0; Some 1]);
   ("label_2", [Some 0; Some (19988 # 10000)]);
   ("label_4", [Some 0; Some 1])].

Definition tied : Analysis.t :=
  match Analysis.__init__ (num := sample_num) (engine := sample_engine)
          (inl one_symbol) ["f"] "ret" None (Some [2%Z; 4%Z]) None None false
  with
  | Ok a =>
      Analysis.with_summary
        (Summary.setattr "group_rets" (VList [VPandas tie_table])
           (Analysis.summary a))
        a
  | Raise _ => started
  end.

End Fixtures.

(* ===================================================================== *)
(** * Vocabulary of the properties                                        *)
(* ===================================================================== *)

(** The names [Summary.__getattr__] computes a statistic for. *)
Definition derived_metrics : list string :=
  ["ic"; "ic_std"; "ir"; "ic_skew"; "ic_kurt"; "ic_overall"].

(** The position of the first [f == fac] in a list of names. *)
Fixpoint index_of (fac : string) (names : list string) : option nat :=
  match names with
  | [] => None
  | f :: rest =>
      if String.eqb f fac then Some O else option_map S (index_of fac rest)
  end.

(** No character of the string is the letter [l]. *)
Fixpoint no_l (s : string) : bool :=
  match s with
  | EmptyString => true
  | String c rest => negb (Ascii.eqb c "l") && no_l rest
  end.

(** The collection a constructor argument of [Analysis] stands for. *)
Definition source_loader {F : Type} {engine : Engine F}
  (source : loader F + list (Polars.frame F))
  (symbols : option (list string)) (type_ freq : option string)
  : result (loader F) :=
  match source with
  | inl dl => Ok dl
  | inr frames => from_dfs frames symbols type_ freq
  end.

(** The horizons of an analysis: [1], then the given ones or the
    defaults. *)
Definition horizons (label_periods : option (list Z)) : list Z :=
  (1 :: match label_periods with
        | None => Analysis.default_label_periods
        | Some periods => periods
        end)%Z.

(** The label of horizon [n] as the specification words it: the rolling
    sum of [log(1 + base)] over [n] rows "requiring at least ⌈n/2⌉ valid
    observations", exponentiated, minus one, shifted back by [n - 1] rows,
    nulls filled with [0]. *)
Definition claimed_forward_return {F : Type} {num : Num F} (n : Z)
  (base : Polars.column F) : Polars.column F :=
  Polars.fill_null fzero
    (Polars.shift (- (n - 1))
       (Polars.map_cells (fun x => fsub x fone)
          (Polars.map_cells fexp
             (Polars.rolling_sum n ((n + 1) / 2)
                (Polars.map_cells flog
                   (Polars.map_cells (fadd fone) base)))))).

(** Two cells hold the same number, or are both null. *)
Definition same_cell (a b : option Q) : Prop :=
  match a, b with
  | Some x, Some y => (x == y)%Q
  | None, None => True
  | _, _ => False
  end.

Definition qsum (xs : list Q) : Q := fold_right Qplus 0%Q xs.

(** The pairs (weight, value) in which neither is null. *)
Fixpoint present (pairs : list (option Q * option Q)) : list (Q * Q) :=
  match pairs with
  | [] => []
  | (Some w, Some x) :: rest => (w, x) :: present rest
  | _ :: rest => present rest
  end.

(** The count-weighted mean, as a formula: the sum of weight times value
    over the sum of the weights. *)
Definition count_weighted_mean (pairs : list (option Q * option Q))
  : option Q :=
  let ps := present pairs in
  let total := qsum (map fst ps) in
  if Qeq_bool total 0
  then None
  else Some (qsum (map (fun wx => fst wx * snd wx) ps) / total)%Q.

(** The number of rows of a data frame, as a cell. *)
Definition row_count {F : Type} (df : Polars.frame F) : option Q :=
  Some (inject_Z (Z.of_nat match df with
                           | [] => O
                           | (_, c) :: _ => List.length c
                           end)).

(** The column of horizon [n] in a table of grouped returns; empty when
    the table has none. *)
Definition horizon_column (table : Polars.frame Q) (n : Z) : Polars.column Q :=
  match Polars.get_column (Analysis.label_name n) table with
  | Some c => c
  | None => []
  end.

(** The cell [group_analyse] computes for horizon [n] from a table of
    [rows] rows: last row minus first row, each divided by [n], minus
    four times [c_rate / n]. *)
Definition spread_cell (table : Polars.frame Q) (rows : nat) (c_rate : Q)
  (n : Z) : option Q :=
  Pandas.sub
    (Pandas.sub
       (Pandas.div_int n (nth (rows - 1) (horizon_column table n) None))
       (Pandas.div_int n (nth 0 (horizon_column table n) None)))
    (Pandas.mul_int (Pandas.div_int n (Some c_rate)) 4).

(** The net spread of a horizon as the specification words it: "(top-group
    return − bottom-group return) − 4 × per-period cost", the returns
    normalized "by dividing by the horizon length" and the cost
    "[c_rate / horizon]". *)
Definition net_spread (c_rate : Q) (n : Z) (top bottom : option Q)
  : option Q :=
  match top, bottom with
  | Some t, Some b =>
      Some ((t / inject_Z n - b / inject_Z n) - 4 * (c_rate / inject_Z n))%Q
  | _, _ => None
  end.

(** The rows of a table of grouped returns, counted as [iloc] counts
    them: on the column of the first horizon. *)
Definition group_rows (table : Polars.frame Q) (periods : list Z) : nat :=
  match periods with
  | [] => O
  | n :: _ => List.length (horizon_column table n)
  end.

(* ===================================================================== *)
(** * fac_analyse/summary.py: access by item and through [FacSummary]     *)
(* ===================================================================== *)

Module FacSummary.
Section WithRuntime.

Context {runtime : Runtime}.

(** [[
    def __getitem__(self, fac):
        if not isinstance(fac, (list, tuple)):
            return FacSummary(fac, self)
        else:
            return [FacSummary(f, self) for f in fac]
    ]]
    ([Summary.__getitem__]; the accessor keeps the key as it is given.) *)
Definition __getitem__ (self : Summary.t) (fac : value) : value :=
  match fac with
  | VList keys => VList (map VFacSummary keys)
  | _ => VFacSummary fac
  end.

(** The names the class body of [FacSummary] defines. *)
Definition methods : list string :=
  ["__init__"; "__getattr__"; "plot_group"; "plot_ic"].

(** Ordinary lookup on [FacSummary(fac, summary)]: the two instance
    attributes of [__init__], then the class.  The store behind
    [summary] is an object the values do not spell out. *)
Definition lookup_attr (fac : value) (attr : string) : option value :=
  if String.eqb attr "fac" then Some fac
  else if String.eqb attr "summary" then Some VOther
  else if str_in attr methods || object_attr attr then Some (VMethod attr)
  else None.

(** Attribute access on the accessor: [__getattr__] is
    [self.summary.fac_attr(attr, self.fac)], called when ordinary lookup
    fails. *)
Definition getattr (self : Summary.t) (fac : value) (attr : string)
  : result value :=
  match lookup_attr fac attr with
  | Some v => Ok v
  | None => Summary.FacSummary_getattr self fac attr
  end.

(** [getattr(obj, attr)] for a value a lookup has returned: only the
    accessor is followed. *)
Definition getattr_value (self : Summary.t) (obj : value) (attr : string)
  : result value :=
  match obj with
  | VFacSummary fac => getattr self fac attr
  | _ => Raise (AttributeError attr)
  end.

End WithRuntime.
End FacSummary.

(* ===================================================================== *)
(** * fac_analyse/analysis.py: grouped returns                            *)
(* ===================================================================== *)

(** The collection methods the grouped-return algorithms chain, none of
    them among the sources, and the quantile kernel of [get_ts_group]. *)
Class GroupEngine : Type := {
  (** [Expr.quantile(q, interpolation='nearest')] *)
  quantile_nearest : Q -> Utils.qcolumn -> option Q;
  (** [pq.linspace(start, end, num)] *)
  linear_space : Q -> Q -> Z -> list Q;
  (** [dl.apply(lambda df: df.group_by(keys).agg(aggs))] *)
  apply_group_by_agg :
    loader Q -> list (string * Polars.expr Q)
    -> list (string * @DataLoader.agg_expr Q Q) -> result (loader Q);
  (** [dl.sort(columns)] *)
  sort_by : loader Q -> list string -> result (loader Q);
  (** [dl.collect(description).align(on=columns)] *)
  collect_align : loader Q -> list string -> result (loader Q);
  (** [dl.group_by_time(rule, time=time, group_by=group_by).agg(aggs)] *)
  group_by_time_agg :
    loader Q -> string -> string -> string
    -> list (string * @DataLoader.agg_expr Q Q) -> result (loader Q);
  (** [dl.agg_dfs({name: 'first', ...}, weight=weight).to_pandas()], with
      [.set_index(index)] when an index is given *)
  agg_dfs_first :
    loader Q -> list string -> option string -> option string
    -> result (Polars.frame Q);
  (** [dl.apply(lambda df: df.group_by('group')
      .agg(pl.all().exclude(column).mean()))] *)
  group_mean_excluding : loader Q -> string -> result (loader Q)
}.

Module Grouped.
Section WithEngine.

Context {engine : GroupEngine}.

Local Open Scope Q_scope.

(** The [facs] argument: [None], one name, or a list of names.
    [[
        if facs is None:
            facs = self.facs
        if isinstance(facs, str):
            facs = [facs]
    ]] *)
Definition facs_arg (self : Analysis.t (F := Q))
  (facs : option (string + list string)) : list string :=
  match facs with
  | None => Analysis.facs self
  | Some (inl fac) => [fac]
  | Some (inr names) => names
  end.

(** [get_ts_group(fac, group=group)] as an expression over a frame. *)
Definition group_expr (fac : string) (group : Z) : Polars.expr Q :=
  fun df =>
    c <- Polars.col fac df ;;
    Utils.get_ts_group quantile_nearest linear_space c group false
                       (25 # 1000).

(** [(col(f'label_{n}') / n).sum()]: the sum of the non-null cells, each
    divided by [n]; the output keeps the name of the column.  Dividing
    by a horizon of [0] gives infinite cells or not-a-number, which the
    model does not hold: their sum is left null. *)
Definition per_period_sum (n : Z) : string * @DataLoader.agg_expr Q Q :=
  (Analysis.label_name n,
   fun df =>
     c <- Polars.col (Analysis.label_name n) df ;;
     Ok (match Polars.valid c with
         | [] => Some 0
         | vs =>
             if (n =? 0)%Z then None
             else Some (qsum (map (fun x => x / inject_Z n) vs))
         end)).

(** [col(f'label_{n}').mean()]: null when no cell has a value. *)
Definition label_mean (n : Z) : string * @DataLoader.agg_expr Q Q :=
  (Analysis.label_name n,
   fun df =>
     c <- Polars.col (Analysis.label_name n) df ;;
     Ok (match Polars.valid c with
         | [] => None
         | vs => Some (qsum vs / inject_Z (Z.of_nat (List.length vs)))
         end)).

(** [[
        [col(fac).min().alias('min'), col(fac).max().alias('max'),
         col(fac).count().alias('count')]
        + [col(f'label_{n}').mean() for n in self.label_periods]
    ]] *)
Definition group_aggs (fac : string) (periods : list Z)
  : list (string * @DataLoader.agg_expr Q Q) :=
  [("min", fun df => c <- Polars.col fac df ;; Ok (Utils.col_min c));
   ("max", fun df => c <- Polars.col fac df ;; Ok (Utils.col_max c));
   ("count",
    fun df =>
      c <- Polars.col fac df ;;
      Ok (Some (inject_Z (Z.of_nat (List.length (Polars.valid c))))))]
  ++ map label_mean periods.

(** The frames of one factor in [ts_group_ret]: grouped by day and
    bucket, sorted, collected and aligned. *)
Definition daily_group_ret (self : Analysis.t (F := Q)) (group : Z)
  (fac : string) : result (loader Q) :=
  let dl := Analysis.dl self in
  grouped <- apply_group_by_agg dl
               [(daily_col dl, Polars.col (daily_col dl));
                ("group", group_expr fac group)]
               (map per_period_sum (Analysis.label_periods self)) ;;
  sorted <- sort_by grouped ["group"; daily_col dl] ;;
  collect_align sorted ["group"; daily_col dl].

(** [[
    def ts_group_ret(self, facs=None, group=10):
        ...
        ts_group_rets = []
        for fac in facs:
            group_ret = (self.dl.apply(...).sort(['group', self.dl.daily_col])
                         .collect(...).align(on=['group', self.dl.daily_col]))
            ts_group_rets.append(group_ret)
        self.summary.symbol_ts_group_rets = ts_group_rets
        self.summary.ts_group_rets = [
            tgr.agg_dfs({'group': 'first', self.dl.daily_col: 'first'})
            .to_pandas().set_index(self.dl.daily_col)
            for tgr in ts_group_rets]
        return self
    ]]
    The instance after the call, and the exception if one ended it. *)
Definition ts_group_ret (facs : option (string + list string)) (group : Z)
  (self : Analysis.t (F := Q)) : Analysis.t (F := Q) * result unit :=
  let dl := Analysis.dl self in
  match mapM (daily_group_ret self group) (facs_arg self facs) with
  | Raise e => (self, Raise e)
  | Ok ts_group_rets =>
      let s1 :=
        Summary.setattr "symbol_ts_group_rets"
          (VList (map VLoader ts_group_rets)) (Analysis.summary self) in
      match mapM (fun tgr =>
                    agg_dfs_first tgr ["group"; daily_col dl] None
                                  (Some (daily_col dl)))
                 ts_group_rets with
      | Raise e => (Analysis.with_summary s1 self, Raise e)
      | Ok frames =>
          (Analysis.with_summary
             (Summary.setattr "ts_group_rets" (VList (map VPandas frames)) s1)
             self,
           Ok tt)
      end
  end.

(** The frames of one factor in [group_ret]: without a rule bucketed by
    the factor alone, with a rule by bucket and calendar period. *)
Definition symbol_group_ret (self : Analysis.t (F := Q))
  (rule : option string) (group : Z) (fac : string) : result (loader Q) :=
  let dl := Analysis.dl self in
  let aggs := group_aggs fac (Analysis.label_periods self) in
  match rule with
  | None =>
      grouped <- apply_group_by_agg (DataLoader.lazy dl)
                   [("group", group_expr fac group)] aggs ;;
      collect_align grouped ["group"]
  | Some rule =>
      bucketed <- DataLoader.with_columns [("group", group_expr fac group)]
                    true (DataLoader.lazy dl) ;;
      sorted <- sort_by bucketed ["group"; daily_col dl] ;;
      grouped <- group_by_time_agg sorted rule (daily_col dl) "group" aggs ;;
      collect_align grouped ["group"; daily_col dl]
  end.

(** [[
    def group_ret(self, facs=None, rule=None, group=10):
        ...
        group_rets = []
        if rule is None:
            for fac in facs: ...
            self.summary.symbol_group_rets = group_rets
            self.summary.group_rets = [
                gr.agg_dfs({'group': 'first'}, weight='count').to_pandas()
                for gr in group_rets]
        else:
            for fac in facs: ...
            self.summary.symbol_group_rets = group_rets
            self.summary.group_rets = [
                gr.apply(lambda df: df.group_by('group')
                         .agg(pl.all().exclude(self.dl.daily_col).mean()))
                .agg_dfs({'group': 'first'}).to_pandas()
                for gr in group_rets]
        return self
    ]] *)
Definition group_ret (facs : option (string + list string))
  (rule : option string) (group : Z) (self : Analysis.t (F := Q))
  : Analysis.t (F := Q) * result unit :=
  let dl := Analysis.dl self in
  match mapM (symbol_group_ret self rule group) (facs_arg self facs) with
  | Raise e => (self, Raise e)
  | Ok group_rets =>
      let s1 :=
        Summary.setattr "symbol_group_rets"
          (VList (map VLoader group_rets)) (Analysis.summary self) in
      match mapM (fun gr =>
                    match rule with
                    | None => agg_dfs_first gr ["group"] (Some "count") None
                    | Some _ =>
                        means <- group_mean_excluding gr (daily_col dl) ;;
                        agg_dfs_first means ["group"] None None
                    end)
                 group_rets with
      | Raise e => (Analysis.with_summary s1 self, Raise e)
      | Ok frames =>
          (Analysis.with_summary
             (Summary.setattr "group_rets" (VList (map VPandas frames)) s1)
             self,
           Ok tt)
      end
  end.

End WithEngine.
End Grouped.

(* ===================================================================== *)
(** * loader/py_loader.py: iteration                                      *)
(* ===================================================================== *)

Module Iteration.
Section WithRust.

Variables RS_Loader PolarsFrame : Type.

(** The properties [symbols] and [dfs] read the extension's. *)
Variable rs_symbols : RS_Loader -> option (list string).
Variable rs_dfs : RS_Loader -> list PolarsFrame.

(** What the iterator yields: a pair of symbol and frame, or a frame. *)
Inductive item : Type :=
| Pair (symbol : string) (df : PolarsFrame)
| Frame (df : PolarsFrame).

(** [[
    def __iter__(self):
        if self.symbols is not None:
            return zip(self.symbols, self.dfs)
        else:
            return iter(self.dfs)
    ]]
    The items in the order the iterator yields them. *)
Definition __iter__ (dl : RS_Loader) : list item :=
  match rs_symbols dl with
  | Some symbols =>
      map (fun sd => Pair (fst sd) (snd sd)) (combine symbols (rs_dfs dl))
  | None => map Frame (rs_dfs dl)
  end.

End WithRust.
End Iteration.

(* ===================================================================== *)
(** * More instances and vocabulary                                       *)
(* ===================================================================== *)

Module MoreFixtures.

Local Open Scope Q_scope.

(** Grouped-return chains that aggregate every frame as a whole (one
    group), keep the order of the frames, and report the first symbol's
    frame as the aggregate over the symbols. *)
Definition sample_group_engine : GroupEngine := {|
  quantile_nearest := fun _ _ => None;
  linear_space := Utils.linspace;
  apply_group_by_agg := fun dl keys aggs =>
    DataLoader.select aggs dl;
  sort_by := fun dl _ => Ok dl;
  collect_align := fun dl _ => Ok dl;
  group_by_time_agg := fun dl _ _ _ aggs => DataLoader.select aggs dl;
  agg_dfs_first := fun dl _ _ _ => Ok (hd [] (dfs dl));
  group_mean_excluding := fun dl _ => Ok dl
|}.

(** One symbol with two factors of different ranges. *)
Definition two_factor_rows : Polars.frame Q :=
  [("ret", [Some (1 # 10); Some (2 # 10)]);
   ("f", [Some 1; Some 2]);
   ("g", [Some 5; Some 7])].

Definition two_factors : Analysis.t (F := Q) :=
  match Analysis.__init__ (num := Fixtures.sample_num)
          (engine := Fixtures.sample_engine)
          (inl {| dfs := [two_factor_rows]; symbols := Some ["a"];
                  daily_col := "trading_date" |})
          ["f"; "g"] "ret" None (Some [2%Z]) None None false
  with
  | Ok a => a
  | Raise _ => Fixtures.started
  end.


(** An analysis whose base label is also its factor, winsorizing on. *)
Definition own_label : Analysis.t (F := Q) :=
  match Analysis.__init__ (num := Fixtures.sample_num)
          (engine := Fixtures.sample_engine)
          (inl Fixtures.one_symbol) ["ret"] "ret" None (Some [2%Z]) None None
          true
  with
  | Ok a => a
  | Raise _ => Fixtures.started
  end.

(** A column of values above [2^20], where binary64 numbers lie more
    than [1e-10] apart. *)
Definition large_values {N : Type} {scalar : Scalar N} : Polars.column N :=
  map (fun q => Some (of_Q q)) [3000000; 4000000; 5000000]%Q.

End MoreFixtures.

(** What [__init__] establishes and every method keeps: the labels are
    the names of the horizons, and the result store carries the
    analysis's factors and labels. *)
Definition consistent {F : Type} (a : Analysis.t (F := F)) : Prop :=
  Analysis.labels a = map Analysis.label_name (Analysis.label_periods a)
  /\ Summary.facs (Analysis.summary a) = Analysis.facs a
  /\ Summary.labels (Analysis.summary a) = Analysis.labels a.

(** The cells of a column all hold a value. *)
Definition no_nulls {F : Type} (c : Polars.column F) : Prop :=
  Forall (fun cell => cell <> None) c.

(** The stored result a derived metric is computed from. *)
Definition metric_source (name : string) : string :=
  if String.eqb name "ic_overall" then "_ic_overall" else "ts_ic".

(** What [_fac_attr_single] makes of the entry it has found. *)
Definition entry_or_missing (key df : value) : result value :=
  if is_none df then Raise (Summary.not_in_result key) else Ok df.

(** Two states of an analysis that differ at most in the results
    stored. *)
Definition same_setup {F : Type} (a b : Analysis.t (F := F)) : Prop :=
  Analysis.dl a = Analysis.dl b
  /\ Analysis.facs a = Analysis.facs b
  /\ Analysis.base_label a = Analysis.base_label b
  /\ Analysis.label_periods a = Analysis.label_periods b
  /\ Analysis.labels a = Analysis.labels b
  /\ Analysis.columns a = Analysis.columns b
  /\ Summary.facs (Analysis.summary a) = Summary.facs (Analysis.summary b)
  /\ Summary.labels (Analysis.summary a)
     = Summary.labels (Analysis.summary b).

(** A step from [before] to [after] that assigns no result but those
    named. *)
Definition writes_only {F : Type} (names : list string)
  (before after : Analysis.t (F := F)) : Prop :=
  same_setup before after
  /\ forall name,
       ~ In name names ->
       Summary.attrs (Analysis.summary after) !! name
       = Summary.attrs (Analysis.summary before) !! name.

(** The return of holding through the periods [rs]: the product of the
    [1 + r], less one. *)
Definition compounded (rs : list R) : R :=
  (fold_right Rmult 1 (map (Rplus 1) rs) - 1)%R.

(* ===================================================================== *)
(** * Properties                                                          *)
(* ===================================================================== *)

(** ** Grouping a collection by time (py_loader.py, group_by.py) *)

Section GroupByTime.

Variables RS_Loader RS_DataLoaderGroupBy PolarsFrame PyExpr : Type.
Variable rs_new : PyLoader.typ_arg RS_Loader RS_DataLoaderGroupBy PolarsFrame
                  -> option (list string) -> result RS_Loader.
Variable rs_set_dfs : list PolarsFrame -> RS_Loader -> RS_Loader.
Variable rs_group_by_time :
  RS_Loader -> PyLoader.time_grouping PyExpr -> result RS_DataLoaderGroupBy.
Variable rs_group_by :
  RS_Loader -> list PyExpr -> bool -> result RS_DataLoaderGroupBy.

Let obj := PyLoader.object RS_Loader RS_DataLoaderGroupBy.

(** Whatever the constructor is handed, it builds a [DataLoader]. *)
Lemma DataLoader_init_class typ symbols (o : obj) :
  PyLoader.DataLoader_init rs_new rs_set_dfs typ symbols = Ok o ->
  exists dl, o = PyLoader.DataLoader _ dl.
Proof.
  unfold PyLoader.DataLoader_init.
  destruct typ; cbn; try destruct (rs_new _ _); cbn;
    intros E; inversion E; eauto.
Qed.

Lemma group_by_time_class self args (o : obj) :
  PyLoader.group_by_time rs_new rs_set_dfs rs_group_by_time self args = Ok o ->
  exists dl, o = PyLoader.DataLoader _ dl.
Proof.
  destruct self as [dl | g]; cbn; [| discriminate].
  destruct (rs_group_by_time dl args) as [g |]; cbn; [| discriminate].
  exact (DataLoader_init_class (PyLoader.TGroupBy _ _ g) None (o := o)).
Qed.

Lemma group_by_class self keys keep (o : obj) :
  PyLoader.group_by rs_new rs_set_dfs rs_group_by self keys keep = Ok o ->
  exists dl, o = PyLoader.DataLoader _ dl.
Proof.
  destruct self as [dl | g]; cbn; [| discriminate].
  destruct (rs_group_by dl keys keep) as [g |]; cbn; [| discriminate].
  exact (DataLoader_init_class (PyLoader.TGroupBy _ _ g) None (o := o)).
Qed.

End GroupByTime.

(** C2 (as the code has it): for every behaviour of the Rust extension,
    [group_by_time] and [group_by] of a [DataLoader] never return a
    [DataLoaderGroupBy]; the chain [dl.group_by_time(...).agg(aggs)] (and
    the one through [group_by]) ends in an exception instead of a
    collection, because what comes back, if anything, is a [DataLoader],
    which has no [agg]. *)
Theorem group_by_time_yields_no_grouped_view :
  forall (RS_Loader RS_DataLoaderGroupBy PolarsFrame PyExpr : Type)
         (rs_new : PyLoader.typ_arg RS_Loader RS_DataLoaderGroupBy PolarsFrame
                   -> option (list string) -> result RS_Loader)
         (rs_set_dfs : list PolarsFrame -> RS_Loader -> RS_Loader)
         (rs_group_by_time : RS_Loader -> PyLoader.time_grouping PyExpr
                             -> result RS_DataLoaderGroupBy)
         (rs_group_by : RS_Loader -> list PyExpr -> bool
                        -> result RS_DataLoaderGroupBy)
         (rs_agg : RS_DataLoaderGroupBy -> list PyExpr -> result RS_Loader)
         (self : PyLoader.object RS_Loader RS_DataLoaderGroupBy)
         (args : PyLoader.time_grouping PyExpr) keys keep
         (aggs : list PyExpr),
    (forall g, PyLoader.group_by_time
                 rs_new rs_set_dfs rs_group_by_time self args
               <> Ok (PyLoader.DataLoaderGroupBy _ g))
    /\ (forall g, PyLoader.group_by
                    rs_new rs_set_dfs rs_group_by self keys keep
                  <> Ok (PyLoader.DataLoaderGroupBy _ g))
    /\ (exists e,
          (view <- PyLoader.group_by_time
                     rs_new rs_set_dfs rs_group_by_time self args ;;
           PyLoader.agg rs_new rs_set_dfs rs_agg view aggs) = Raise e)
    /\ (exists e,
          (view <- PyLoader.group_by
                     rs_new rs_set_dfs rs_group_by self keys keep ;;
           PyLoader.agg rs_new rs_set_dfs rs_agg view aggs) = Raise e).
Proof.
  intros. repeat split.
  - intros g E. apply group_by_time_class in E. destruct E as [dl E]. discriminate.
  - intros g E. apply group_by_class in E. destruct E as [dl E]. discriminate.
  - destruct (PyLoader.group_by_time _ _ _ self args) as [o | e] eqn:E.
    + apply group_by_time_class in E. destruct E as [dl ->]. cbn. eauto.
    + cbn. eauto.
  - destruct (PyLoader.group_by _ _ _ self keys keep) as [o | e] eqn:E.
    + apply group_by_class in E. destruct E as [dl ->]. cbn. eauto.
    + cbn. eauto.
Qed.

(** ** The information coefficient (utils.py) *)

Section StableCorr.

Local Open Scope Q_scope.

(** Clipping leaves a number between the bounds, when the bounds are in
    order. *)
Lemma clip_between lo hi q r :
  lo <= hi -> Utils.clip lo hi (Some (Utils.Fin q)) = Some (Utils.Fin r) ->
  lo <= r <= hi.
Proof.
  intros Hlh. unfold Utils.clip.
  destruct (Qlt_le_dec q lo) as [Hlo | Hlo].
  - intros E. injection E as <-. split; [apply Qle_refl | exact Hlh].
  - destruct (Qlt_le_dec hi q) as [Hhi | Hhi]; intros E; injection E as <-.
    + split; [exact Hlh | apply Qle_refl].
    + split; assumption.
Qed.

Lemma clip_nan lo hi : Utils.clip lo hi (Some Utils.NaN) = Some Utils.NaN.
Proof. reflexivity. Qed.

(** After [fill_nan(None)] over a clipped cell: null or a number between
    the bounds. *)
Lemma stable_cell_bounded lo hi cell :
  lo <= hi ->
  match Utils.fill_nan_none (Utils.clip lo hi cell) with
  | None => True
  | Some q => lo <= q <= hi
  end.
Proof.
  intros Hlh. destruct cell as [[| q] |]; [exact I | | exact I].
  destruct (Utils.clip lo hi (Some (Utils.Fin q))) as [[| r] |] eqn:E;
    [exact I | | exact I].
  cbn. eapply clip_between; eauto.
Qed.

End StableCorr.

(** C3: on a frame that has both columns, [stable_corr] returns a cell
    that is either null or a number within [-0.2, 0.2], whatever the
    correlation kernel computes; when the kernel answers not-a-number the
    cell is null. *)
Theorem stable_corr_within_bounds :
  forall (F : Type)
         (corr : Utils.corr_method -> Polars.column F -> Polars.column F
                 -> option Utils.float)
         (x y : string) (method : Utils.corr_method) (df : Polars.frame F)
         (cx cy : Polars.column F),
    Polars.col x df = Ok cx ->
    Polars.col y df = Ok cy ->
    exists ic,
      Utils.stable_corr corr x y method df = Ok ic
      /\ (ic = None \/ exists q, ic = Some q /\ (-(2 # 10) <= q <= 2 # 10)%Q)
      /\ (corr method cx cy = Some Utils.NaN -> ic = None).
Proof.
  intros F corr x y method df cx cy Hx Hy.
  unfold Utils.stable_corr. rewrite Hx, Hy. cbn.
  eexists. split; [reflexivity |]. split.
  - pose proof (@stable_cell_bounded (-(2 # 10)) (2 # 10) (corr method cx cy)) as Hb.
    destruct (Utils.fill_nan_none _) as [q |]; [right | left; reflexivity].
    exists q. split; [reflexivity |]. apply Hb. discriminate.
  - intros ->. reflexivity.
Qed.

(** A frame with a factor and a label whose correlation is [1]: the
    coefficient comes out as [0.2]. *)
Lemma stable_corr_within_bounds_witness :
  exists ic,
    Utils.stable_corr (fun _ _ _ => Some (Utils.Fin 1)) "f" "ret" Utils.pearson
      Fixtures.two_rows = Ok ic
    /\ (ic = None \/ exists q, ic = Some q /\ (-(2 # 10) <= q <= 2 # 10)%Q)
    /\ (Some (Utils.Fin 1) = Some Utils.NaN -> ic = None).
Proof.
  apply (@stable_corr_within_bounds Q (fun _ _ _ => Some (Utils.Fin 1))
           "f" "ret" Utils.pearson Fixtures.two_rows
           [Some 1; Some 2]%Q [Some (1 # 10); Some (2 # 10)]%Q);
    reflexivity.
Defined.

(** ** The result store (summary.py) *)

Section SummaryFacts.

Context {runtime : Runtime}.

Lemma getattr_found self name v :
  Summary.lookup_attr self name = Some v -> Summary.getattr self name = Ok v.
Proof. intros E. unfold Summary.getattr. cbn. rewrite E. reflexivity. Qed.

Lemma str_in_cons_false x y ys :
  str_in x (y :: ys) = false -> String.eqb x y = false /\ str_in x ys = false.
Proof. unfold str_in. cbn. apply orb_false_elim. Qed.

(** The fall-through branches of [__getattr__] make no access. *)
Lemma getattr_body_unknown get self name :
  str_in name derived_metrics = false ->
  Summary.__getattr__ get self name
  = if str_in name (Summary.facs self)
    then Ok (VFacSummary (VStr name)) else Ok VNone.
Proof.
  intros Hd. unfold Summary.__getattr__, derived_metrics in *.
  repeat (apply str_in_cons_false in Hd; destruct Hd as [-> Hd]).
  reflexivity.
Qed.

(** The body only reads [ic], [ic_std] and the two stored results. *)
Lemma getattr_body_ext get get' self name :
  (forall attr, In attr ["ic"; "ic_std"; "ts_ic"; "_ic_overall"] ->
                get attr = get' attr) ->
  Summary.__getattr__ get self name = Summary.__getattr__ get' self name.
Proof.
  intros E. unfold Summary.__getattr__.
  rewrite (E "ic"), (E "ic_std"), (E "ts_ic"), (E "_ic_overall");
    cbn; auto 6.
Qed.

(** A name that ordinary lookup does not resolve, that is no derived
    metric and no factor: the fall-through branch answers [None]. *)
Lemma getattr_unknown self name :
  Summary.lookup_attr self name = None ->
  str_in name derived_metrics = false ->
  str_in name (Summary.facs self) = false ->
  Summary.getattr self name = Ok VNone.
Proof.
  intros Hl Hd Hf. unfold Summary.getattr. cbn [Summary.getattr_fuel].
  rewrite Hl, getattr_body_unknown, Hf by assumption. reflexivity.
Qed.

(** More fuel than three changes nothing: the nesting of accesses stops
    at the stored result. *)
Lemma getattr_fuel_stored k self name :
  str_in name derived_metrics = false ->
  Summary.getattr_fuel (S k) self name = Summary.getattr_fuel 1 self name.
Proof.
  intros Hd. cbn [Summary.getattr_fuel].
  destruct (Summary.lookup_attr self name); [reflexivity |].
  rewrite !getattr_body_unknown by assumption. reflexivity.
Qed.

Lemma getattr_fuel_S k self name :
  Summary.getattr_fuel (S k) self name
  = match Summary.lookup_attr self name with
    | Some v => Ok v
    | None => Summary.__getattr__ (Summary.getattr_fuel k self) self name
    end.
Proof. reflexivity. Qed.

Lemma getattr_fuel_metric k self name :
  str_in name ["ic"; "ic_std"; "ic_skew"; "ic_kurt"; "ic_overall"] = true
  \/ str_in name derived_metrics = false ->
  Summary.getattr_fuel (2 + k) self name = Summary.getattr_fuel 2 self name.
Proof.
  intros Hn. change (2 + k)%nat with (S (S k)).
  rewrite (getattr_fuel_S (S k)), (getattr_fuel_S 1).
  destruct (Summary.lookup_attr self name); [reflexivity |].
  destruct Hn as [Hn | Hn].
  - pose proof (@getattr_fuel_stored k self "ts_ic" eq_refl) as E1.
    pose proof (@getattr_fuel_stored k self "_ic_overall" eq_refl) as E2.
    set (g := Summary.getattr_fuel (S k) self) in *.
    set (g' := Summary.getattr_fuel 1 self) in *.
    clearbody g g'. unfold Summary.__getattr__. rewrite E1, E2.
    destruct (String.eqb name "ic"); [reflexivity |].
    destruct (String.eqb name "ic_std"); [reflexivity |].
    destruct (String.eqb name "ir") eqn:Hir; [| reflexivity].
    apply String.eqb_eq in Hir. subst name. discriminate Hn.
  - rewrite !getattr_body_unknown by assumption. reflexivity.
Qed.

Lemma getattr_fuel_enough k self name :
  Summary.getattr_fuel (3 + k) self name = Summary.getattr self name.
Proof.
  unfold Summary.getattr. change (3 + k)%nat with (S (S (S k))).
  rewrite (getattr_fuel_S (S (S k))), (getattr_fuel_S 2).
  destruct (Summary.lookup_attr self name); [reflexivity |].
  apply getattr_body_ext. intros attr Hin.
  apply (@getattr_fuel_metric k self attr).
  cbn in Hin. destruct Hin as [<- | [<- | [<- | [<- | []]]]]; cbn; auto.
Qed.

Lemma lookup_attr_setattr_ne self name other v :
  name <> other ->
  Summary.lookup_attr (Summary.setattr other v self) name
  = Summary.lookup_attr self name.
Proof.
  intros Hne. unfold Summary.lookup_attr, Summary.setattr. cbn.
  rewrite lookup_insert_ne by congruence. reflexivity.
Qed.

End SummaryFacts.

(** C8 (amended): for every attribute name that ordinary lookup does not
    resolve (nothing stored under it on the instance, no member of the
    class), that is no derived metric and no configured factor name,
    attribute access on the result store returns [None] and does not
    raise. *)
Theorem unknown_attribute_resolves_to_none :
  forall (R : Runtime) (self : Summary.t) (name : string),
    Summary.lookup_attr self name = None ->
    str_in name derived_metrics = false ->
    str_in name (Summary.facs self) = false ->
    Summary.getattr self name = Ok VNone.
Proof. intros. apply getattr_unknown; assumption. Qed.

Lemma unknown_attribute_resolves_to_none_witness :
  @Summary.getattr Fixtures.sample_runtime
    (Summary.__init__ ["f"] ["label_1"]) "symbol_ts_ic" = Ok VNone.
Proof.
  apply (@unknown_attribute_resolves_to_none Fixtures.sample_runtime
           (Summary.__init__ ["f"] ["label_1"]) "symbol_ts_ic");
    reflexivity.
Defined.

(** C8 as stated fails: [labels] is no derived metric and no factor of
    this store, and reading it returns the list of labels, not [None]. *)
Lemma stored_attribute_is_returned :
  ~ (forall (self : Summary.t) (name : string),
       str_in name derived_metrics = false ->
       str_in name (Summary.facs self) = false ->
       @Summary.getattr Fixtures.sample_runtime self name = Ok VNone).
Proof.
  intros Hall.
  specialize (Hall (Summary.__init__ ["f"] ["label_1"]) "labels" eq_refl eq_refl).
  discriminate Hall.
Qed.

(** ** Lookup of one factor's result *)

Section FacAttr.

Context {runtime : Runtime}.

Lemma is_none_false v : v <> VNone -> is_none v = false.
Proof. destruct v; cbn; congruence. Qed.

Lemma is_none_true v : is_none v = true -> v = VNone.
Proof. destruct v; cbn; congruence. Qed.

(** The search through [zip(facs, values)] comes back empty-handed
    exactly when the name is not among the factors that have an entry. *)
Lemma find_fac_none s facs items :
  Forall (fun v => v <> VNone) items ->
  Summary.find_fac s facs items = VNone
  <-> ~ In s (firstn (List.length items) facs).
Proof.
  revert items. induction facs as [| f facs IH]; intros items Hall.
  - cbn. rewrite firstn_nil. tauto.
  - destruct items as [| v items]; cbn.
    + tauto.
    + inversion Hall as [| ? ? Hv Hrest]; subst.
      destruct (String.eqb f s) eqn:E.
      * apply String.eqb_eq in E. subst f. split; [contradiction | tauto].
      * apply String.eqb_neq in E. rewrite (IH items Hrest). tauto.
Qed.

(** Found, it is the entry at the position of the first occurrence. *)
Lemma find_fac_at s facs items i :
  index_of s facs = Some i -> (i < List.length items)%nat ->
  nth_error items i = Some (Summary.find_fac s facs items).
Proof.
  revert items i. induction facs as [| f facs IH]; intros items i; cbn.
  - discriminate.
  - destruct items as [| v items]; cbn; [lia |].
    destruct (String.eqb f s).
    + intros [= <-] _. reflexivity.
    + destruct (index_of s facs) as [j |] eqn:E; cbn; [| discriminate].
      intros [= <-] Hlt. cbn. apply IH; [reflexivity | lia].
Qed.

Lemma index_of_in s facs i :
  index_of s facs = Some i -> In s (firstn (S i) facs).
Proof.
  revert i. induction facs as [| f facs IH]; intros i; cbn; [discriminate |].
  destruct (String.eqb f s) eqn:E.
  - apply String.eqb_eq in E. intros _. left. exact E.
  - destruct (index_of s facs) as [j |]; cbn; [| discriminate].
    intros [= <-]. right. apply IH. reflexivity.
Qed.

Lemma list_index_in (items : list value) i v :
  list_index items i = Ok v -> In v items.
Proof.
  unfold list_index.
  destruct (_ && _)%bool; [| discriminate].
  destruct (nth_error items _) eqn:E; [| discriminate].
  intros [= <-]. eapply nth_error_In; eauto.
Qed.

Lemma list_index_raise (items : list value) i e :
  list_index items i = Raise e -> e = IndexError.
Proof.
  unfold list_index.
  destruct (_ && _)%bool; [| congruence].
  destruct (nth_error items _); congruence.
Qed.

End FacAttr.

(** C7: on a stored list-valued result (a list of frames, none of them
    [None]), [_fac_attr_single] raises the [ValueError] "not in result"
    exactly when the key is a factor name without an entry in the list
    ([zip(self.facs, values)] does not reach it); it raises the
    [TypeError] "fac should be str or int" exactly when the key is neither
    a string nor an int; for a factor name with an entry it returns the
    entry at the factor's position; and [fac_attr] with a single key is
    the same lookup. *)
Theorem fac_attr_single_conditions :
  forall (R : Runtime) (self : Summary.t) (attr : string)
         (items : list value) (fac : value),
    Summary.getattr self attr = Ok (VList items) ->
    Forall (fun v => v <> VNone) items ->
    ((exists msg, Summary._fac_attr_single self attr fac
                  = Raise (ValueError msg))
     <-> exists s, fac = VStr s
                   /\ ~ In s (firstn (List.length items) (Summary.facs self)))
    /\ (Summary._fac_attr_single self attr fac = Raise Summary.bad_key
        <-> (forall s, fac <> VStr s) /\ (forall i, fac <> VInt i))
    /\ (forall s i,
          fac = VStr s ->
          index_of s (Summary.facs self) = Some i ->
          (i < List.length items)%nat ->
          exists df, nth_error items i = Some df
                     /\ Summary._fac_attr_single self attr fac = Ok df)
    /\ ((forall keys, fac <> VList keys) ->
        Summary.fac_attr self attr fac
        = Summary._fac_attr_single self attr fac).
Proof.
  intros R self attr items fac Hget Hall.
  unfold Summary._fac_attr_single. rewrite Hget. cbn [bind].
  split; [split | split; [split | split]].
  - (* a ValueError comes from a name without an entry *)
    intros [msg E]. destruct fac as [| s | i | | | | | | | |]; cbn in E;
      try discriminate.
    + exists s. split; [reflexivity |].
      apply find_fac_none; [assumption |].
      destruct (is_none _) eqn:En; [| discriminate].
      apply is_none_true. exact En.
    + destruct (list_index items i) as [v | e] eqn:Ei; cbn in E;
        [| apply list_index_raise in Ei; subst e; discriminate].
      apply list_index_in in Ei.
      rewrite List.Forall_forall in Hall. apply Hall in Ei.
      rewrite (is_none_false Ei) in E. discriminate.
  - intros [s [-> Hs]]. cbn.
    apply find_fac_none in Hs; [| assumption]. rewrite Hs. cbn. eauto.
  - (* the TypeError of the last branch comes from no string and no int *)
    intros E. destruct fac as [| s | i | | | | | | | |];
      try (split; intros; discriminate); exfalso; cbn in E.
    + destruct (is_none _); discriminate.
    + destruct (list_index items i) as [v | e] eqn:Ei; cbn in E;
        [| apply list_index_raise in Ei; subst e; discriminate].
      destruct (is_none v); discriminate.
  - intros [Hs Hi]. destruct fac; try reflexivity.
    + exfalso. eapply Hs. reflexivity.
    + exfalso. eapply Hi. reflexivity.
  - intros s i -> Hidx Hlt. cbn.
    pose proof (@find_fac_at s _ items i Hidx Hlt) as Hnth.
    exists (Summary.find_fac s (Summary.facs self) items).
    split; [exact Hnth |].
    apply nth_error_In in Hnth. rewrite List.Forall_forall in Hall.
    rewrite (is_none_false (Hall _ Hnth)). reflexivity.
  - intros Hk.
    destruct fac;
      try (unfold Summary.fac_attr, Summary._fac_attr_single;
           rewrite Hget; reflexivity).
    exfalso. eapply Hk. reflexivity.
Qed.

Lemma fac_attr_single_conditions_witness :
  Summary._fac_attr_single (runtime := Fixtures.sample_runtime)
    Fixtures.sample_store "group_rets" (VStr "g")
  = Ok (VPandas []).
Proof.
  destruct (@fac_attr_single_conditions Fixtures.sample_runtime
              Fixtures.sample_store "group_rets"
              [VPandas Fixtures.two_rows; VPandas []] (VStr "g"))
    as (_ & _ & Hpresent & _).
  - reflexivity.
  - repeat constructor; discriminate.
  - destruct (Hpresent "g" 1%nat) as [df [Hnth Hres]];
      [reflexivity | reflexivity | cbn; lia |].
    cbn in Hnth. injection Hnth as <-. exact Hres.
Defined.

(** ** What [ts_ic] writes to the result store (analysis.py) *)

Section TsIc.

Context {F : Type} {engine : Engine F}.

Local Abbreviation attrs_of a := (Summary.attrs (Analysis.summary a)).

(** [ts_ic] writes [ts_ic], and [symbol_ts_ic] when asked to keep it;
    every other attribute of the store is as before. *)
Lemma ts_ic_frame rule method keep (self : Analysis.t (F := F)) name :
  name <> "ts_ic" ->
  keep = false \/ name <> "symbol_ts_ic" ->
  attrs_of (fst (Analysis.ts_ic rule method keep self)) !! name
  = attrs_of self !! name.
Proof.
  intros Hts Hsym. unfold Analysis.ts_ic.
  destruct (mapM _ (Analysis.facs self)) as [loaders | e]; [| reflexivity].
  assert (Hs1 : Summary.attrs
                  (if keep
                   then Summary.setattr "symbol_ts_ic"
                          (VList (map VLoader loaders)) (Analysis.summary self)
                   else Analysis.summary self) !! name
                = attrs_of self !! name).
  { destruct keep; [| reflexivity].
    destruct Hsym as [? | Hsym]; [discriminate |].
    cbn. rewrite lookup_insert_ne by congruence. reflexivity. }
  destruct (mapM agg_first loaders) as [frames | e]; cbn.
  - rewrite lookup_insert_ne by congruence. exact Hs1.
  - exact Hs1.
Qed.

Lemma ts_ic_facs rule method keep (self : Analysis.t (F := F)) :
  Summary.facs (Analysis.summary (fst (Analysis.ts_ic rule method keep self)))
  = Summary.facs (Analysis.summary self)
  /\ Summary.labels (Analysis.summary (fst (Analysis.ts_ic rule method keep self)))
     = Summary.labels (Analysis.summary self).
Proof.
  unfold Analysis.ts_ic.
  destruct (mapM _ (Analysis.facs self)) as [loaders | e]; [| split; reflexivity].
  destruct (mapM agg_first loaders); destruct keep; split; reflexivity.
Qed.

Lemma ts_ic_stores rule method keep (self : Analysis.t (F := F)) :
  snd (Analysis.ts_ic rule method keep self) = Ok tt ->
  exists loaders frames,
    attrs_of (fst (Analysis.ts_ic rule method keep self)) !! "ts_ic"
    = Some (VList (map VPandas frames))
    /\ (keep = true ->
        attrs_of (fst (Analysis.ts_ic rule method keep self)) !! "symbol_ts_ic"
        = Some (VList (map VLoader loaders))).
Proof.
  unfold Analysis.ts_ic.
  destruct (mapM _ (Analysis.facs self)) as [loaders | e]; [| discriminate].
  destruct (mapM agg_first loaders) as [frames | e]; [| discriminate].
  intros _. exists loaders, frames. cbn. split.
  - apply lookup_insert_eq.
  - intros ->. cbn. rewrite lookup_insert_ne by discriminate.
    apply lookup_insert_eq.
Qed.

End TsIc.

(** C10 (amended): a call of [ts_ic] with [keep_symbol_ic=False] does not
    write [symbol_ts_ic]: the attribute is what it was before the call, as
    is every attribute but [ts_ic], which a call that returns sets to the
    list of cross-symbol frames.  On a store that did not hold
    [symbol_ts_ic] before, it still resolves to [None] afterwards.  A call
    with [keep_symbol_ic=True] that returns stores the per-symbol
    frames. *)
Theorem ts_ic_keeps_symbol_frames_only_on_request :
  forall (F : Type) (E : Engine F) (R : Runtime)
         (rule : string) (method : Utils.corr_method) (self : Analysis.t),
    let after := fst (Analysis.ts_ic rule method false self) in
    Summary.attrs (Analysis.summary after) !! "symbol_ts_ic"
    = Summary.attrs (Analysis.summary self) !! "symbol_ts_ic"
    /\ (forall name, name <> "ts_ic" ->
          Summary.attrs (Analysis.summary after) !! name
          = Summary.attrs (Analysis.summary self) !! name)
    /\ (snd (Analysis.ts_ic rule method false self) = Ok tt ->
        exists frames,
          Summary.attrs (Analysis.summary after) !! "ts_ic"
          = Some (VList (map VPandas frames)))
    /\ (Summary.lookup_attr (Analysis.summary self) "symbol_ts_ic" = None ->
        str_in "symbol_ts_ic" (Summary.facs (Analysis.summary self)) = false ->
        Summary.getattr (Analysis.summary after) "symbol_ts_ic" = Ok VNone)
    /\ (snd (Analysis.ts_ic rule method true self) = Ok tt ->
        exists loaders,
          Summary.attrs
            (Analysis.summary (fst (Analysis.ts_ic rule method true self)))
            !! "symbol_ts_ic"
          = Some (VList (map VLoader loaders))).
Proof.
  intros F E R rule method self after. subst after.
  split; [| split; [| split; [| split]]].
  - apply ts_ic_frame; [discriminate | left; reflexivity].
  - intros name Hne. apply ts_ic_frame; [assumption | left; reflexivity].
  - intros Hok. destruct (ts_ic_stores _ _ _ _ Hok) as (_ & frames & Hts & _).
    exists frames. exact Hts.
  - intros Hnone Hfac.
    destruct (ts_ic_facs rule method false self) as [Hf Hl].
    apply getattr_unknown; [| reflexivity | rewrite Hf; exact Hfac].
    unfold Summary.lookup_attr in *. rewrite Hf, Hl.
    rewrite ts_ic_frame by (discriminate || (left; reflexivity)).
    exact Hnone.
  - intros Hok. destruct (ts_ic_stores _ _ _ _ Hok) as (loaders & _ & _ & Hsym).
    exists loaders. apply Hsym. reflexivity.
Qed.

Lemma ts_ic_keeps_symbol_frames_only_on_request_witness :
  Fixtures.sample_init = Ok Fixtures.started
  /\ snd (Analysis.ts_ic (engine := Fixtures.sample_engine)
            "1mo" Utils.pearson false Fixtures.started) = Ok tt
  /\ Summary.getattr (runtime := Fixtures.sample_runtime)
       (Analysis.summary
          (fst (Analysis.ts_ic (engine := Fixtures.sample_engine)
                  "1mo" Utils.pearson false Fixtures.started)))
       "symbol_ts_ic" = Ok VNone.
Proof.
  split; [reflexivity |]. split; [reflexivity |].
  destruct (@ts_ic_keeps_symbol_frames_only_on_request Q
              Fixtures.sample_engine Fixtures.sample_runtime
              "1mo" Utils.pearson Fixtures.started)
    as (_ & _ & _ & Hnone & _).
  apply Hnone; reflexivity.
Defined.

(** C10 as stated fails once the per-symbol frames have been kept: after
    a call with [keep_symbol_ic=True], a call with the default leaves
    them where they are, and [symbol_ts_ic] resolves to them. *)
Lemma symbol_ts_ic_outlives_a_default_call :
  exists a1 a2 : Analysis.t,
    Fixtures.sample_init = Ok Fixtures.started
    /\ Analysis.ts_ic (engine := Fixtures.sample_engine)
         "1mo" Utils.pearson true Fixtures.started = (a1, Ok tt)
    /\ Analysis.ts_ic (engine := Fixtures.sample_engine)
         "1mo" Utils.pearson false a1 = (a2, Ok tt)
    /\ Summary.getattr (runtime := Fixtures.sample_runtime)
         (Analysis.summary a2) "symbol_ts_ic" <> Ok VNone.
Proof.
  eexists. eexists.
  split; [reflexivity |].
  split; [vm_compute; reflexivity |].
  split; [vm_compute; reflexivity |].
  intros E. vm_compute in E. discriminate E.
Qed.

(** ** Names of the label columns *)

Section LabelNames.

Lemma to_int_not_nil n : Z.to_int n <> Pos Nil /\ Z.to_int n <> Neg Nil.
Proof.
  destruct n as [| p | p]; cbn; split; try discriminate;
    intros [= E]; exact (DecimalPos.Unsigned.to_uint_nonnil _ E).
Qed.

(** [int(str(n)) == n] *)
Lemma int_of_str_of_int n : int_of_str (str_of_int n) = Ok n.
Proof.
  unfold int_of_str, str_of_int.
  destruct (to_int_not_nil n) as [Hp Hn].
  rewrite (NilZero.isi _ Hp Hn), DecimalZ.of_to. reflexivity.
Qed.

Lemma str_of_int_inj n m : str_of_int n = str_of_int m -> n = m.
Proof.
  intros E. apply (f_equal int_of_str) in E.
  rewrite !int_of_str_of_int in E. congruence.
Qed.

Lemma label_name_inj n m :
  Analysis.label_name n = Analysis.label_name m -> n = m.
Proof.
  unfold Analysis.label_name. intros E.
  change (String "l" (String "a" (String "b" (String "e" (String "l"
            (String "_" (str_of_int n))))))
          = String "l" (String "a" (String "b" (String "e" (String "l"
              (String "_" (str_of_int m))))))) in E.
  injection E as E. apply str_of_int_inj. exact E.
Qed.


Lemma no_l_uint d : no_l (NilEmpty.string_of_uint d) = true.
Proof. induction d; cbn; auto. Qed.

Lemma no_l_str_of_int n : no_l (str_of_int n) = true.
Proof.
  unfold str_of_int.
  destruct (Z.to_int n) as [d | d]; cbn; destruct d; cbn;
    auto using no_l_uint.
Qed.

Lemma prefix_label_no_l s : no_l s = true -> String.prefix "label_" s = false.
Proof.
  destruct s as [| c rest]; [reflexivity |].
  intros E.
  change (String.prefix "label_" (String c rest))
    with (if ascii_dec "l" c then String.prefix "abel_" rest else false).
  destruct (ascii_dec "l" c) as [<- | ?]; [discriminate E | reflexivity].
Qed.

Lemma remove_label_no_l s : no_l s = true -> remove_from "label_" 0 s = s.
Proof.
  induction s as [| c rest IH]; [reflexivity |].
  intros E. cbn [remove_from]. rewrite (prefix_label_no_l _ E).
  cbn in E. apply andb_prop in E. destruct E as [_ E].
  rewrite (IH E). reflexivity.
Qed.

(** [f'label_{n}'.replace('label_', '')] is [str(n)], and [int] of it
    is [n]. *)
Lemma str_remove_label_name n :
  str_remove "label_" (Analysis.label_name n) = str_of_int n.
Proof.
  unfold Analysis.label_name, str_remove.
  change ("label_" ++ str_of_int n)
    with (String "l" (String "a" (String "b" (String "e" (String "l"
            (String "_" (str_of_int n))))))).
  cbn -[str_of_int].
  replace (String.prefix "" (str_of_int n)) with true
    by (destruct (str_of_int n); reflexivity).
  apply remove_label_no_l, no_l_str_of_int.
Qed.

Lemma horizon_of_label_name n :
  int_of_str (str_remove "label_" (Analysis.label_name n)) = Ok n.
Proof. rewrite str_remove_label_name. apply int_of_str_of_int. Qed.

End LabelNames.

(** ** Frames and [with_columns] *)

Section Frames.

Context {F : Type}.

Lemma mapM_Forall2 {A B} (f : A -> result B) xs ys :
  mapM f xs = Ok ys -> Forall2 (fun x y => f x = Ok y) xs ys.
Proof.
  revert ys. induction xs as [| x xs IH]; intros ys; cbn.
  - intros [= <-]. constructor.
  - destruct (f x) as [y |] eqn:E; cbn; [| discriminate].
    destruct (mapM f xs) as [ys' |]; cbn; [| discriminate].
    intros [= <-]. constructor; auto.
Qed.

Lemma mapM_ok {A B} (f : A -> result B) xs :
  Forall (fun x => exists y, f x = Ok y) xs -> exists ys, mapM f xs = Ok ys.
Proof.
  induction 1 as [| x xs [y Hy] _ [ys Hys]]; cbn.
  - eauto.
  - rewrite Hy, Hys. cbn. eauto.
Qed.

Lemma str_in_In x xs : str_in x xs = true <-> In x xs.
Proof.
  unfold str_in. rewrite existsb_exists. split.
  - intros [y [Hy E]]. apply String.eqb_eq in E. subst. exact Hy.
  - intros Hx. exists x. split; [exact Hx | apply String.eqb_refl].
Qed.

Lemma distinct_NoDup xs : distinct xs = true <-> List.NoDup xs.
Proof.
  induction xs as [| x xs IH]; cbn.
  - split; [constructor | reflexivity].
  - rewrite andb_true_iff, negb_true_iff, IH. split.
    + intros [Hx Hn]. constructor; [| exact Hn].
      rewrite <- str_in_In. congruence.
    + intros Hn. inversion Hn as [| ? ? Hx Hrest]; subst.
      split; [| exact Hrest].
      destruct (str_in x xs) eqn:E; [| reflexivity].
      apply str_in_In in E. contradiction.
Qed.

Lemma get_set_column_eq name (c : Polars.column F) df :
  Polars.get_column name (Polars.set_column name c df) = Some c.
Proof.
  induction df as [| [k v] df IH]; cbn.
  - rewrite String.eqb_refl. reflexivity.
  - destruct (String.eqb k name) eqn:E; cbn.
    + rewrite String.eqb_refl. reflexivity.
    + rewrite E. exact IH.
Qed.

Lemma get_set_column_ne name other (c : Polars.column F) df :
  other <> name ->
  Polars.get_column name (Polars.set_column other c df)
  = Polars.get_column name df.
Proof.
  intros Hne. induction df as [| [k v] df IH]; cbn.
  - apply String.eqb_neq in Hne. rewrite Hne. reflexivity.
  - destruct (String.eqb k other) eqn:E; cbn.
    + apply String.eqb_eq in E. subst k.
      apply String.eqb_neq in Hne. rewrite Hne. reflexivity.
    + destruct (String.eqb k name); [reflexivity | exact IH].
Qed.

Abbreviation set_all cols df :=
  (fold_left (fun acc nc => @Polars.set_column F (fst nc) (snd nc) acc) cols df).

Lemma get_set_all_other name cols df :
  ~ In name (map fst cols) ->
  Polars.get_column name (set_all cols df) = Polars.get_column name df.
Proof.
  revert df. induction cols as [| [k v] cols IH]; intros df Hn; cbn.
  - reflexivity.
  - cbn in Hn. rewrite IH by tauto.
    apply get_set_column_ne. tauto.
Qed.

Lemma get_set_all_in name c cols df :
  List.NoDup (map fst cols) -> In (name, c) cols ->
  Polars.get_column name (set_all cols df) = Some c.
Proof.
  revert df. induction cols as [| [k v] cols IH]; intros df Hnd Hin; cbn.
  - destruct Hin.
  - cbn in Hnd. inversion Hnd as [| ? ? Hk Hrest]; subst.
    destruct Hin as [[= -> ->] | Hin].
    + rewrite get_set_all_other by exact Hk. apply get_set_column_eq.
    + apply IH; assumption.
Qed.

(** What [with_columns] leaves behind: each expression's value under
    its name, every other column as it was. *)
Lemma with_columns_Ok exprs (df df' : Polars.frame F) :
  Polars.with_columns exprs df = Ok df' ->
  List.NoDup (map fst exprs)
  /\ (forall name e, In (name, e) exprs ->
        exists c, e df = Ok c /\ Polars.get_column name df' = Some c)
  /\ (forall name, ~ In name (map fst exprs) ->
        Polars.get_column name df' = Polars.get_column name df).
Proof.
  unfold Polars.with_columns.
  destruct (distinct (map fst exprs)) eqn:Hd; [| discriminate].
  apply distinct_NoDup in Hd.
  destruct (mapM (fun ne => c <- snd ne df ;; Ok (fst ne, c)) exprs)
    as [cols |] eqn:Hm; cbn; [| discriminate].
  intros [= <-]. apply mapM_Forall2 in Hm.
  assert (Hnames : map fst cols = map fst exprs).
  { clear Hd.
    induction Hm as [| [n e] [n' c] ? ? Hx _ IH]; cbn; [reflexivity |].
    cbn in Hx. destruct (e df); cbn in Hx; [| discriminate].
    injection Hx as <- _. f_equal. exact IH. }
  split; [exact Hd |]. split.
  - intros name e Hin.
    assert (Hc : exists c, e df = Ok c /\ In (name, c) cols).
    { clear Hnames Hd. induction Hm as [| [n e0] [n' c] ? ? Hx _ IH].
      - destruct Hin.
      - cbn in Hx. destruct Hin as [[= -> ->] | Hin].
        + destruct (e df) as [c0 |]; cbn in Hx; [| discriminate].
          injection Hx as <- <-. exists c0. split; [reflexivity | left; reflexivity].
        + destruct (IH Hin) as [c1 [H1 H2]]. exists c1. split; [exact H1 | right; exact H2]. }
    destruct Hc as [c [Hc Hin']]. exists c. split; [exact Hc |].
    apply get_set_all_in; [rewrite Hnames; exact Hd | exact Hin'].
  - intros name Hn. apply get_set_all_other. rewrite Hnames. exact Hn.
Qed.


End Frames.

(** ** The forward labels (analysis.py, [__init__]) *)

Section Labels.

Context {F : Type} {num : Num F}.

Lemma nth_map_seq (g : nat -> option F) len t :
  (t < len)%nat -> nth t (map g (seq 0 len)) None = g t.
Proof.
  intros Hlt.
  rewrite (nth_indep _ None (g O)) by (rewrite length_map, length_seq; exact Hlt).
  rewrite (map_nth g (seq 0 len) O t), seq_nth by exact Hlt. reflexivity.
Qed.

Lemma nth_error_map_seq (g : nat -> option F) len t :
  (t < len)%nat -> nth_error (map g (seq 0 len)) t = Some (g t).
Proof.
  intros Hlt. rewrite nth_error_map.
  rewrite (nth_error_nth' _ O) by (rewrite length_seq; exact Hlt).
  rewrite seq_nth by exact Hlt. reflexivity.
Qed.

Lemma length_shift k (c : Polars.column F) :
  List.length (Polars.shift k c) = List.length c.
Proof. unfold Polars.shift. rewrite length_map, length_seq. reflexivity. Qed.

Lemma length_rolling_sum n m (c : Polars.column F) :
  List.length (Polars.rolling_sum n m c) = List.length c.
Proof. unfold Polars.rolling_sum. rewrite length_map, length_seq. reflexivity. Qed.

Lemma length_map_cells f (c : Polars.column F) :
  List.length (Polars.map_cells f c) = List.length c.
Proof. apply length_map. Qed.

Lemma length_fill_null v (c : Polars.column F) :
  List.length (Polars.fill_null v c) = List.length c.
Proof. apply length_map. Qed.

Lemma nth_map_cells f (c : Polars.column F) j :
  nth j (Polars.map_cells f c) None = option_map f (nth j c None).
Proof. unfold Polars.map_cells. exact (map_nth (option_map f) c None j). Qed.

Lemma length_forward_return n (base : Polars.column F) :
  List.length (Analysis.forward_return n base) = List.length base.
Proof.
  unfold Analysis.forward_return.
  rewrite length_fill_null, length_shift, !length_map_cells,
    length_rolling_sum, !length_map_cells.
  reflexivity.
Qed.

(** The window that ends [n - 1] rows after row [t] starts at row [t]. *)
Lemma window_ahead n t (c : Polars.column F) :
  (0 < n)%nat ->
  Polars.window n (t + (n - 1)) c = firstn n (skipn t c).
Proof.
  intros Hn. unfold Polars.window.
  replace (S (t + (n - 1)) - n)%nat with t by lia.
  replace (S (t + (n - 1))) with (t + n)%nat by lia.
  symmetry. apply firstn_skipn_comm.
Qed.

(** Row [t] of the label of horizon [n]: the compounded return of the
    rows [t .. t + n - 1] when they exist and hold enough values. *)
Lemma forward_return_row n (base : Polars.column F) t :
  (1 < n)%Z -> (t < List.length base)%nat ->
  nth_error (Analysis.forward_return n base) t
  = Some (Some
      (if (t + (Z.to_nat n - 1) <? List.length base)%nat
       then
         let vs :=
           Polars.valid
             (firstn (Z.to_nat n)
                (skipn t (Polars.map_cells flog
                            (Polars.map_cells (fadd fone) base)))) in
         if (n / 2 <=? Z.of_nat (List.length vs))%Z
         then fsub (fexp (fold_left fadd vs fzero)) fone
         else fzero
       else fzero)).
Proof.
  intros Hn Ht. unfold Analysis.forward_return.
  set (logs := Polars.map_cells flog (Polars.map_cells (fadd fone) base)).
  assert (Hlen : List.length logs = List.length base)
    by (unfold logs; rewrite !length_map_cells; reflexivity).
  set (sums := Polars.rolling_sum n (n / 2) logs).
  set (rets := Polars.map_cells (fun x => fsub x fone)
                 (Polars.map_cells fexp sums)).
  assert (Hrets : List.length rets = List.length base)
    by (unfold rets, sums;
        rewrite !length_map_cells, length_rolling_sum; exact Hlen).
  unfold Polars.fill_null. rewrite nth_error_map.
  unfold Polars.shift. rewrite nth_error_map_seq by (rewrite Hrets; exact Ht).
  rewrite Hrets. cbn [option_map].
  replace (Z.of_nat t - (- n + 1))%Z
    with (Z.of_nat (t + (Z.to_nat n - 1))) by lia.
  destruct (t + (Z.to_nat n - 1) <? List.length base)%nat eqn:Hin.
  - apply Nat.ltb_lt in Hin.
    replace ((0 <=? Z.of_nat (t + (Z.to_nat n - 1)))%Z
             && (Z.of_nat (t + (Z.to_nat n - 1)) <? Z.of_nat (List.length base))%Z)%bool
      with true
      by (symmetry; apply andb_true_intro; split;
          [apply Z.leb_le | apply Z.ltb_lt]; lia).
    rewrite Nat2Z.id. unfold rets. rewrite !nth_map_cells.
    unfold sums, Polars.rolling_sum.
    rewrite nth_map_seq by (rewrite Hlen; exact Hin).
    rewrite window_ahead by lia.
    cbv zeta.
    destruct (n / 2 <=? _)%Z; reflexivity.
  - apply Nat.ltb_ge in Hin.
    replace ((0 <=? Z.of_nat (t + (Z.to_nat n - 1)))%Z
             && (Z.of_nat (t + (Z.to_nat n - 1)) <? Z.of_nat (List.length base))%Z)%bool
      with false
      by (symmetry; apply andb_false_intro2; apply Z.ltb_ge; lia).
    reflexivity.
Qed.

End Labels.

Section Init.

Context {F : Type} {num : Num F} {engine : Engine F}.

Lemma loader_with_columns_frames exprs (dl dl' : loader F) :
  DataLoader.with_columns exprs true dl = Ok dl' ->
  Forall2 (fun df df' => Polars.with_columns exprs df = Ok df')
          (dfs dl) (dfs dl').
Proof.
  unfold DataLoader.with_columns.
  destruct (mapM (Polars.with_columns exprs) (dfs dl)) as [frames |] eqn:E;
    cbn; [| discriminate].
  intros [= <-]. cbn. apply mapM_Forall2. exact E.
Qed.

(** The steps of [__init__], one by one. *)
Lemma init_steps source facs base symbols label_periods type_ freq drop_peak
      (a : Analysis.t) :
  Analysis.__init__ source facs base symbols label_periods type_ freq drop_peak
  = Ok a ->
  exists dl0 dl1,
    source_loader source symbols type_ freq = Ok dl0
    /\ DataLoader.with_columns (Analysis.winsorize_exprs facs) drop_peak dl0
       = Ok dl1
    /\ DataLoader.with_columns
         (Analysis.label_exprs base (horizons label_periods)) true dl1
       = Ok (Analysis.dl a)
    /\ Analysis.label_periods a = horizons label_periods
    /\ Analysis.labels a = map Analysis.label_name (horizons label_periods)
    /\ Analysis.facs a = facs
    /\ Analysis.summary a
       = Summary.__init__ facs (map Analysis.label_name (horizons label_periods)).
Proof.
  unfold Analysis.__init__. fold (source_loader source symbols type_ freq).
  fold (horizons label_periods).
  destruct (source_loader source symbols type_ freq) as [dl0 |]; cbn [bind];
    [| discriminate].
  destruct (DataLoader.with_columns (Analysis.winsorize_exprs facs) drop_peak dl0)
    as [dl1 |] eqn:E1; cbn [bind]; [| discriminate].
  destruct (DataLoader.with_columns _ true dl1) as [dl2 |] eqn:E2; cbn [bind];
    [| discriminate].
  intros [= <-]. exists dl0, dl1. cbn.
  repeat split; try reflexivity; assumption.
Qed.



Lemma label_exprs_names base periods :
  map fst (Analysis.label_exprs (F := F) base periods)
  = (map Analysis.label_name (List.filter (fun n => negb (n =? 1)%Z) periods)
     ++ ["label_1"])%list.
Proof.
  unfold Analysis.label_exprs. rewrite map_app, map_map. reflexivity.
Qed.


End Init.

Section InitColumns.

Context {F : Type} {num : Num F} {engine : Engine F}.

(** Every frame of the built collection is the frame after winsorizing
    with the label columns added. *)
Lemma init_label_columns source facs base symbols label_periods type_ freq
      drop_peak (a : Analysis.t) :
  Analysis.__init__ source facs base symbols label_periods type_ freq drop_peak
  = Ok a ->
  exists dl0 dl1,
    source_loader source symbols type_ freq = Ok dl0
    /\ DataLoader.with_columns (Analysis.winsorize_exprs facs) drop_peak dl0
       = Ok dl1
    /\ Forall2
         (fun df1 df' =>
            Polars.with_columns
              (Analysis.label_exprs base (horizons label_periods)) df1
            = Ok df')
         (dfs dl1) (dfs (Analysis.dl a)).
Proof.
  intros Hinit. apply init_steps in Hinit.
  destruct Hinit as (dl0 & dl1 & Hsrc & Hw & Hl & _).
  exists dl0, dl1. split; [exact Hsrc |]. split; [exact Hw |].
  apply loader_with_columns_frames. exact Hl.
Qed.


End InitColumns.



(** C1 (amended): for every horizon [n > 1] among the label periods, the
    column [label_n] of every frame is the forward return of the base
    label column; its row [t] is [exp(s) - 1], [s] the sum of the non-null
    [log(1 + base)] of the rows [t .. t + n - 1], when these rows exist and
    at least ⌊n/2⌋ of them are non-null, and [0] otherwise; so the last
    [n - 1] rows hold [0], and the column is as long as the base label. *)
Theorem label_n_is_forward_return :
  forall (F : Type) (num : Num F) (engine : Engine F)
         (source : loader F + list (Polars.frame F))
         (facs : list string) (base_label : string)
         (symbols : option (list string)) (label_periods : option (list Z))
         (type_ freq : option string) (drop_peak : bool),
    (forall a : Analysis.t,
       Analysis.__init__ source facs base_label symbols label_periods
                     type_ freq drop_peak = Ok a ->
       exists dl0 dl1,
         source_loader source symbols type_ freq = Ok dl0
         /\ DataLoader.with_columns (Analysis.winsorize_exprs facs)
                                    drop_peak dl0 = Ok dl1
         /\ forall n,
              In n (Analysis.label_periods a) -> (1 < n)%Z ->
              Forall2
                (fun df1 df' =>
                   exists c,
                     Polars.get_column base_label df1 = Some c
                     /\ Polars.get_column (Analysis.label_name n) df'
                        = Some (Analysis.forward_return n c))
                (dfs dl1) (dfs (Analysis.dl a)))
    /\ (forall (n : Z) (base : Polars.column F) (t : nat),
          (1 < n)%Z -> (t < List.length base)%nat ->
          nth_error (Analysis.forward_return n base) t
          = Some (Some
              (if (t + (Z.to_nat n - 1) <? List.length base)%nat
               then
                 let vs :=
                   Polars.valid
                     (firstn (Z.to_nat n)
                        (skipn t (Polars.map_cells flog
                                    (Polars.map_cells (fadd fone) base)))) in
                 if (n / 2 <=? Z.of_nat (List.length vs))%Z
                 then fsub (fexp (fold_left fadd vs fzero)) fone
                 else fzero
               else fzero)))
    /\ (forall (n : Z) (base : Polars.column F) (t : nat),
          (1 < n)%Z -> (t < List.length base)%nat ->
          (List.length base <= t + (Z.to_nat n - 1))%nat ->
          nth_error (Analysis.forward_return n base) t = Some (Some fzero))
    /\ (forall (n : Z) (base : Polars.column F),
          List.length (Analysis.forward_return n base) = List.length base).
Proof.
  intros. split; [| split; [| split]].
  - intros a Hinit.
    pose proof (init_steps _ _ _ _ _ _ _ _ Hinit)
      as (_ & _ & _ & _ & _ & Hper & _).
    apply init_label_columns in Hinit.
    destruct Hinit as (dl0 & dl1 & Hsrc & Hw & Hl).
    exists dl0, dl1. split; [exact Hsrc |]. split; [exact Hw |].
    intros n Hn Hgt. rewrite Hper in Hn.
    eapply List.Forall2_impl; [| exact Hl]. cbv beta. intros df1 df' Hdf.
    apply with_columns_Ok in Hdf. destruct Hdf as (_ & Hin & _).
    destruct (Hin (Analysis.label_name n)
                  (Polars.map_expr (Analysis.forward_return n)
                                   (Polars.col base_label)))
      as [c [Hc Hget]].
    { unfold Analysis.label_exprs. apply in_or_app. left.
      apply in_map_iff. exists n. split; [reflexivity |].
      apply filter_In. split; [exact Hn |].
      apply negb_true_iff, Z.eqb_neq. lia. }
    unfold Polars.map_expr, Polars.col in Hc.
    destruct (Polars.get_column base_label df1) as [c0 |]; cbn in Hc;
      [| discriminate].
    injection Hc as <-. exists c0. split; [reflexivity | exact Hget].
  - intros n base t Hn Ht. apply forward_return_row; assumption.
  - intros n base t Hn Ht Hend.
    rewrite forward_return_row by assumption.
    apply Nat.ltb_ge in Hend. rewrite Hend. reflexivity.
  - intros n base. apply length_forward_return.
Qed.

Lemma label_n_is_forward_return_witness :
  Forall2
    (fun df1 df' =>
       exists c,
         Polars.get_column "ret" df1 = Some c
         /\ Polars.get_column (Analysis.label_name 2) df'
            = Some (Analysis.forward_return (num := Fixtures.sample_num) 2 c))
    (dfs Fixtures.one_symbol) (dfs (Analysis.dl Fixtures.started))
  /\ nth_error
       (Analysis.forward_return (num := Fixtures.sample_num) 2
          [Some (1 # 10); Some (2 # 10)]%Q) 1
     = Some (Some 0%Q).
Proof.
  destruct (@label_n_is_forward_return Q Fixtures.sample_num
              Fixtures.sample_engine (inl Fixtures.one_symbol) ["f"] "ret"
              None (Some [2%Z]) None None false)
    as (Hcols & _ & Hend & _).
  split.
  - destruct (Hcols Fixtures.started eq_refl) as (dl0 & dl1 & Hsrc & Hw & Hall).
    injection Hsrc as <-. injection Hw as <-.
    apply Hall; [right; left; reflexivity | lia].
  - apply Hend; cbn; lia.
Defined.

Section HalfWindow.

Context {F : Type} {num : Num F}.

(** Two nulls and one value under a window of three: the code asks for
    one valid observation and has it. *)
Lemma forward_return_after_two_nulls (x : F) :
  Analysis.forward_return 3 [None; None; Some x]
  = [Some (fsub (fexp (fadd fzero (flog (fadd fone x)))) fone);
     Some fzero; Some fzero].
Proof. reflexivity. Qed.

(** The claimed minimum of two valid observations is not met. *)
Lemma claimed_forward_return_after_two_nulls (x : F) :
  claimed_forward_return 3 [None; None; Some x]
  = [Some fzero; Some fzero; Some fzero].
Proof. reflexivity. Qed.

End HalfWindow.

(** C1 as stated fails for an odd horizon: over the reals, with horizon 3
    and the base label column [null, null, 1], the code's [label_3]
    starts with [exp(log 2) - 1 = 1] (one valid observation suffices,
    [3 // 2 = 1]), where the claimed minimum ⌈3/2⌉ = 2 gives [0]. *)
Lemma odd_horizon_needs_fewer_observations :
  Analysis.forward_return (num := Num_R) 3 [None; None; Some 1%R]
  <> claimed_forward_return (num := Num_R) 3 [None; None; Some 1%R].
Proof.
  rewrite forward_return_after_two_nulls,
    claimed_forward_return_after_two_nulls.
  intros E. injection E as E.
  change (exp (0 + ln (1 + 1)) - 1 = 0)%R in E.
  rewrite Rplus_0_l, exp_ln in E by lra. lra.
Qed.

(** ** Bucketing of factor values (utils.py, [get_ts_group]) *)

Section Buckets.

Context {N : Type} {scalar : Scalar N}.

Lemma fold_picks (better : N -> N -> bool) rest : forall x,
  In (fold_left (fun m y => if better y m then y else m) rest x) (x :: rest).
Proof.
  induction rest as [| y rest IH]; intros x; [left; reflexivity |].
  cbn [fold_left].
  destruct (IH (if better y x then y else x)) as [Hhead | Htail].
  - destruct (better y x); [right; left | left]; exact Hhead.
  - right. right. exact Htail.
Qed.

Lemma valid_cell (c : Polars.column N) v :
  In v (Polars.valid c) -> In (Some v) c.
Proof.
  induction c as [| [x |] c IH]; cbn; [tauto | | tauto].
  intros [-> | Hin]; [left; reflexivity | right; apply IH; exact Hin].
Qed.

(** The minimum of a column is one of its cells. *)
Lemma col_min_cell (c : Polars.column N) lo :
  Utils.col_min c = Some lo -> In (Some lo) c.
Proof.
  unfold Utils.col_min, Utils.numbers. intros Hmin. apply valid_cell.
  destruct (List.filter _ (Polars.valid c)) as [| x rest] eqn:Hnum.
  - destruct (Polars.valid c); [discriminate |].
    injection Hmin as ->. left. reflexivity.
  - injection Hmin as <-.
    assert (Hin : In (fold_left (fun m y => if nltb y m then y else m) rest x)
                     (List.filter (fun x => negb (nis_nan x))
                                  (Polars.valid c))).
    { rewrite Hnum. apply fold_picks. }
    apply filter_In in Hin. exact (proj1 Hin).
Qed.

(** A value that no edge lies below is in no bin. *)
Lemma find_bin_none bins : forall labels v,
  forallb (fun edge => negb (nltb edge v)) bins = true ->
  Utils.find_bin bins labels v = None.
Proof.
  induction bins as [| lo bins IH]; intros labels v Hall; [reflexivity |].
  cbn [forallb] in Hall. apply andb_true_iff in Hall.
  destruct Hall as [Hlo Hrest]. apply negb_true_iff in Hlo.
  destruct bins as [| hi rest]; [reflexivity |].
  destruct labels as [| l labels]; [reflexivity |].
  change (Utils.find_bin (lo :: hi :: rest) (l :: labels) v)
    with (if nltb lo v && nleb v hi then Some l
          else Utils.find_bin (hi :: rest) labels v).
  rewrite Hlo. cbn [andb]. apply IH. exact Hrest.
Qed.

Lemma mapM_raises_the_same {A B} (f : A -> result B) e xs x :
  (forall y e', f y = Raise e' -> e' = e) ->
  In x xs -> f x = Raise e -> mapM f xs = Raise e.
Proof.
  intros Honly Hin Hx. induction xs as [| a xs IH]; [contradiction Hin |].
  cbn [mapM]. destruct (f a) as [b | e'] eqn:Ha; cbn [bind].
  - destruct Hin as [-> | Hin]; [congruence |].
    rewrite (IH Hin). reflexivity.
  - rewrite (Honly a e' Ha). reflexivity.
Qed.

Lemma cut_raises bins labels (c : Polars.column N) v :
  List.length bins = S (List.length labels) ->
  In (Some v) c -> Utils.find_bin bins labels v = None ->
  Utils.cut bins labels c = Raise ComputeError.
Proof.
  intros Hlen Hin Hnone. unfold Utils.cut. rewrite Hlen, Nat.eqb_refl.
  apply mapM_raises_the_same with (x := Some v); [| exact Hin |].
  - intros [y |] e'; [| discriminate].
    destruct (Utils.find_bin bins labels y); [discriminate |].
    intros [= <-]. reflexivity.
  - rewrite Hnone. reflexivity.
Qed.

End Buckets.

(** C4: [get_ts_group] with the default [drop_peak=False] subtracts
    [1e-10] from the minimum for the first edge and buckets into
    right-closed bins.  Whenever no edge of the bins lies below the
    minimum, as happens when the subtraction does not move it, the
    minimum is in no bin and the call raises the [ComputeError] of
    [qt.cut], "value not in bins", instead of giving every value a
    bucket.  In binary64 [3e6 - 1e-10] is [3e6]: the column
    [3e6, 4e6, 5e6] is such an input. *)
Theorem get_ts_group_misses_the_minimum :
  forall (N : Type) (scalar : Scalar N)
         (quantile : N -> Polars.column N -> option N)
         (linear_space : N -> N -> Z -> list N)
         (fac : Polars.column N) (group : Z) (peak_bound lo hi : N),
    Utils.col_min fac = Some lo ->
    Utils.col_max fac = Some hi ->
    let bins :=
      linear_space (nsub lo Utils.eps) (nadd hi Utils.eps) (group + 1)%Z in
    List.length bins
    = S (List.length (Utils.group_labels linear_space group)) ->
    forallb (fun edge => negb (nltb edge lo)) bins = true ->
    Utils.get_ts_group quantile linear_space fac group false peak_bound
    = Raise ComputeError.
Proof.
  intros N scalar quantile linear_space fac group pb lo hi Hmin Hmax bins
         Hlen Hedges.
  unfold Utils.get_ts_group. rewrite Hmin, Hmax. fold bins.
  apply cut_raises with (v := lo).
  - exact Hlen.
  - apply col_min_cell. exact Hmin.
  - apply find_bin_none. exact Hedges.
Qed.

(** In binary64 the first edge for [3e6, 4e6, 5e6] is [3e6] itself, and
    the call raises; over exact rationals the same column gets the
    labels [-1], [-0.2] and [1]. *)
Lemma get_ts_group_misses_the_minimum_witness :
  nltb (nsub (of_Q 3000000) Utils.eps) (of_Q 3000000 : PrimFloat.float)
  = false
  /\ Utils.get_ts_group (scalar := Scalar_binary64) (fun _ _ => None)
       Utils.linspace MoreFixtures.large_values 10 false (of_Q (25 # 1000))
     = Raise ComputeError
  /\ Utils.get_ts_group (scalar := Scalar_Q) (fun _ _ => None)
       Utils.linspace MoreFixtures.large_values 10 false (25 # 1000)%Q
     = Ok [Some (-(1))%Q; Some (-(2 # 10))%Q; Some 1%Q].
Proof.
  split; [reflexivity |]. split; [| reflexivity].
  apply (@get_ts_group_misses_the_minimum PrimFloat.float Scalar_binary64
           (fun _ _ => None) Utils.linspace MoreFixtures.large_values 10
           (of_Q (25 # 1000)) (of_Q 3000000) (of_Q 5000000));
    vm_compute; reflexivity.
Defined.

(** ** The overall information coefficient (analysis.py, [ic_overall]) *)

Section WeightedMean.

Local Open Scope Q_scope.

Lemma weighted_fold pairs n0 d0 :
  let acc :=
    fold_left
      (fun nd wx =>
         match wx with
         | (Some w, Some x) => (fst nd + w * x, snd nd + w)
         | _ => nd
         end)
      pairs (n0, d0) in
  fst acc == n0 + qsum (map (fun wx => fst wx * snd wx) (present pairs))
  /\ snd acc == d0 + qsum (map fst (present pairs)).
Proof.
  revert n0 d0. induction pairs as [| [[w |] [x |]] pairs IH]; intros n0 d0;
    cbv zeta; unfold qsum;
    cbn [fold_left present map fold_right fst snd].
  - split; ring.
  - destruct (IH (n0 + w * x) (d0 + w)) as [Hn Hd].
    cbv zeta in Hn, Hd. unfold qsum in Hn, Hd.
    rewrite Hn, Hd. split; ring.
  - apply IH.
  - apply IH.
  - apply IH.
Qed.

(** The accumulating mean of the model is the formula. *)
Lemma weighted_mean_formula pairs :
  same_cell (DataLoader.weighted_mean pairs) (count_weighted_mean pairs).
Proof.
  unfold DataLoader.weighted_mean, count_weighted_mean.
  destruct (weighted_fold pairs 0 0) as [Hn Hd]. cbv zeta in Hn, Hd.
  set (acc := fold_left _ pairs (0, 0)) in *.
  assert (Hd' : snd acc == qsum (map fst (present pairs))) by (rewrite Hd; ring).
  assert (Hn' : fst acc
                == qsum (map (fun wx => fst wx * snd wx) (present pairs)))
    by (rewrite Hn; ring).
  clearbody acc. clear Hn Hd. cbv zeta.
  assert (Hb : Qeq_bool (snd acc) 0
               = Qeq_bool (qsum (map fst (present pairs))) 0)
    by (rewrite Hd'; reflexivity).
  rewrite <- Hb.
  destruct (Qeq_bool (snd acc) 0); cbn [same_cell]; [exact I |].
  rewrite Hn', Hd'. reflexivity.
Qed.

End WeightedMean.

Section SelectFrames.

Context {F : Type}.

Lemma get_column_in {G : Type} name (c : Polars.column G) (df : Polars.frame G) :
  List.NoDup (map fst df) -> In (name, c) df ->
  Polars.get_column name df = Some c.
Proof.
  induction df as [| [k v] df IH]; cbn; intros Hnd Hin; [destruct Hin |].
  inversion Hnd as [| ? ? Hk Hrest]; subst.
  destruct Hin as [[= -> ->] | Hin].
  - rewrite String.eqb_refl. reflexivity.
  - destruct (String.eqb k name) eqn:E; [| apply IH; assumption].
    apply String.eqb_eq in E. subst k. exfalso. apply Hk.
    apply in_map_iff. exists (name, c). split; [reflexivity | exact Hin].
Qed.

(** One selected frame: a row with each expression's cell under its
    name. *)
Lemma select_frame_Ok (exprs : list (string * @DataLoader.agg_expr F Q))
      (df : Polars.frame F) (row : Polars.frame Q) :
  DataLoader.select_frame exprs df = Ok row ->
  List.NoDup (map fst exprs)
  /\ map fst row = map fst exprs
  /\ (forall name e, In (name, e) exprs ->
        exists v, e df = Ok v /\ Polars.get_column name row = Some [v]).
Proof.
  unfold DataLoader.select_frame.
  destruct (distinct (map fst exprs)) eqn:Hd; [| discriminate].
  apply distinct_NoDup in Hd. intros Hm. apply mapM_Forall2 in Hm.
  assert (Hnames : map fst row = map fst exprs).
  { clear Hd. induction Hm as [| [n e] [n' c] ? ? Hx _ IH]; cbn; [reflexivity |].
    cbn in Hx. destruct (e df); cbn in Hx; [| discriminate].
    injection Hx as <- _. f_equal. exact IH. }
  split; [exact Hd |]. split; [exact Hnames |].
  intros name e Hin.
  assert (Hc : exists v, e df = Ok v /\ In (name, [v]) row).
  { clear Hnames Hd. induction Hm as [| [n e0] [n' c] ? ? Hx _ IH].
    - destruct Hin.
    - cbn in Hx. destruct Hin as [[= -> ->] | Hin].
      + destruct (e df) as [v |]; cbn in Hx; [| discriminate].
        injection Hx as <- <-. exists v. split; [reflexivity | left; reflexivity].
      + destruct (IH Hin) as [v [H1 H2]]. exists v.
        split; [exact H1 | right; exact H2]. }
  destruct Hc as [v [Hv Hin']]. exists v. split; [exact Hv |].
  apply get_column_in; [rewrite Hnames; exact Hd | exact Hin'].
Qed.

Lemma select_frame_returns (exprs : list (string * @DataLoader.agg_expr F Q))
      (df : Polars.frame F) :
  List.NoDup (map fst exprs) ->
  Forall (fun ne => exists v, snd ne df = Ok v) exprs ->
  exists row, DataLoader.select_frame exprs df = Ok row.
Proof.
  intros Hd Hall. unfold DataLoader.select_frame, DataLoader.agg_expr in *.
  apply distinct_NoDup in Hd. rewrite Hd.
  apply mapM_ok. eapply List.Forall_impl; [| exact Hall].
  intros ne [v Hv]. rewrite Hv. cbn. eauto.
Qed.

Lemma select_frames exprs (dl : loader F) (rows : loader Q) :
  DataLoader.select exprs dl = Ok rows ->
  Forall2 (fun df row => DataLoader.select_frame exprs df = Ok row)
          (dfs dl) (dfs rows).
Proof.
  unfold DataLoader.select.
  destruct (mapM (DataLoader.select_frame exprs) (dfs dl)) as [frames |] eqn:E;
    cbn; [| discriminate].
  intros [= <-]. cbn. apply mapM_Forall2. exact E.
Qed.

End SelectFrames.

Section Aggregates.

Lemma get_column_named (g : string -> Polars.column Q) names name :
  In name names ->
  Polars.get_column name (map (fun n => (n, g n)) names) = Some (g name).
Proof.
  induction names as [| n names IH]; cbn; [intros [] |].
  intros Hin. destruct (String.eqb n name) eqn:E.
  - apply String.eqb_eq in E. subst n. reflexivity.
  - destruct Hin as [-> | Hin]; [| exact (IH Hin)].
    rewrite String.eqb_refl in E. discriminate.
Qed.

(** A cell of the aggregate is the weighted mean of that cell over the
    symbols' frames. *)
Lemma agg_dfs_weight_cell weight (dl : loader Q) first rest name r :
  dfs dl = first :: rest ->
  In name (map fst first) -> name <> weight ->
  (r < DataLoader.height first)%nat ->
  DataLoader.cell name r (DataLoader.agg_dfs_weight weight dl)
  = DataLoader.weighted_mean
      (map (fun df => (DataLoader.cell weight r df, DataLoader.cell name r df))
           (dfs dl)).
Proof.
  intros Hdfs Hin Hne Hr.
  unfold DataLoader.agg_dfs_weight, DataLoader.cell at 1. rewrite Hdfs.
  rewrite (get_column_named
             (fun name =>
                map (fun r =>
                       DataLoader.weighted_mean
                         (map (fun df => (DataLoader.cell weight r df,
                                          DataLoader.cell name r df))
                              (first :: rest)))
                    (seq 0 (DataLoader.height first)))).
  - rewrite nth_map_seq by exact Hr. reflexivity.
  - apply filter_In. split; [exact Hin |].
    apply negb_true_iff, String.eqb_neq. exact Hne.
Qed.

(** Dropping a column removes it and leaves the cells of the others. *)
Lemma drop_column name (df : Polars.frame Q) :
  Polars.get_column name
    (List.filter (fun nc => negb (String.eqb (fst nc) name)) df) = None
  /\ forall other r,
       other <> name ->
       DataLoader.cell other r
         (List.filter (fun nc => negb (String.eqb (fst nc) name)) df)
       = DataLoader.cell other r df.
Proof.
  split.
  - induction df as [| [k v] df IH]; cbn; [reflexivity |].
    destruct (String.eqb k name) eqn:E; cbn; [exact IH |].
    rewrite E. exact IH.
  - intros other r Hne. unfold DataLoader.cell.
    induction df as [| [k v] df IH]; cbn; [reflexivity |].
    destruct (String.eqb k name) eqn:E; cbn.
    + apply String.eqb_eq in E. subst k.
      apply not_eq_sym, String.eqb_neq in Hne. rewrite Hne. exact IH.
    + destruct (String.eqb k other); [reflexivity | exact IH].
Qed.

End Aggregates.

Section IcOverall.

Context {F : Type} {engine : Engine F}.

Lemma ic_exprs_names (self : Analysis.t (F := F)) fac method :
  map fst (Analysis.ic_exprs self fac method ++ [("count", Analysis.len_expr)])
  = (Analysis.labels self ++ ["count"])%list.
Proof.
  unfold Analysis.ic_exprs. rewrite map_app, map_map. cbn.
  rewrite map_id. reflexivity.
Qed.

Lemma Forall2_map_r {A B} (P : A -> B -> Prop) (f : A -> B) l :
  (forall x, In x l -> P x (f x)) -> Forall2 P l (map f l).
Proof.
  induction l as [| x l IH]; cbn; intros Hall; constructor.
  - apply Hall. left. reflexivity.
  - apply IH. intros y Hy. apply Hall. right. exact Hy.
Qed.

(** The per-symbol row of one factor: what it holds. *)
Lemma ic_row (self : Analysis.t (F := F)) fac method df row :
  DataLoader.select_frame
    (Analysis.ic_exprs self fac method ++ [("count", Analysis.len_expr)]) df
  = Ok row ->
  List.NoDup (Analysis.labels self ++ ["count"])%list
  /\ map fst row = (Analysis.labels self ++ ["count"])%list
  /\ DataLoader.cell "count" 0 row = row_count df
  /\ (forall label, In label (Analysis.labels self) ->
        label <> "count"
        /\ exists v, Polars.get_column label row = Some [v]
                     /\ Utils.stable_corr corr fac label method df = Ok v).
Proof.
  intros Hsel. apply select_frame_Ok in Hsel.
  destruct Hsel as (Hnd & Hnames & Hcells).
  rewrite ic_exprs_names in Hnd, Hnames.
  split; [exact Hnd |]. split; [exact Hnames |]. split.
  - destruct (Hcells "count" Analysis.len_expr) as [v [Hv Hget]].
    { apply in_or_app. right. left. reflexivity. }
    unfold DataLoader.cell. rewrite Hget. cbn.
    unfold Analysis.len_expr in Hv. injection Hv as <-. reflexivity.
  - intros label Hin. split.
    + intros ->. apply NoDup_remove_2 in Hnd. apply Hnd.
      rewrite app_nil_r. exact Hin.
    + destruct (Hcells label (Utils.stable_corr corr fac label method))
        as [v [Hv Hget]].
      { apply in_or_app. left. unfold Analysis.ic_exprs.
        apply in_map_iff. exists label. split; [reflexivity | exact Hin]. }
      exists v. split; [exact Hget | exact Hv].
Qed.

Lemma ic_row_height (self : Analysis.t (F := F)) fac method df row :
  DataLoader.select_frame
    (Analysis.ic_exprs self fac method ++ [("count", Analysis.len_expr)]) df
  = Ok row ->
  DataLoader.height row = 1%nat.
Proof.
  unfold DataLoader.select_frame.
  destruct (distinct _); [| discriminate].
  destruct (Analysis.ic_exprs self fac method ++ [("count", Analysis.len_expr)])%list
    as [| [n e] exprs] eqn:E.
  - destruct (Analysis.ic_exprs self fac method); discriminate E.
  - cbn. destruct (e df); cbn; [| discriminate].
    destruct (mapM (fun ne => v <- snd ne df ;; Ok (fst ne, [v])) exprs);
      cbn; [| discriminate].
    intros [= <-]. reflexivity.
Qed.

End IcOverall.

(** C5: a call of [ic_overall] that returns has stored two lists, one
    entry per factor in the order of the factors.  [symbol_ic] holds the
    per-symbol coefficient frames (for every symbol and label the
    [stable_corr] of the factor and the label over the symbol's frame),
    without the row count.  [_ic_overall], a separate attribute, holds
    for every label the mean of these per-symbol coefficients weighted by
    the row counts of the symbols' frames.  The call returns whenever the
    frames have the factor and label columns and no label is spelled
    [count] or listed twice. *)
Theorem ic_overall_is_count_weighted_mean :
  forall (F : Type) (engine : Engine F) (method : Utils.corr_method)
         (self : Analysis.t (F := F)),
    (forall self',
       Analysis.ic_overall method self = (self', Ok tt) ->
       exists ics : list (loader Q),
         Summary.attrs (Analysis.summary self') !! "symbol_ic"
         = Some (VList (map (fun ic => VLoader (DataLoader.drop "count" ic)) ics))
         /\ Summary.attrs (Analysis.summary self') !! "_ic_overall"
            = Some (VList (map (fun ic =>
                                  VFrame (DataLoader.agg_dfs_weight "count" ic))
                               ics))
         /\ Forall2
              (fun fac ic =>
                 Forall2
                   (fun df per_symbol =>
                      DataLoader.cell "count" 0 per_symbol = row_count df
                      /\ forall label,
                           In label (Analysis.labels self) ->
                           Utils.stable_corr corr fac label method df
                           = Ok (DataLoader.cell label 0 per_symbol))
                   (dfs (Analysis.dl self)) (dfs ic)
                 /\ Forall2
                      (fun per_symbol stored =>
                         Polars.get_column "count" stored = None
                         /\ forall label,
                              In label (Analysis.labels self) ->
                              DataLoader.cell label 0 stored
                              = DataLoader.cell label 0 per_symbol)
                      (dfs ic) (dfs (DataLoader.drop "count" ic))
                 /\ (forall label,
                       In label (Analysis.labels self) ->
                       dfs (Analysis.dl self) <> [] ->
                       same_cell
                         (DataLoader.cell label 0
                            (DataLoader.agg_dfs_weight "count" ic))
                         (count_weighted_mean
                            (map (fun per_symbol =>
                                    (DataLoader.cell "count" 0 per_symbol,
                                     DataLoader.cell label 0 per_symbol))
                                 (dfs ic)))))
              (Analysis.facs self) ics)
    /\ (List.NoDup (Analysis.labels self ++ ["count"])%list ->
        Forall
          (fun df =>
             forall name,
               In name (Analysis.facs self ++ Analysis.labels self)%list ->
               exists c, Polars.get_column name df = Some c)
          (dfs (Analysis.dl self)) ->
        snd (Analysis.ic_overall method self) = Ok tt).
Proof.
  intros F engine method self. split.
  - intros self'. unfold Analysis.ic_overall.
    destruct (mapM _ (Analysis.facs self)) as [ics |] eqn:Hm; [| discriminate].
    intros [= <-]. exists ics. cbn.
    split; [rewrite lookup_insert_ne by discriminate; apply lookup_insert_eq |].
    split; [apply lookup_insert_eq |].
    apply mapM_Forall2 in Hm.
    eapply List.Forall2_impl; [| exact Hm]. cbv beta. intros fac ic Hsel.
    apply select_frames in Hsel.
    assert (Hrows : Forall2
              (fun df row =>
                 List.NoDup (Analysis.labels self ++ ["count"])%list
                 /\ map fst row = (Analysis.labels self ++ ["count"])%list
                 /\ DataLoader.height row = 1%nat
                 /\ DataLoader.cell "count" 0 row = row_count df
                 /\ (forall label, In label (Analysis.labels self) ->
                       label <> "count"
                       /\ Utils.stable_corr corr fac label method df
                          = Ok (DataLoader.cell label 0 row)))
              (dfs (Analysis.dl self)) (dfs ic)).
    { eapply List.Forall2_impl; [| exact Hsel]. cbv beta. intros df row Hrow.
      pose proof (ic_row_height _ _ _ _ Hrow) as Hh.
      apply ic_row in Hrow. destruct Hrow as (Hnd & Hnames & Hcount & Hlab).
      repeat (split; [assumption |]).
      intros label Hin. destruct (Hlab label Hin) as (Hne & v & Hget & Hv).
      split; [exact Hne |]. unfold DataLoader.cell. rewrite Hget. exact Hv. }
    clear Hsel Hm. split; [| split].
    + eapply List.Forall2_impl; [| exact Hrows]. cbv beta.
      intros df row (_ & _ & _ & Hcount & Hlab). split; [exact Hcount |].
      intros label Hin. apply Hlab. exact Hin.
    + unfold DataLoader.drop. cbn [dfs]. apply Forall2_map_r.
      intros row Hin.
      destruct (drop_column "count" row) as [Hgone Hkept].
      split; [exact Hgone |]. intros label Hlabel. apply Hkept.
      assert (Hne : Forall
                (fun _ : Polars.frame Q =>
                   forall lbl, In lbl (Analysis.labels self) -> lbl <> "count")
                (dfs ic)).
      { clear -Hrows.
        induction Hrows as [| df row' ? ? (_ & _ & _ & _ & Hlab) _ IH];
          constructor; [| exact IH].
        intros lbl Hl. exact (proj1 (Hlab lbl Hl)). }
      rewrite List.Forall_forall in Hne. exact (Hne row Hin label Hlabel).
    + intros label Hlabel Hdata.
      inversion Hrows
        as [Hd0 Hi0
           | df row dfs0 rows0 (Hnd & Hnames & Hh & _ & Hlab) Hrest Hd0 Hi0];
        [contradiction Hdata; symmetry; exact Hd0 |].
      destruct (Hlab label Hlabel) as [Hne _].
      rewrite ?Hi0.
      rewrite (@agg_dfs_weight_cell "count" ic row rows0 label O).
      * apply weighted_mean_formula.
      * symmetry. assumption.
      * rewrite Hnames. apply in_or_app. left. exact Hlabel.
      * exact Hne.
      * rewrite Hh. lia.
  - intros Hnd Hcols. unfold Analysis.ic_overall.
    destruct (@mapM_ok _ _
                (fun fac =>
                   DataLoader.select
                     (Analysis.ic_exprs self fac method
                      ++ [("count", Analysis.len_expr)])
                     (Analysis.dl self))
                (Analysis.facs self)) as [ics Hics].
    + apply List.Forall_forall. intros fac Hfac. unfold DataLoader.select.
      destruct (@mapM_ok _ _
                  (DataLoader.select_frame
                     (Analysis.ic_exprs self fac method
                      ++ [("count", Analysis.len_expr)]))
                  (dfs (Analysis.dl self))) as [rows Hr].
      * eapply List.Forall_impl; [| exact Hcols]. intros df Hdf.
        apply select_frame_returns.
        -- rewrite ic_exprs_names. exact Hnd.
        -- apply Forall_app. split; [| repeat constructor; cbn; eauto].
           apply List.Forall_forall. intros [name e] Hin.
           unfold Analysis.ic_exprs in Hin. apply in_map_iff in Hin.
           destruct Hin as [label [[= <- <-] Hlabel]]. cbn.
           unfold Utils.stable_corr, Polars.col.
           destruct (Hdf fac) as [cx ->]; [apply in_or_app; left; exact Hfac |].
           destruct (Hdf label) as [cy ->]; [apply in_or_app; right; exact Hlabel |].
           cbn. eauto.
      * rewrite Hr. cbn. eauto.
    + rewrite Hics. reflexivity.
Qed.

Lemma ic_overall_is_count_weighted_mean_witness :
  snd (Analysis.ic_overall (engine := Fixtures.sample_engine)
         Utils.pearson Fixtures.started) = Ok tt
  /\ exists ics : list (loader Q),
       Summary.attrs
         (Analysis.summary
            (fst (Analysis.ic_overall (engine := Fixtures.sample_engine)
                    Utils.pearson Fixtures.started)))
         !! "_ic_overall"
       = Some (VList (map (fun ic =>
                             VFrame (DataLoader.agg_dfs_weight "count" ic))
                          ics)).
Proof.
  destruct (@ic_overall_is_count_weighted_mean Q Fixtures.sample_engine
              Utils.pearson Fixtures.started) as [Hstored Hreturns].
  assert (Hok : snd (Analysis.ic_overall (engine := Fixtures.sample_engine)
                       Utils.pearson Fixtures.started) = Ok tt).
  { apply Hreturns.
    - apply distinct_NoDup. reflexivity.
    - repeat constructor. intros name Hin. cbn in Hin.
      destruct Hin as [<- | [<- | [<- | []]]]; eexists; reflexivity. }
  split; [exact Hok |].
  destruct (Hstored
              (fst (Analysis.ic_overall (engine := Fixtures.sample_engine)
                      Utils.pearson Fixtures.started)))
    as (ics & _ & Hoverall & _).
  - rewrite <- Hok. apply surjective_pairing.
  - exists ics. exact Hoverall.
Defined.

(** ** The best horizon (analysis.py, [group_analyse]) *)

Section Argmax.

Local Open Scope Q_scope.

Lemma argmax_from_spec rest : forall l x l' x',
  Pandas.argmax_from l x rest = (l', x') ->
  (l' = l /\ x' = x /\ forall k y, In (k, Some y) rest -> y <= x)
  \/ exists pre post,
       rest = (pre ++ (l', Some x') :: post)%list
       /\ x < x'
       /\ (forall k y, In (k, Some y) pre -> y < x')
       /\ (forall k y, In (k, Some y) post -> y <= x').
Proof.
  induction rest as [| [k [y |]] rest IH]; intros l x l' x'; cbn.
  - intros [= <- <-]. left. repeat split. intros k y [].
  - destruct (Qlt_le_dec x y) as [Hlt | Hle]; intros E; apply IH in E.
    + right. destruct E as [(-> & -> & Hall) | (pre & post & -> & Hx & Hpre & Hpost)].
      * exists [], rest. cbn. repeat split; [exact Hlt | intros ? ? [] | exact Hall].
      * exists ((k, Some y) :: pre), post. cbn. repeat split; try assumption.
        -- lra.
        -- intros k0 y0 [[= <- <-] | Hin]; [exact Hx | eapply Hpre; exact Hin].
    + destruct E as [(-> & -> & Hall) | (pre & post & -> & Hx & Hpre & Hpost)].
      * left. repeat split.
        intros k0 y0 [[= <- <-] | Hin]; [exact Hle | eapply Hall; exact Hin].
      * right. exists ((k, Some y) :: pre), post. cbn. repeat split; try assumption.
        intros k0 y0 [[= <- <-] | Hin]; [lra | eapply Hpre; exact Hin].
  - intros E. apply IH in E.
    destruct E as [(-> & -> & Hall) | (pre & post & -> & Hx & Hpre & Hpost)].
    + left. repeat split.
      intros k0 y0 [[=] | Hin]. eapply Hall; exact Hin.
    + right. exists ((k, None) :: pre), post. cbn. repeat split; try assumption.
      intros k0 y0 [[=] | Hin]. eapply Hpre; exact Hin.
Qed.

(** [idxmax] and [max]: the first cell that no other cell exceeds. *)
Lemma argmax_spec s : forall l x,
  Pandas.argmax s = Some (l, x) ->
  exists pre post,
    s = (pre ++ (l, Some x) :: post)%list
    /\ (forall k y, In (k, Some y) pre -> y < x)
    /\ (forall k y, In (k, Some y) post -> y <= x).
Proof.
  induction s as [| [k [y |]] s IH]; intros l x; cbn.
  - discriminate.
  - intros [= E]. apply argmax_from_spec in E.
    destruct E as [(-> & -> & Hall) | (pre & post & -> & Hx & Hpre & Hpost)].
    + exists [], s. cbn. repeat split; [intros ? ? [] | exact Hall].
    + exists ((k, Some y) :: pre), post. cbn. repeat split; try assumption.
      intros k0 y0 [[= <- <-] | Hin]; [exact Hx | eapply Hpre; exact Hin].
  - intros E. apply IH in E. destruct E as (pre & post & -> & Hpre & Hpost).
    exists ((k, None) :: pre), post. cbn. repeat split; try assumption.
    intros k0 y0 [[=] | Hin]. eapply Hpre; exact Hin.
Qed.

(** A series with a number in it has a maximum. *)
Lemma argmax_some s k y :
  In (k, Some y) s -> exists l x, Pandas.argmax s = Some (l, x).
Proof.
  induction s as [| [k0 [y0 |]] s IH]; cbn; [intros [] | |].
  - intros _. destruct (Pandas.argmax_from k0 y0 s) as [l x]. eauto.
  - intros [[=] | Hin]. exact (IH Hin).
Qed.

End Argmax.

Section GroupAnalyse.

Local Open Scope Q_scope.

(** [df[self.labels]]: one column per horizon, in the order of the
    horizons. *)
Lemma columns_of_labels table periods df :
  Pandas.columns (map Analysis.label_name periods) table = Ok df ->
  df = map (fun n => (Analysis.label_name n, horizon_column table n)) periods.
Proof.
  unfold Pandas.columns. revert df.
  induction periods as [| n periods IH]; intros df; cbn.
  - intros [= <-]. reflexivity.
  - unfold horizon_column at 1.
    destruct (Polars.get_column (Analysis.label_name n) table) as [c |];
      cbn; [| discriminate].
    destruct (mapM _ (map Analysis.label_name periods)) as [rest |];
      cbn; [| discriminate].
    intros [= <-]. f_equal. apply IH. reflexivity.
Qed.

Lemma columns_of_labels_returns table periods :
  Forall (fun n => exists c,
            Polars.get_column (Analysis.label_name n) table = Some c) periods ->
  Pandas.columns (map Analysis.label_name periods) table
  = Ok (map (fun n => (Analysis.label_name n, horizon_column table n)) periods).
Proof.
  unfold Pandas.columns.
  induction 1 as [| n periods [c Hc] _ IH]; cbn; [reflexivity |].
  unfold horizon_column at 1. rewrite Hc. cbn. rewrite IH. reflexivity.
Qed.

(** [df.apply(lambda s: s / int(s.name.replace('label_', '')))]: the
    column of horizon [n] is divided by [n]. *)
Lemma per_period_columns table periods :
  mapM (fun nc : string * Polars.column Q =>
          n <- int_of_str (str_remove "label_" (fst nc)) ;;
          Ok (fst nc, map (Pandas.div_int n) (snd nc)))
       (map (fun n => (Analysis.label_name n, horizon_column table n)) periods)
  = Ok (map (fun n => (Analysis.label_name n,
                       map (Pandas.div_int n) (horizon_column table n)))
            periods).
Proof.
  induction periods as [| n periods IH]; cbn [map mapM]; [reflexivity |].
  cbn [fst snd]. rewrite horizon_of_label_name. cbn [bind].
  rewrite IH. reflexivity.
Qed.

Lemma height_per_period table periods :
  DataLoader.height
    (map (fun n => (Analysis.label_name n,
                    map (Pandas.div_int n) (horizon_column table n)))
         periods)
  = group_rows table periods.
Proof. destruct periods; cbn; [reflexivity | apply length_map]. Qed.

Lemma nth_div_int n (c : Polars.column Q) j :
  nth j (map (Pandas.div_int n) c) None = Pandas.div_int n (nth j c None).
Proof. exact (map_nth (Pandas.div_int n) c None j). Qed.

Lemma combine_map {A B C} (f : A -> B) (g : A -> C) l :
  combine (map f l) (map g l) = map (fun x => (f x, g x)) l.
Proof. induction l; cbn; congruence. Qed.

(** Row [j] of the per-period table. *)
Lemma iloc_row_per_period table periods i :
  let rows := group_rows table periods in
  let j := if (i <? 0)%Z then (i + Z.of_nat rows)%Z else i in
  Pandas.iloc_row i
    (map (fun n => (Analysis.label_name n,
                    map (Pandas.div_int n) (horizon_column table n)))
         periods)
  = if ((0 <=? j)%Z && (j <? Z.of_nat rows)%Z)%bool
    then Ok (map (fun n =>
                    (Analysis.label_name n,
                     Pandas.div_int n
                       (nth (Z.to_nat j) (horizon_column table n) None)))
                 periods)
    else Raise IndexError.
Proof.
  cbv zeta. unfold Pandas.iloc_row. rewrite height_per_period.
  destruct (_ && _)%bool; [| reflexivity].
  rewrite map_map. cbn [fst snd]. f_equal.
  apply map_ext. intros n. rewrite nth_div_int. reflexivity.
Qed.

(** The code's cell is the net spread of the specification. *)
Lemma spread_cell_net_spread table rows c_rate n :
  n <> 0%Z ->
  same_cell (spread_cell table rows c_rate n)
            (net_spread c_rate n
               (nth (rows - 1) (horizon_column table n) None)
               (nth 0 (horizon_column table n) None)).
Proof.
  intros Hn. unfold spread_cell, net_spread, Pandas.div_int, Pandas.sub,
    Pandas.mul_int.
  apply Z.eqb_neq in Hn. rewrite Hn.
  destruct (nth (rows - 1) (horizon_column table n) None) as [t |];
    destruct (nth 0 (horizon_column table n) None) as [b |];
    cbn; try exact I.
  change (inject_Z 4) with 4. ring.
Qed.

End GroupAnalyse.

Section GroupAnalyseBody.

Context {F : Type} {engine : Engine F} {runtime : Runtime}.

Local Open Scope Q_scope.

(** Top row minus bottom row minus four times the cost, horizon by
    horizon; an empty table has no rows to take. *)
Lemma net_of_table {A : Type} table periods c_rate
      (k : Pandas.series -> result A) :
  let df := map (fun n => (Analysis.label_name n,
                           map (Pandas.div_int n) (horizon_column table n)))
                periods in
  let rows := group_rows table periods in
  (max_group_ret <- Pandas.iloc_row (-1) df ;;
   min_group_ret <- Pandas.iloc_row 0 df ;;
   net <- Pandas.sub_array (Pandas.sub_series max_group_ret min_group_ret)
            (map (fun c => Pandas.mul_int c 4)
                 (map (fun n => Pandas.div_int n (Some c_rate)) periods)) ;;
   k net)
  = if (0 <? rows)%nat
    then k (map (fun n => (Analysis.label_name n,
                           spread_cell table rows c_rate n))
                periods)
    else Raise IndexError.
Proof.
  cbv zeta. rewrite !iloc_row_per_period. cbv zeta.
  change (-1 <? 0)%Z with true. change (0 <? 0)%Z with false. cbv iota.
  destruct (0 <? group_rows table periods)%nat eqn:Hrows.
  - apply Nat.ltb_lt in Hrows.
    replace ((0 <=? -1 + Z.of_nat (group_rows table periods))%Z
             && (-1 + Z.of_nat (group_rows table periods)
                 <? Z.of_nat (group_rows table periods))%Z)%bool
      with true
      by (symmetry; apply andb_true_intro; split;
          [apply Z.leb_le | apply Z.ltb_lt]; lia).
    replace ((0 <=? 0)%Z && (0 <? Z.of_nat (group_rows table periods))%Z)%bool
      with true
      by (symmetry; apply andb_true_intro; split;
          [apply Z.leb_le | apply Z.ltb_lt]; lia).
    cbn [bind]. unfold Pandas.sub_series, Pandas.sub_array.
    rewrite combine_map, !map_map, !length_map, Nat.eqb_refl.
    rewrite combine_map, map_map. cbn [fst snd bind]. f_equal.
    apply map_ext. intros n. unfold spread_cell.
    replace (Z.to_nat (-1 + Z.of_nat (group_rows table periods)))
      with (group_rows table periods - 1)%nat by lia.
    reflexivity.
  - apply Nat.ltb_ge in Hrows.
    replace ((0 <=? -1 + Z.of_nat (group_rows table periods))%Z
             && (-1 + Z.of_nat (group_rows table periods)
                 <? Z.of_nat (group_rows table periods))%Z)%bool
      with false
      by (symmetry; apply andb_false_intro1; apply Z.leb_gt; lia).
    reflexivity.
Qed.

Lemma half_life_fields (self self' : Analysis.t (F := F)) r :
  Analysis.half_life self = (self', r) ->
  Analysis.labels self' = Analysis.labels self
  /\ Analysis.label_periods self' = Analysis.label_periods self
  /\ Analysis.facs self' = Analysis.facs self.
Proof.
  unfold Analysis.half_life.
  destruct (Summary.getattr (Analysis.summary self) "half_life") as [v |];
    [| intros [= <- _]; repeat split].
  destruct (is_none v); [| intros [= <- _]; repeat split].
  destruct (half_life_table (Analysis.dl self) (Analysis.facs self));
    intros [= <- _]; repeat split.
Qed.

(** What a returning [group_analyse_body] has computed. *)
Lemma group_analyse_body_Ok fac c_rate (self : Analysis.t (F := F))
      best_period best_ret net :
  Analysis.labels self
  = map Analysis.label_name (Analysis.label_periods self) ->
  Analysis.group_analyse_body fac c_rate self
  = Ok (best_period, best_ret, net) ->
  exists table,
    Summary.fac_attr (Analysis.summary self) "group_rets" fac
    = Ok (VPandas table)
    /\ (0 < group_rows table (Analysis.label_periods self))%nat
    /\ net = map (fun n =>
                    (Analysis.label_name n,
                     spread_cell table
                       (group_rows table (Analysis.label_periods self))
                       c_rate n))
                 (Analysis.label_periods self)
    /\ exists l s,
         Pandas.argmax net = Some (l, s)
         /\ best_period = str_remove "label_" l
         /\ best_ret = Some s.
Proof.
  intros Hlabels. unfold Analysis.group_analyse_body.
  destruct (match fac with
            | VInt i => name <- list_index (Analysis.facs self) i ;; Ok tt
            | _ => Ok tt
            end) as [u |]; cbn [bind]; [| discriminate].
  destruct (Summary.fac_attr (Analysis.summary self) "group_rets" fac)
    as [[| | | | | | table | | | |] |]; cbn [bind]; try discriminate.
  rewrite Hlabels.
  destruct (Pandas.columns
              (map Analysis.label_name (Analysis.label_periods self)) table)
    as [df |] eqn:Hdf; cbn [bind]; [| discriminate].
  apply columns_of_labels in Hdf. subst df.
  rewrite per_period_columns. cbn [bind]. cbv zeta.
  rewrite net_of_table.
  destruct (0 <? group_rows table (Analysis.label_periods self))%nat eqn:Hrows;
    cbn [bind]; [| discriminate].
  apply Nat.ltb_lt in Hrows.
  unfold Pandas.idxmax, Pandas.max.
  destruct (Pandas.argmax _) as [[l s] |] eqn:Hargmax; cbn [bind];
    [| discriminate].
  destruct (hl <- Summary.fac_attr (Analysis.summary self) "half_life" fac ;;
            subscript hl (VInt 0)); cbn [bind]; [| discriminate].
  intros [= <- <- <-].
  exists table. split; [reflexivity |]. split; [exact Hrows |].
  split; [reflexivity |]. exists l, s.
  split; [exact Hargmax |]. split; reflexivity.
Qed.

End GroupAnalyseBody.

Section GroupAnalyseReturns.

Context {F : Type} {engine : Engine F} {runtime : Runtime}.

(** The analysis returns when its reads succeed, the table has a row
    and some horizon has a number for its spread. *)
Lemma group_analyse_body_returns fac c_rate (self : Analysis.t (F := F))
      table printed :
  Analysis.labels self
  = map Analysis.label_name (Analysis.label_periods self) ->
  (forall i, fac = VInt i ->
             exists name, list_index (Analysis.facs self) i = Ok name) ->
  Summary.fac_attr (Analysis.summary self) "group_rets" fac
  = Ok (VPandas table) ->
  Forall (fun n => exists c,
            Polars.get_column (Analysis.label_name n) table = Some c)
         (Analysis.label_periods self) ->
  (0 < group_rows table (Analysis.label_periods self))%nat ->
  (exists n x,
     In n (Analysis.label_periods self)
     /\ spread_cell table (group_rows table (Analysis.label_periods self))
                    c_rate n = Some x) ->
  (hl <- Summary.fac_attr (Analysis.summary self) "half_life" fac ;;
   subscript hl (VInt 0)) = Ok printed ->
  exists result, Analysis.group_analyse_body fac c_rate self = Ok result.
Proof.
  intros Hlabels Hidx Htable Hcols Hrows (n & x & Hn & Hx) Hprint.
  unfold Analysis.group_analyse_body.
  assert (Hcheck : match fac with
                   | VInt i => name <- list_index (Analysis.facs self) i ;; Ok tt
                   | _ => Ok tt
                   end = Ok tt).
  { destruct fac; try reflexivity.
    destruct (Hidx _ eq_refl) as [name ->]. reflexivity. }
  rewrite Hcheck, Htable. cbn [bind]. rewrite Hlabels.
  rewrite (columns_of_labels_returns _ Hcols). cbn [bind].
  rewrite per_period_columns. cbn [bind]. cbv zeta.
  rewrite net_of_table.
  apply Nat.ltb_lt in Hrows. rewrite Hrows.
  destruct (@argmax_some
              (map (fun n => (Analysis.label_name n,
                              spread_cell table
                                (group_rows table (Analysis.label_periods self))
                                c_rate n))
                   (Analysis.label_periods self))
              (Analysis.label_name n) x) as (l & s & Hargmax).
  { apply in_map_iff. exists n. rewrite Hx. split; [reflexivity | exact Hn]. }
  unfold Pandas.idxmax, Pandas.max. rewrite Hargmax. cbn [bind].
  rewrite Hprint. cbn [bind]. eauto.
Qed.

End GroupAnalyseReturns.

(** C6: a call of [group_analyse] that returns has read the factor's
    table of grouped returns and computed, for every horizon [n] in
    order, the cell (last row / n − first row / n) − (c_rate / n) · 4,
    which for [n <> 0] is the net spread (top-group return −
    bottom-group return) − 4 × per-period cost over per-period rates; the
    horizon it returns holds the returned maximum, every horizon before
    it has a strictly smaller spread (or none), every horizon after it a
    spread no greater (or none): the first maximal horizon wins a tie.
    And the call returns when its reads succeed, the table has a row and
    some horizon has a number for its spread. *)
Theorem group_analyse_best_horizon :
  forall (F : Type) (engine : Engine F) (runtime : Runtime)
         (fac : value) (c_rate : Q) (self : Analysis.t (F := F)),
    Analysis.labels self
    = map Analysis.label_name (Analysis.label_periods self) ->
    (forall self' best_period best_ret net,
       Analysis.group_analyse fac c_rate self
       = (self', Ok (best_period, best_ret, net)) ->
       exists table,
         let periods := Analysis.label_periods self in
         let rows := group_rows table periods in
         Summary.fac_attr (Analysis.summary self') "group_rets" fac
         = Ok (VPandas table)
         /\ (0 < rows)%nat
         /\ net = map (fun n => (Analysis.label_name n,
                                 spread_cell table rows c_rate n))
                      periods
         /\ (forall n, n <> 0%Z ->
               same_cell (spread_cell table rows c_rate n)
                         (net_spread c_rate n
                            (nth (rows - 1) (horizon_column table n) None)
                            (nth 0 (horizon_column table n) None)))
         /\ exists earlier n later s,
              periods = (earlier ++ n :: later)%list
              /\ best_period = str_of_int n
              /\ spread_cell table rows c_rate n = Some s
              /\ best_ret = Some s
              /\ (forall m x, In m earlier ->
                              spread_cell table rows c_rate m = Some x ->
                              (x < s)%Q)
              /\ (forall m x, In m later ->
                              spread_cell table rows c_rate m = Some x ->
                              (x <= s)%Q))
    /\ (forall self' table printed,
          Analysis.half_life self = (self', Ok tt) ->
          (forall i, fac = VInt i ->
                     exists name, list_index (Analysis.facs self) i = Ok name) ->
          Summary.fac_attr (Analysis.summary self') "group_rets" fac
          = Ok (VPandas table) ->
          Forall (fun n => exists c,
                    Polars.get_column (Analysis.label_name n) table = Some c)
                 (Analysis.label_periods self) ->
          (0 < group_rows table (Analysis.label_periods self))%nat ->
          (exists n x,
             In n (Analysis.label_periods self)
             /\ spread_cell table
                  (group_rows table (Analysis.label_periods self))
                  c_rate n = Some x) ->
          (hl <- Summary.fac_attr (Analysis.summary self') "half_life" fac ;;
           subscript hl (VInt 0)) = Ok printed ->
          exists result,
            Analysis.group_analyse fac c_rate self = (self', Ok result)).
Proof.
  intros F engine runtime fac c_rate self Hlabels. split.
  - intros self' best_period best_ret net. unfold Analysis.group_analyse.
    destruct (Analysis.half_life self) as [self1 [u | e]] eqn:Hh;
      [| discriminate].
    intros [= <- Hbody].
    destruct (half_life_fields _ Hh) as (Hl & Hp & _).
    apply group_analyse_body_Ok in Hbody; [| rewrite Hl, Hp; exact Hlabels].
    destruct Hbody as (table & Htable & Hrows & Hnet & l & s & Hmax & -> & ->).
    rewrite Hp in Hrows, Hnet.
    exists table. cbv zeta.
    split; [exact Htable |]. split; [exact Hrows |]. split; [exact Hnet |].
    split; [intros n Hn; apply spread_cell_net_spread; exact Hn |].
    apply argmax_spec in Hmax.
    destruct Hmax as (pre & post & Hsplit & Hpre & Hpost).
    rewrite Hnet in Hsplit. apply map_eq_app in Hsplit.
    destruct Hsplit as (earlier & rest & Hperiods & Hearlier & Hrest).
    apply map_eq_cons in Hrest.
    destruct Hrest as (n & later & -> & Hn & Hlater).
    injection Hn as <- Hs.
    exists earlier, n, later, s.
    split; [exact Hperiods |].
    split; [apply str_remove_label_name |].
    split; [exact Hs |]. split; [reflexivity |]. split.
    + intros m x Hm Hx. apply (Hpre (Analysis.label_name m)).
      rewrite <- Hearlier. apply in_map_iff. exists m.
      rewrite Hx. split; [reflexivity | exact Hm].
    + intros m x Hm Hx. apply (Hpost (Analysis.label_name m)).
      rewrite <- Hlater. apply in_map_iff. exists m.
      rewrite Hx. split; [reflexivity | exact Hm].
  - intros self' table printed Hh Hidx Htable Hcols Hrows Hsome Hprint.
    destruct (half_life_fields _ Hh) as (Hl & Hp & Hf).
    unfold Analysis.group_analyse. rewrite Hh.
    assert (Hres : exists result,
               Analysis.group_analyse_body fac c_rate self' = Ok result).
    { eapply group_analyse_body_returns with (table := table);
        rewrite ?Hl, ?Hp, ?Hf; eassumption. }
    destruct Hres as [result Hresult]. rewrite Hresult. eauto.
Qed.

(** Horizons 1 and 2 tie at [0.9988]; horizon 1 comes first and is
    returned. *)
Lemma group_analyse_best_horizon_witness :
  exists self' best_ret net,
    Analysis.group_analyse (engine := Fixtures.sample_engine)
      (runtime := Fixtures.sample_runtime) (VStr "f") (3 # 10000)
      Fixtures.tied
    = (self', Ok ("1", best_ret, net))
    /\ nth_error net 1 = Some ("label_2", Some (799040000 # 800000000)%Q)
    /\ exists earlier n later,
         Analysis.label_periods Fixtures.tied = (earlier ++ n :: later)%list
         /\ "1" = str_of_int n.
Proof.
  eexists. eexists. eexists.
  split; [vm_compute; reflexivity |]. split; [reflexivity |].
  destruct (@group_analyse_best_horizon Q Fixtures.sample_engine
              Fixtures.sample_runtime (VStr "f") (3 # 10000)%Q
              Fixtures.tied eq_refl) as [Hbest _].
  edestruct Hbest
    as (table & _ & _ & _ & _ & earlier & n & later & s & Hp & Hn & _).
  { vm_compute. reflexivity. }
  exists earlier, n, later. split; [exact Hp | exact Hn].
Defined.

(* ===================================================================== *)
(** * Further properties of the result store (summary.py)                 *)
(* ===================================================================== *)

Section StoreAccess.

Context {runtime : Runtime}.

Lemma source_resolves k (self : Summary.t) src :
  str_in src derived_metrics = false ->
  Summary.lookup_attr self src = None ->
  exists v, Summary.getattr_fuel (S k) self src = Ok v
            /\ forall items, v <> VList items.
Proof.
  intros Hd Hl. rewrite getattr_fuel_S, Hl, getattr_body_unknown by exact Hd.
  destruct (str_in src (Summary.facs self));
    eexists; (split; [reflexivity | intros items; discriminate]).
Qed.

Lemma concat_of_not_list (self : Summary.t) v stat :
  (forall items, v <> VList items) ->
  Summary.concat_of self v stat = Raise (TypeError "object is not iterable").
Proof.
  intros Hv. destruct v; try reflexivity. exfalso. eapply Hv. reflexivity.
Qed.

Lemma concat_without_source k (self : Summary.t) src stat :
  str_in src derived_metrics = false ->
  Summary.lookup_attr self src = None ->
  (values <- Summary.getattr_fuel (S k) self src ;;
   Summary.concat_of self values stat)
  = Raise (TypeError "object is not iterable").
Proof.
  intros Hd Hl. destruct (@source_resolves k self src Hd Hl) as (v & -> & Hv).
  cbn [bind]. apply concat_of_not_list, Hv.
Qed.

Lemma list_index_nth {A} (xs : list A) (i : Z) :
  let n := Z.of_nat (List.length xs) in
  (- n <= i < n)%Z ->
  exists x, nth_error xs (Z.to_nat (i mod n)) = Some x
            /\ list_index xs i = Ok x.
Proof.
  intros n Hi. unfold list_index. fold n.
  assert (Hj : (if (i <? 0)%Z then (i + n)%Z else i) = (i mod n)%Z).
  { destruct (Z.ltb_spec i 0).
    - apply Z.mod_unique with (q := (-1)%Z); lia.
    - symmetry. apply Z.mod_small. lia. }
  rewrite Hj.
  assert (Hr : (0 <= i mod n < n)%Z) by (apply Z.mod_pos_bound; lia).
  destruct (Z.leb_spec 0 (i mod n)); [| lia].
  destruct (Z.ltb_spec (i mod n) n); [| lia].
  cbn [andb].
  destruct (nth_error xs (Z.to_nat (i mod n))) as [x |] eqn:Hx.
  - exists x. split; reflexivity.
  - apply nth_error_None in Hx. lia.
Qed.

Lemma list_index_out {A} (xs : list A) (i : Z) :
  let n := Z.of_nat (List.length xs) in
  (i < - n \/ n <= i)%Z -> list_index xs i = Raise IndexError.
Proof.
  intros n Hi. unfold list_index. fold n.
  destruct (Z.ltb_spec i 0).
  - destruct (Z.leb_spec 0 (i + n)); [| reflexivity].
    destruct (Z.ltb_spec (i + n) n); [lia | reflexivity].
  - destruct (Z.leb_spec 0 i); [| reflexivity].
    destruct (Z.ltb_spec i n); [lia | reflexivity].
Qed.

End StoreAccess.

(** X1: [summary.py], [Summary.__getattr__] with [apply] and [concat]: a
    derived metric ([ic], [ic_std], [ir], [ic_skew], [ic_kurt],
    [ic_overall]) read before the result it is computed from has been
    stored does not resolve to [None]: the missing result itself reads
    as [None] (or as an accessor), iterating it fails, and the access
    raises a [TypeError]. *)
Theorem derived_metric_needs_its_source :
  forall (R : Runtime) (self : Summary.t) (name : string),
    str_in name derived_metrics = true ->
    Summary.lookup_attr self name = None ->
    (name = "ir" -> Summary.lookup_attr self "ic" = None) ->
    Summary.lookup_attr self (metric_source name) = None ->
    exists msg, Summary.getattr self name = Raise (TypeError msg).
Proof.
  intros R self name Hin Hname Hic Hsrc.
  exists "object is not iterable".
  apply str_in_In in Hin. unfold Summary.getattr.
  rewrite getattr_fuel_S, Hname.
  unfold derived_metrics in Hin. cbn [In] in Hin.
  destruct Hin as [<- | [<- | [<- | [<- | [<- | [<- | []]]]]]];
    unfold Summary.__getattr__; cbn [String.eqb Ascii.eqb Bool.eqb];
    try (apply concat_without_source; [reflexivity | exact Hsrc]).
  rewrite getattr_fuel_S, (Hic eq_refl).
  unfold Summary.__getattr__; cbn [String.eqb Ascii.eqb Bool.eqb].
  rewrite concat_without_source; [reflexivity | reflexivity | exact Hsrc].
Qed.

Lemma derived_metric_needs_its_source_witness :
  exists msg,
    Summary.getattr (runtime := Fixtures.sample_runtime)
      Fixtures.sample_store "ir" = Raise (TypeError msg).
Proof.
  apply (@derived_metric_needs_its_source Fixtures.sample_runtime
           Fixtures.sample_store "ir");
    [reflexivity | reflexivity | intros _; reflexivity | reflexivity].
Defined.

Section Keys.

Context {runtime : Runtime}.

Lemma mapM_ext_in {A B} (f g : A -> result B) xs :
  (forall x, In x xs -> f x = g x) -> mapM f xs = mapM g xs.
Proof.
  induction xs as [| x xs IH]; intros Hfg; [reflexivity |].
  cbn [mapM]. rewrite (Hfg x (or_introl eq_refl)).
  rewrite IH; [reflexivity |]. intros y Hy. apply Hfg. right. exact Hy.
Qed.

Lemma mapM_map {A B C} (f : B -> result C) (g : A -> B) xs :
  mapM f (map g xs) = mapM (fun x => f (g x)) xs.
Proof.
  induction xs as [| x xs IH]; [reflexivity |].
  cbn [mapM map]. rewrite IH. reflexivity.
Qed.

Lemma Forall2_mapM {A B} (f : A -> result B) xs ys :
  Forall2 (fun x y => f x = Ok y) xs ys -> mapM f xs = Ok ys.
Proof.
  induction 1 as [| x y xs ys Hxy _ IH]; [reflexivity |].
  cbn [mapM]. rewrite Hxy, IH. reflexivity.
Qed.

(** The comprehension raises what its first failing element raises. *)
Lemma mapM_Raise {A B} (f : A -> result B) xs e :
  mapM f xs = Raise e
  <-> exists before x after,
        xs = (before ++ x :: after)%list
        /\ Forall (fun x => exists y, f x = Ok y) before
        /\ f x = Raise e.
Proof.
  split.
  - revert e. induction xs as [| x xs IH]; intros e; [discriminate |].
    cbn [mapM]. destruct (f x) as [y | e'] eqn:Hx; cbn [bind].
    + destruct (mapM f xs) as [ys | e''] eqn:Hxs; cbn [bind];
        [discriminate |].
      intros [= ->]. destruct (IH e eq_refl) as (b & z & a & -> & Hb & Hz).
      exists (x :: b), z, a. split; [reflexivity |]. split; [| exact Hz].
      constructor; [exists y; exact Hx | exact Hb].
    + intros [= ->]. exists [], x, xs.
      split; [reflexivity |]. split; [constructor | exact Hx].
  - intros (b & x & a & -> & Hb & Hx).
    induction Hb as [| z b [y Hz] _ IH]; cbn [mapM app].
    + rewrite Hx. reflexivity.
    + rewrite Hz. cbn [bind]. rewrite IH. reflexivity.
Qed.

Lemma fac_attr_single_list (self : Summary.t) attr items df key :
  Summary.getattr self attr = Ok (VList items) ->
  (match key with
   | VStr s => Ok (Summary.find_fac s (Summary.facs self) items)
   | VInt i => list_index items i
   | _ => Raise Summary.bad_key
   end) = Ok df ->
  Summary._fac_attr_single self attr key = entry_or_missing key df.
Proof.
  intros Hget Hdf. unfold Summary._fac_attr_single. rewrite Hget.
  cbn [bind]. destruct key; try discriminate; rewrite Hdf; reflexivity.
Qed.

End Keys.

(** X2: [summary.py], [_fac_attr_single]: on a list-valued result a factor
    is found by its name at the position the name first has among the
    factors, and the same entry is reached by that position and by the
    position counted from the end; an entry that is [None] is reported
    as missing under the key that was used. *)
Theorem fac_attr_by_name_is_by_position :
  forall (R : Runtime) (self : Summary.t) (attr s : string)
         (items : list value) (i : nat),
    Summary.getattr self attr = Ok (VList items) ->
    index_of s (Summary.facs self) = Some i ->
    (i < List.length items)%nat ->
    let back := (Z.of_nat i - Z.of_nat (List.length items))%Z in
    exists df,
      nth_error items i = Some df
      /\ Summary._fac_attr_single self attr (VStr s)
         = entry_or_missing (VStr s) df
      /\ Summary._fac_attr_single self attr (VInt (Z.of_nat i))
         = entry_or_missing (VInt (Z.of_nat i)) df
      /\ Summary._fac_attr_single self attr (VInt back)
         = entry_or_missing (VInt back) df.
Proof.
  intros R self attr s items i Hget Hidx Hi back.
  exists (Summary.find_fac s (Summary.facs self) items).
  pose proof (find_fac_at _ _ _ Hidx Hi) as Hnth.
  split; [exact Hnth |]. split; [| split].
  - apply fac_attr_single_list with (items := items); [exact Hget | reflexivity].
  - apply fac_attr_single_list with (items := items); [exact Hget |].
    destruct (@list_index_nth _ items (Z.of_nat i)) as (x & Hx & ->); [lia |].
    rewrite Z.mod_small, Nat2Z.id in Hx by lia. congruence.
  - apply fac_attr_single_list with (items := items); [exact Hget |].
    destruct (@list_index_nth _ items back) as (x & Hx & ->);
      [unfold back; lia |].
    replace (back mod Z.of_nat (List.length items))%Z with (Z.of_nat i) in Hx.
    + rewrite Nat2Z.id in Hx. congruence.
    + apply Z.mod_unique with (q := (-1)%Z); unfold back; lia.
Qed.

Lemma fac_attr_by_name_is_by_position_witness :
  exists df,
    nth_error [VPandas Fixtures.two_rows; VPandas []] 1 = Some df
    /\ Summary._fac_attr_single (runtime := Fixtures.sample_runtime)
         Fixtures.sample_store "group_rets" (VStr "g")
       = entry_or_missing (VStr "g") df
    /\ Summary._fac_attr_single (runtime := Fixtures.sample_runtime)
         Fixtures.sample_store "group_rets" (VInt 1)
       = entry_or_missing (VInt 1) df
    /\ Summary._fac_attr_single (runtime := Fixtures.sample_runtime)
         Fixtures.sample_store "group_rets" (VInt (-1))
       = entry_or_missing (VInt (-1)) df.
Proof.
  apply (@fac_attr_by_name_is_by_position Fixtures.sample_runtime
           Fixtures.sample_store "group_rets" "g"
           [VPandas Fixtures.two_rows; VPandas []] 1%nat);
    [reflexivity | reflexivity | cbn; lia].
Defined.

(** X3: [summary.py], [_fac_attr_single]: an integer key indexes the stored
    list itself, whatever the factors are: from [-len] to [len - 1] it
    reaches the entry (negative keys count from the end), and outside
    that range the access raises [IndexError]. *)
Theorem fac_attr_int_key_bounds :
  forall (R : Runtime) (self : Summary.t) (attr : string)
         (items : list value) (i : Z),
    Summary.getattr self attr = Ok (VList items) ->
    let n := Z.of_nat (List.length items) in
    ((- n <= i < n)%Z ->
     exists df,
       nth_error items (Z.to_nat (i mod n)) = Some df
       /\ Summary._fac_attr_single self attr (VInt i)
          = entry_or_missing (VInt i) df)
    /\ ((i < - n \/ n <= i)%Z ->
        Summary._fac_attr_single self attr (VInt i) = Raise IndexError).
Proof.
  intros R self attr items i Hget n. split.
  - intros Hi. destruct (@list_index_nth _ items i Hi) as (x & Hx & Hidx).
    exists x. split; [exact Hx |].
    apply fac_attr_single_list with (items := items); assumption.
  - intros Hi. unfold Summary._fac_attr_single. rewrite Hget. cbn [bind].
    rewrite list_index_out by exact Hi. reflexivity.
Qed.

Lemma fac_attr_int_key_bounds_witness :
  Summary._fac_attr_single (runtime := Fixtures.sample_runtime)
    Fixtures.sample_store "group_rets" (VInt 2) = Raise IndexError.
Proof.
  apply (@fac_attr_int_key_bounds Fixtures.sample_runtime
           Fixtures.sample_store "group_rets"
           [VPandas Fixtures.two_rows; VPandas []] 2 eq_refl).
  right. cbn. lia.
Defined.

(** X4: [summary.py], [fac_attr]: asked for a list of keys it returns the
    results of the single lookups in the order of the keys, and raises
    what the first failing key raises; for an empty list it returns an
    empty list without reading the result at all. *)
Theorem fac_attr_list_of_keys :
  forall (R : Runtime) (self : Summary.t) (attr : string)
         (keys : list value),
    (forall v,
       Summary.fac_attr self attr (VList keys) = Ok v
       <-> exists dfs,
             v = VList dfs
             /\ Forall2 (fun key df =>
                           Summary._fac_attr_single self attr key = Ok df)
                        keys dfs)
    /\ (forall e,
          Summary.fac_attr self attr (VList keys) = Raise e
          <-> exists before key after,
                keys = (before ++ key :: after)%list
                /\ Forall (fun k => exists df,
                             Summary._fac_attr_single self attr k = Ok df)
                          before
                /\ Summary._fac_attr_single self attr key = Raise e)
    /\ Summary.fac_attr self attr (VList []) = Ok (VList []).
Proof.
  intros R self attr keys. unfold Summary.fac_attr.
  split; [| split; [| reflexivity]].
  - intros v. split.
    + destruct (mapM (Summary._fac_attr_single self attr) keys)
        as [dfs | e] eqn:Hm; cbn [bind]; [| discriminate].
      intros [= <-]. exists dfs. split; [reflexivity |].
      apply mapM_Forall2. exact Hm.
    + intros (dfs & -> & Hall). rewrite (Forall2_mapM _ Hall). reflexivity.
  - intros e. rewrite <- mapM_Raise.
    destruct (mapM (Summary._fac_attr_single self attr) keys)
      as [dfs | e'] eqn:Hm; cbn [bind]; split; congruence.
Qed.

(** X5: [summary.py], [Summary.__getitem__], [Summary.__getattr__] and
    [FacSummary.__getattr__]: an attribute that is not the accessor's own
    reads through [summary[fac]] as [summary.fac_attr(attr, fac)]; the
    accessors of a list of keys read, one by one, what [fac_attr] returns
    for the list; and [summary.<name>] for a factor name that nothing
    shadows is the accessor [summary[name]]. *)
Theorem item_access_is_fac_attr :
  forall (R : Runtime) (self : Summary.t) (attr : string),
    (forall fac, FacSummary.lookup_attr fac attr = None) ->
    (forall fac,
       (forall keys, fac <> VList keys) ->
       FacSummary.getattr_value self (FacSummary.__getitem__ self fac) attr
       = Summary.fac_attr self attr fac)
    /\ (forall keys,
          Forall (fun key => forall ks, key <> VList ks) keys ->
          exists accessors,
            FacSummary.__getitem__ self (VList keys) = VList accessors
            /\ (items <- mapM (fun accessor =>
                                 FacSummary.getattr_value self accessor attr)
                              accessors ;;
                Ok (VList items))
               = Summary.fac_attr self attr (VList keys))
    /\ (forall name,
          Summary.lookup_attr self name = None ->
          str_in name derived_metrics = false ->
          str_in name (Summary.facs self) = true ->
          Summary.getattr self name
          = Ok (FacSummary.__getitem__ self (VStr name))).
Proof.
  intros R self attr Hown.
  assert (Hsingle : forall fac,
             (forall keys, fac <> VList keys) ->
             FacSummary.getattr_value self (VFacSummary fac) attr
             = Summary._fac_attr_single self attr fac).
  { intros fac Hfac. cbn [FacSummary.getattr_value].
    unfold FacSummary.getattr. rewrite Hown.
    unfold Summary.FacSummary_getattr, Summary.fac_attr.
    destruct fac; try reflexivity. exfalso. eapply Hfac. reflexivity. }
  split; [| split].
  - intros fac Hfac.
    replace (FacSummary.__getitem__ self fac) with (VFacSummary fac)
      by (destruct fac; try reflexivity; exfalso; eapply Hfac; reflexivity).
    rewrite Hsingle by exact Hfac.
    unfold Summary.fac_attr.
    destruct fac; try reflexivity. exfalso. eapply Hfac. reflexivity.
  - intros keys Hkeys. exists (map VFacSummary keys).
    split; [reflexivity |].
    rewrite mapM_map. unfold Summary.fac_attr.
    rewrite (@mapM_ext_in _ _ _ (Summary._fac_attr_single self attr));
      [reflexivity |].
    intros key Hkey. apply Hsingle.
    rewrite List.Forall_forall in Hkeys. apply Hkeys. exact Hkey.
  - intros name Hl Hd Hf. unfold Summary.getattr.
    rewrite getattr_fuel_S, Hl, getattr_body_unknown by exact Hd.
    rewrite Hf. reflexivity.
Qed.

Lemma item_access_is_fac_attr_witness :
  FacSummary.getattr_value (runtime := Fixtures.sample_runtime)
    Fixtures.sample_store
    (FacSummary.__getitem__ Fixtures.sample_store (VStr "g")) "group_rets"
  = Summary.fac_attr (runtime := Fixtures.sample_runtime)
      Fixtures.sample_store "group_rets" (VStr "g").
Proof.
  destruct (@item_access_is_fac_attr Fixtures.sample_runtime
              Fixtures.sample_store "group_rets")
    as (Hone & _ & _).
  - intros fac. reflexivity.
  - apply Hone. intros keys. discriminate.
Defined.

(* ===================================================================== *)
(** * Further properties of the analysis (analysis.py)                    *)
(* ===================================================================== *)

Section Setup.

Context {F : Type} {num : Num F} {engine : Engine F} {runtime : Runtime}.

Lemma same_setup_refl (a : Analysis.t (F := F)) : same_setup a a.
Proof. repeat split. Qed.

Lemma same_setup_with_summary (a : Analysis.t (F := F)) s :
  Summary.facs s = Summary.facs (Analysis.summary a) ->
  Summary.labels s = Summary.labels (Analysis.summary a) ->
  same_setup a (Analysis.with_summary s a).
Proof. intros Hf Hl. repeat split; cbn; congruence. Qed.

Lemma writes_only_refl names (a : Analysis.t (F := F)) : writes_only names a a.
Proof. split; [apply same_setup_refl | reflexivity]. Qed.

Lemma writes_only_setattr names name v (a : Analysis.t (F := F)) :
  In name names ->
  writes_only names a
    (Analysis.with_summary (Summary.setattr name v (Analysis.summary a)) a).
Proof.
  intros Hin. split; [apply same_setup_with_summary; reflexivity |].
  intros other Hother. cbn. apply lookup_insert_ne.
  intros ->. contradiction.
Qed.

Lemma writes_only_setattr2 names n1 v1 n2 v2 (a : Analysis.t (F := F)) :
  In n1 names -> In n2 names ->
  writes_only names a
    (Analysis.with_summary
       (Summary.setattr n2 v2 (Summary.setattr n1 v1 (Analysis.summary a))) a).
Proof.
  intros H1 H2. split; [apply same_setup_with_summary; reflexivity |].
  intros other Hother. cbn.
  rewrite !lookup_insert_ne; [reflexivity | |]; intros ->; contradiction.
Qed.

Lemma half_life_writes (self : Analysis.t (F := F)) :
  writes_only ["half_life"] self (fst (Analysis.half_life self)).
Proof.
  unfold Analysis.half_life.
  destruct (Summary.getattr (Analysis.summary self) "half_life") as [v |];
    [| apply writes_only_refl].
  destruct (is_none v); [| apply writes_only_refl].
  destruct (half_life_table (Analysis.dl self) (Analysis.facs self));
    [| apply writes_only_refl].
  apply writes_only_setattr. left. reflexivity.
Qed.

Lemma lookup_stored (s : Summary.t) name v :
  name <> "facs" -> name <> "labels" ->
  Summary.lookup_attr (Summary.setattr name v s) name = Some v.
Proof.
  intros Hf Hl. unfold Summary.lookup_attr.
  apply String.eqb_neq in Hf, Hl. rewrite Hf, Hl. cbn [Summary.attrs Summary.setattr].
  rewrite lookup_insert_eq. reflexivity.
Qed.

Lemma setattr_twice n1 v1 n2 v2 (s : Summary.t) :
  n1 <> n2 ->
  Summary.setattr n2 v2
    (Summary.setattr n1 v1 (Summary.setattr n2 v2 (Summary.setattr n1 v1 s)))
  = Summary.setattr n2 v2 (Summary.setattr n1 v1 s).
Proof.
  intros Hne. unfold Summary.setattr. cbn. f_equal.
  rewrite (insert_insert_ne _ n1 n2) by exact Hne.
  rewrite !insert_insert_eq. reflexivity.
Qed.

Lemma setattr_again n v (s : Summary.t) :
  Summary.setattr n v (Summary.setattr n v s) = Summary.setattr n v s.
Proof. unfold Summary.setattr. cbn. f_equal. apply insert_insert_eq. Qed.

End Setup.

Section Recompute.

Context {F : Type} {engine : Engine F} {runtime : Runtime}.

Lemma writes_only_same_summary names (a : Analysis.t (F := F)) :
  writes_only names a (Analysis.with_summary (Analysis.summary a) a).
Proof. split; [apply same_setup_with_summary; reflexivity | reflexivity]. Qed.

Lemma ic_overall_writes method (self : Analysis.t (F := F)) :
  writes_only ["symbol_ic"; "_ic_overall"] self
    (fst (Analysis.ic_overall method self)).
Proof.
  unfold Analysis.ic_overall.
  destruct (mapM _ (Analysis.facs self)); [| apply writes_only_refl].
  apply writes_only_setattr2; cbn; auto.
Qed.

Lemma ts_ic_writes rule method (keep : bool) (self : Analysis.t (F := F)) :
  writes_only (if keep then ["symbol_ts_ic"; "ts_ic"] else ["ts_ic"]) self
    (fst (Analysis.ts_ic rule method keep self)).
Proof.
  unfold Analysis.ts_ic.
  destruct (mapM _ (Analysis.facs self)) as [loaders |];
    [| apply writes_only_refl].
  destruct (mapM agg_first loaders); destruct keep; cbn [fst].
  - apply writes_only_setattr2; cbn; auto.
  - apply writes_only_setattr; cbn; auto.
  - apply writes_only_setattr; cbn; auto.
  - apply writes_only_same_summary.
Qed.

Lemma ic_overall_again method (self : Analysis.t (F := F)) :
  Analysis.ic_overall method (fst (Analysis.ic_overall method self))
  = Analysis.ic_overall method self.
Proof.
  unfold Analysis.ic_overall, Analysis.ic_exprs.
  destruct (mapM _ (Analysis.facs self)) as [ics |] eqn:Hm.
  - cbn [fst Analysis.with_summary Analysis.dl Analysis.facs Analysis.labels
         Analysis.summary].
    rewrite Hm. unfold Analysis.with_summary. cbn.
    rewrite setattr_twice by discriminate. reflexivity.
  - cbn [fst]. rewrite Hm. reflexivity.
Qed.

Lemma ts_ic_again rule method keep (self : Analysis.t (F := F)) :
  Analysis.ts_ic rule method keep (fst (Analysis.ts_ic rule method keep self))
  = Analysis.ts_ic rule method keep self.
Proof.
  unfold Analysis.ts_ic, Analysis.ic_exprs.
  destruct (mapM _ (Analysis.facs self)) as [loaders |] eqn:Hm.
  - destruct (mapM agg_first loaders) as [ts |] eqn:Ha; destruct keep;
      cbn [fst Analysis.with_summary Analysis.dl Analysis.facs Analysis.labels
           Analysis.summary];
      rewrite Hm, Ha; unfold Analysis.with_summary; cbn;
      rewrite ?setattr_twice by discriminate; rewrite ?setattr_again;
      reflexivity.
  - cbn [fst]. rewrite Hm. reflexivity.
Qed.

End Recompute.

Lemma length_pairs {A B C} (f : A -> B -> C) xs ys :
  List.length (flat_map (fun x => map (f x) ys) xs)
  = (List.length xs * List.length ys)%nat.
Proof.
  induction xs as [| x xs IH]; [reflexivity |].
  cbn [flat_map List.length]. rewrite length_app, IH, length_map.
  reflexivity.
Qed.

(** X6: [analysis.py], [Analysis.__init__]: a constructed analysis has the
    horizon [1] first and [label_1] as its first label, one label per
    horizon, one column name per pair of factor and label, and a result
    store that carries the same factors and labels and holds no result
    yet. *)
Theorem init_sets_up_labels_and_store :
  forall (F : Type) (num : Num F) (engine : Engine F)
         (source : loader F + list (Polars.frame F))
         (facs : list string) (base_label : string)
         (symbols : option (list string)) (label_periods : option (list Z))
         (type_ freq : option string) (drop_peak : bool) (a : Analysis.t),
    Analysis.__init__ source facs base_label symbols label_periods
                      type_ freq drop_peak = Ok a ->
    consistent a
    /\ Analysis.facs a = facs
    /\ Analysis.base_label a = base_label
    /\ Analysis.label_periods a = horizons label_periods
    /\ hd_error (Analysis.labels a) = Some "label_1"
    /\ List.length (Analysis.columns a)
       = (List.length facs * List.length (Analysis.labels a))%nat
    /\ Summary.attrs (Analysis.summary a) = ∅.
Proof.
  intros F num engine source facs base symbols periods type_ freq drop_peak a.
  unfold Analysis.__init__.
  destruct (match source with
            | inl dl => Ok dl
            | inr frames => from_dfs frames symbols type_ freq
            end) as [dl0 |]; cbn [bind]; [| discriminate].
  destruct (DataLoader.with_columns _ drop_peak dl0) as [dl1 |]; cbn [bind];
    [| discriminate].
  destruct (DataLoader.with_columns _ true dl1) as [dl2 |]; cbn [bind];
    [| discriminate].
  intros [= <-].
  cbn [Analysis.facs Analysis.base_label Analysis.label_periods
       Analysis.labels Analysis.columns Analysis.summary].
  split; [repeat split |]. repeat (split; [reflexivity |]).
  split; [| reflexivity].
  exact (length_pairs (fun fac label => fac ++ "_" ++ label) facs
           (map Analysis.label_name (horizons periods))).
Qed.

Lemma init_sets_up_labels_and_store_witness :
  consistent Fixtures.started
  /\ Analysis.label_periods Fixtures.started = [1; 2]%Z
  /\ Summary.attrs (Analysis.summary Fixtures.started) = ∅.
Proof.
  destruct (@init_sets_up_labels_and_store Q Fixtures.sample_num
              Fixtures.sample_engine (inl Fixtures.one_symbol) ["f"] "ret"
              None (Some [2%Z]) None None false Fixtures.started eq_refl)
    as (Hc & _ & _ & Hp & _ & _ & He).
  split; [exact Hc |]. split; [exact Hp | exact He].
Defined.

(** X7: [analysis.py], [ic_overall], [ts_ic], [half_life] and
    [group_analyse]: whether it returns or raises, a method leaves the
    collection, the factors, the horizons and the labels as they were and
    assigns only its own results: [symbol_ic] and [_ic_overall];
    [ts_ic], and [symbol_ts_ic] on request; [half_life]. *)
Theorem methods_write_only_their_results :
  forall (F : Type) (engine : Engine F) (R : Runtime)
         (self : Analysis.t (F := F)) (method : Utils.corr_method)
         (rule : string) (keep : bool) (fac : value) (c_rate : Q),
    writes_only ["symbol_ic"; "_ic_overall"] self
      (fst (Analysis.ic_overall method self))
    /\ writes_only (if keep then ["symbol_ts_ic"; "ts_ic"] else ["ts_ic"]) self
         (fst (Analysis.ts_ic rule method keep self))
    /\ writes_only ["half_life"] self (fst (Analysis.half_life self))
    /\ writes_only ["half_life"] self
         (fst (Analysis.group_analyse fac c_rate self)).
Proof.
  intros F engine R self method rule keep fac c_rate.
  split; [apply ic_overall_writes |].
  split; [apply ts_ic_writes |].
  split; [apply half_life_writes |].
  replace (fst (Analysis.group_analyse fac c_rate self))
    with (fst (Analysis.half_life self)); [apply half_life_writes |].
  unfold Analysis.group_analyse.
  destruct (Analysis.half_life self) as [a [u | e]]; reflexivity.
Qed.

(** X8: [analysis.py], [half_life]: once a call has returned, the half-life
    table is in the store, and every later call returns at once and
    leaves the state as it is, without asking the engine again (whatever
    the engine would answer). *)
Theorem half_life_is_computed_once :
  forall (F : Type) (first later : Engine F) (R : Runtime)
         (self a : Analysis.t (F := F)),
    Analysis.half_life (engine := first) self = (a, Ok tt) ->
    Analysis.half_life (engine := later) a = (a, Ok tt)
    /\ exists v, Summary.getattr (Analysis.summary a) "half_life" = Ok v
                 /\ v <> VNone.
Proof.
  intros F first later R self a. unfold Analysis.half_life.
  destruct (Summary.getattr (Analysis.summary self) "half_life")
    as [v |] eqn:Hget; [| discriminate].
  destruct (is_none v) eqn:Hnone.
  - destruct (half_life_table (Analysis.dl self) (Analysis.facs self))
      as [table |]; [| discriminate].
    intros [= <-]. cbn [Analysis.summary Analysis.with_summary].
    rewrite (@getattr_found _ _ "half_life" (VPandas table))
      by (apply lookup_stored; discriminate).
    cbn [is_none]. split; [reflexivity |].
    exists (VPandas table). split; [reflexivity | discriminate].
  - intros [= <-]. rewrite Hget, Hnone. split; [reflexivity |].
    exists v. split; [reflexivity |]. intros ->. discriminate.
Qed.

Lemma half_life_is_computed_once_witness :
  exists a,
    Analysis.half_life (engine := Fixtures.sample_engine)
      (runtime := Fixtures.sample_runtime) Fixtures.started = (a, Ok tt)
    /\ Analysis.half_life (engine := Fixtures.sample_engine)
         (runtime := Fixtures.sample_runtime) a = (a, Ok tt).
Proof.
  eexists. split; [reflexivity |].
  apply (@half_life_is_computed_once Q Fixtures.sample_engine
           Fixtures.sample_engine Fixtures.sample_runtime Fixtures.started).
  reflexivity.
Defined.

(** X9: [analysis.py], [ic_overall] and [ts_ic]: computing a result again
    with the same arguments changes nothing: the second call ends as the
    first did, in the same state. *)
Theorem recomputing_is_idempotent :
  forall (F : Type) (engine : Engine F) (R : Runtime)
         (self : Analysis.t (F := F)) (method : Utils.corr_method)
         (rule : string) (keep : bool),
    Analysis.ic_overall method (fst (Analysis.ic_overall method self))
    = Analysis.ic_overall method self
    /\ Analysis.ts_ic rule method keep
         (fst (Analysis.ts_ic rule method keep self))
       = Analysis.ts_ic rule method keep self.
Proof.
  intros. split; [apply ic_overall_again | apply ts_ic_again].
Qed.

Section Horizons.

Context {F : Type} {num : Num F} {engine : Engine F}.

Lemma not_distinct xs : ~ List.NoDup xs -> distinct xs = false.
Proof.
  intros Hnd. destruct (distinct xs) eqn:Hd; [| reflexivity].
  exfalso. apply Hnd. apply distinct_NoDup. exact Hd.
Qed.


Lemma with_columns_duplicate (exprs : list (string * Polars.expr F))
      (dl : loader F) :
  ~ List.NoDup (map fst exprs) -> dfs dl <> [] ->
  DataLoader.with_columns exprs true dl = Raise ComputeError.
Proof.
  intros Hnd Hdfs. unfold DataLoader.with_columns.
  destruct (dfs dl) as [| df rest]; [contradiction Hdfs; reflexivity |].
  cbn [mapM]. unfold Polars.with_columns at 1.
  rewrite (not_distinct Hnd). reflexivity.
Qed.

End Horizons.



(** X11: [analysis.py], [Analysis.__init__]: when a horizon other than
    [1] occurs twice among positive horizons, the constructor asks
    [with_columns] for two label columns of one name; on a collection
    that has a frame, every frame with the base label, it raises the
    [ComputeError] polars reports for that. *)
Theorem repeated_horizon_fails_construction :
  forall (F : Type) (num : Num F) (engine : Engine F)
         (source : loader F + list (Polars.frame F))
         (facs : list string) (base_label : string)
         (symbols : option (list string)) (label_periods : option (list Z))
         (type_ freq : option string) (drop_peak : bool) (dl0 dl1 : loader F),
    source_loader source symbols type_ freq = Ok dl0 ->
    DataLoader.with_columns (Analysis.winsorize_exprs facs) drop_peak dl0
    = Ok dl1 ->
    dfs dl1 <> [] ->
    Forall (fun df => exists c, Polars.get_column base_label df = Some c)
           (dfs dl1) ->
    Forall (fun n => (0 < n)%Z) (horizons label_periods) ->
    ~ List.NoDup (List.filter (fun n => negb (n =? 1)%Z)
                              (horizons label_periods)) ->
    Analysis.__init__ source facs base_label symbols label_periods
                      type_ freq drop_peak = Raise ComputeError.
Proof.
  intros F num engine source facs base symbols periods type_ freq drop_peak
         dl0 dl1 Hsource Hwin Hdfs _ _ Hrep.
  unfold Analysis.__init__. unfold source_loader in Hsource.
  rewrite Hsource. cbn [bind]. rewrite Hwin. cbn [bind].
  fold (horizons periods).
  rewrite with_columns_duplicate; [reflexivity | | exact Hdfs].
  rewrite label_exprs_names. intros Hall. apply Hrep.
  apply List.NoDup_app_remove_r in Hall.
  apply List.NoDup_map_inv in Hall. exact Hall.
Qed.

Lemma repeated_horizon_fails_construction_witness :
  Analysis.__init__ (num := Fixtures.sample_num)
    (engine := Fixtures.sample_engine) (inl Fixtures.one_symbol) ["f"] "ret"
    None (Some [5; 5]%Z) None None true
  = Raise ComputeError.
Proof.
  apply (@repeated_horizon_fails_construction Q Fixtures.sample_num
           Fixtures.sample_engine (inl Fixtures.one_symbol) ["f"] "ret"
           None (Some [5; 5]%Z) None None true
           Fixtures.one_symbol Fixtures.one_symbol);
    [reflexivity | reflexivity | discriminate
     | repeat constructor; eexists; reflexivity
     | repeat constructor; reflexivity |].
  cbn. intros Hnd. apply List.NoDup_cons_iff in Hnd.
  apply (proj1 Hnd). left. reflexivity.
Defined.

(** X12: [analysis.py], [Analysis.__init__] and [group_analyse]: the name of a
    label, [f'label_{n}'], gives its horizon back through
    [int(name.replace('label_', ''))], for every integer [n]; two
    horizons have one label only if they are equal, so the labels of
    distinct horizons are distinct. *)
Theorem label_name_round_trip :
  forall (n m : Z) (periods : list Z),
    int_of_str (str_remove "label_" (Analysis.label_name n)) = Ok n
    /\ (Analysis.label_name n = Analysis.label_name m -> n = m)
    /\ (List.NoDup periods
        <-> List.NoDup (map Analysis.label_name periods)).
Proof.
  intros n m periods.
  split; [apply horizon_of_label_name |].
  split; [apply label_name_inj |]. split.
  - intros Hnd. apply List.NoDup_map_NoDup_ForallPairs; [| exact Hnd].
    intros a b _ _. apply label_name_inj.
  - apply List.NoDup_map_inv.
Qed.

Section Compounding.

Lemma valid_map_cells {A} (f : A -> A) (cells : list (option A)) :
  Polars.valid (map (option_map f) cells) = map f (Polars.valid cells).
Proof.
  induction cells as [| [x |] cells IH]; cbn; [reflexivity | | exact IH].
  rewrite IH. reflexivity.
Qed.

Lemma valid_all_present {A} (P : A -> Prop) (cells : list (option A)) :
  Forall (fun cell => exists r, cell = Some r /\ P r) cells ->
  List.length (Polars.valid cells) = List.length cells
  /\ Forall P (Polars.valid cells).
Proof.
  induction 1 as [| cell cells (r & -> & Hr) _ [IHl IHf]]; cbn.
  - split; [reflexivity | constructor].
  - split; [rewrite IHl; reflexivity | constructor; assumption].
Qed.

Lemma exp_sum_of_logs (rs : list R) : forall acc : R,
  Forall (fun r => (-1 < r)%R) rs ->
  exp (fold_left Rplus (map ln (map (Rplus 1) rs)) acc)
  = (exp acc * fold_right Rmult 1 (map (Rplus 1) rs))%R.
Proof.
  induction rs as [| r rs IH]; intros acc Hrs; cbn.
  - ring.
  - inversion Hrs as [| ? ? Hr Hrest]; subst.
    rewrite IH by exact Hrest.
    rewrite exp_plus, exp_ln by lra. ring.
Qed.

End Compounding.

(** X13: [analysis.py], [Analysis.__init__], the label expression: over the
    real numbers, where the base label has a value above [-1] in each of
    the [n] rows from row [t] on, the label of horizon [n] at row [t] is
    the compounded return of those rows, the product of the [1 + r] less
    one. *)
Theorem forward_return_compounds :
  forall (n : Z) (base : Polars.column R) (t : nat),
    (1 < n)%Z ->
    (t + Z.to_nat n <= List.length base)%nat ->
    Forall (fun cell => exists r, cell = Some r /\ (-1 < r)%R)
           (firstn (Z.to_nat n) (skipn t base)) ->
    nth_error (Analysis.forward_return (num := Num_R) n base) t
    = Some (Some (compounded
                    (Polars.valid (firstn (Z.to_nat n) (skipn t base))))).
Proof.
  intros n base t Hn Hlen Hwindow.
  rewrite forward_return_row by lia.
  destruct (Nat.ltb_spec (t + (Z.to_nat n - 1)) (List.length base)); [| lia].
  cbv zeta. unfold Polars.map_cells.
  rewrite !List.skipn_map, !List.firstn_map, !valid_map_cells.
  destruct (valid_all_present _ Hwindow) as [Hcount Hall].
  rewrite !length_map, Hcount, length_firstn, length_skipn.
  replace (Z.of_nat (Nat.min (Z.to_nat n) (List.length base - t))) with n
    by lia.
  pose proof (Z.div_lt n 2 ltac:(lia) ltac:(lia)) as Hhalf.
  destruct (Z.leb_spec (n / 2) n); [| lia].
  cbn [fsub fexp fadd fzero fone flog Num_R].
  rewrite exp_sum_of_logs by exact Hall.
  rewrite exp_0. unfold compounded. do 2 f_equal. ring.
Qed.

Lemma forward_return_compounds_witness :
  nth_error
    (Analysis.forward_return (num := Num_R) 2 [Some 0%R; Some 1%R; Some 1%R])
    0
  = Some (Some (compounded [0%R; 1%R])).
Proof.
  apply (@forward_return_compounds 2 [Some 0%R; Some 1%R; Some 1%R] 0%nat).
  - lia.
  - cbn. lia.
  - cbn. repeat constructor; eexists; (split; [reflexivity | lra]).
Defined.

(** X14: [analysis.py], [group_analyse]: the method first runs [half_life],
    so its only effect on the state is that of [half_life], whose
    exception it passes on; and an integer [fac] outside the factors
    raises [IndexError] from [self.facs[fac]], after the half-life table
    has been stored. *)
Theorem group_analyse_starts_with_half_life :
  forall (F : Type) (engine : Engine F) (R : Runtime)
         (fac : value) (c_rate : Q) (self : Analysis.t (F := F)),
    fst (Analysis.group_analyse fac c_rate self)
    = fst (Analysis.half_life self)
    /\ (forall e,
          snd (Analysis.half_life self) = Raise e ->
          snd (Analysis.group_analyse fac c_rate self) = Raise e)
    /\ (forall i,
          fac = VInt i ->
          snd (Analysis.half_life self) = Ok tt ->
          (i < - Z.of_nat (List.length (Analysis.facs self))
           \/ Z.of_nat (List.length (Analysis.facs self)) <= i)%Z ->
          snd (Analysis.group_analyse fac c_rate self) = Raise IndexError).
Proof.
  intros F engine R fac c_rate self. unfold Analysis.group_analyse.
  destruct (Analysis.half_life self) as [a [u | e]] eqn:Hh; cbn [fst snd].
  - split; [reflexivity |]. split; [discriminate |].
    intros i -> _ Hi.
    destruct (half_life_fields _ Hh) as (_ & _ & Hfacs).
    unfold Analysis.group_analyse_body. rewrite Hfacs.
    rewrite list_index_out by exact Hi. reflexivity.
  - split; [reflexivity |]. split; [intros e' [= ->]; reflexivity |].
    discriminate.
Qed.

Section Band.

Local Open Scope Q_scope.

Lemma weighted_sums_between lo hi (ps : list (Q * Q)) :
  Forall (fun wx => 0 <= fst wx /\ lo <= snd wx <= hi) ps ->
  0 <= qsum (map fst ps)
  /\ lo * qsum (map fst ps) <= qsum (map (fun wx => fst wx * snd wx) ps)
  /\ qsum (map (fun wx => fst wx * snd wx) ps) <= hi * qsum (map fst ps).
Proof.
  induction 1 as [| [w x] ps [Hw [Hlo Hhi]] _ (IH0 & IH1 & IH2)];
    cbn [map qsum fold_right fst snd] in *.
  - lra.
  - unfold qsum in *. nra.
Qed.

Lemma present_between lo hi (pairs : list (option Q * option Q)) :
  Forall (fun wx => match wx with
                    | (Some w, Some x) => 0 <= w /\ lo <= x <= hi
                    | _ => True
                    end) pairs ->
  Forall (fun wx => 0 <= fst wx /\ lo <= snd wx <= hi) (present pairs).
Proof.
  induction 1 as [| [[w |] [x |]] pairs Hwx _ IH]; cbn [present];
    try exact IH; [constructor | constructor; [exact Hwx | exact IH]].
Qed.

(** A mean under weights that are not negative lies between the bounds
    of its values. *)
Lemma weighted_mean_between lo hi (pairs : list (option Q * option Q)) :
  Forall (fun wx => match wx with
                    | (Some w, Some x) => 0 <= w /\ lo <= x <= hi
                    | _ => True
                    end) pairs ->
  match DataLoader.weighted_mean pairs with
  | None => True
  | Some q => lo <= q <= hi
  end.
Proof.
  intros Hall. apply present_between in Hall.
  apply weighted_sums_between in Hall. destruct Hall as (H0 & Hlo & Hhi).
  unfold DataLoader.weighted_mean.
  destruct (weighted_fold pairs 0 0) as [Hn Hd]. cbv zeta in Hn, Hd.
  set (acc := fold_left _ pairs (0, 0)) in *.
  destruct (Qeq_bool (snd acc) 0) eqn:Hz; [exact I |].
  apply Qeq_bool_neq in Hz.
  assert (Hpos : 0 < snd acc) by (rewrite Hd in *; lra).
  split.
  - apply Qle_shift_div_l; [exact Hpos |]. rewrite Hn, Hd. lra.
  - apply Qle_shift_div_r; [exact Hpos |]. rewrite Hn, Hd. lra.
Qed.

Lemma row_count_not_negative {F : Type} (df : Polars.frame F) :
  match row_count df with
  | Some w => 0 <= w
  | None => True
  end.
Proof.
  unfold row_count.
  change 0 with (inject_Z 0). rewrite <- Zle_Qle. lia.
Qed.

Lemma stable_corr_between {F : Type}
      (corr : Utils.corr_method -> Polars.column F -> Polars.column F
              -> option Utils.float) x y method df v :
  Utils.stable_corr corr x y method df = Ok v ->
  match v with
  | None => True
  | Some q => -(2 # 10) <= q <= 2 # 10
  end.
Proof.
  unfold Utils.stable_corr.
  destruct (Polars.col x df) as [cx |]; cbn [bind]; [| discriminate].
  destruct (Polars.col y df) as [cy |]; cbn [bind]; [| discriminate].
  intros [= <-]. apply stable_cell_bounded. lra.
Qed.

End Band.

Lemma Forall2_right {A B} (P : A -> B -> Prop) (Q : B -> Prop) xs ys :
  (forall x y, In x xs -> P x y -> Q y) -> Forall2 P xs ys -> Forall Q ys.
Proof.
  intros HPQ Hall. induction Hall as [| x y xs ys Hxy _ IH]; constructor.
  - apply (HPQ x y); [left; reflexivity | exact Hxy].
  - apply IH. intros x' y' Hin. apply HPQ. right. exact Hin.
Qed.

(** X15: [analysis.py], [ic_overall] with [utils.py], [stable_corr]: every
    overall correlation the method stores, for every factor and label,
    is null or lies between [-0.2] and [0.2]: it is a mean, weighted by
    row counts, of per-symbol correlations that [stable_corr] has
    clipped to that band. *)
Theorem overall_ic_within_band :
  forall (F : Type) (engine : Engine F) (method : Utils.corr_method)
         (self self' : Analysis.t (F := F)),
    Analysis.ic_overall method self = (self', Ok tt) ->
    dfs (Analysis.dl self) <> [] ->
    exists ics : list (loader Q),
      Summary.attrs (Analysis.summary self') !! "_ic_overall"
      = Some (VList (map (fun ic =>
                            VFrame (DataLoader.agg_dfs_weight "count" ic))
                         ics))
      /\ List.length ics = List.length (Analysis.facs self)
      /\ Forall
           (fun ic =>
              forall label,
                In label (Analysis.labels self) ->
                match DataLoader.cell label 0
                        (DataLoader.agg_dfs_weight "count" ic) with
                | None => True
                | Some q => (-(2 # 10) <= q <= 2 # 10)%Q
                end)
           ics.
Proof.
  intros F engine method self self'. unfold Analysis.ic_overall.
  destruct (mapM _ (Analysis.facs self)) as [ics |] eqn:Hm; [| discriminate].
  intros [= <-] Hdata. exists ics. cbn [Analysis.summary Analysis.with_summary].
  split; [apply lookup_insert_eq |].
  apply mapM_Forall2 in Hm.
  split; [symmetry; eapply Forall2_length; exact Hm |].
  eapply Forall2_right; [| exact Hm]. cbv beta.
  intros fac ic _ Hsel label Hlabel.
  apply select_frames in Hsel.
  assert (Hrows : Forall
            (fun row =>
               map fst row = (Analysis.labels self ++ ["count"])%list
               /\ DataLoader.height row = 1%nat
               /\ label <> "count"
               /\ match DataLoader.cell "count" 0 row,
                        DataLoader.cell label 0 row with
                  | Some w, Some x => (0 <= w /\ -(2 # 10) <= x <= 2 # 10)%Q
                  | _, _ => True
                  end)
            (dfs ic)).
  { eapply Forall2_right; [| exact Hsel]. cbv beta. intros df row _ Hrow.
    pose proof (ic_row_height _ _ _ _ Hrow) as Hh.
    apply ic_row in Hrow. destruct Hrow as (_ & Hnames & Hcount & Hlab).
    destruct (Hlab label Hlabel) as (Hne & v & Hget & Hv).
    repeat (split; [assumption |]).
    rewrite Hcount. pose proof (row_count_not_negative df) as Hw.
    destruct (row_count df) as [w |]; [| exact I].
    unfold DataLoader.cell. rewrite Hget. cbn [nth].
    apply stable_corr_between in Hv.
    destruct v as [x |]; [split; assumption | exact I]. }
  destruct (dfs ic) as [| row rows0] eqn:Hdfs.
  { inversion Hsel as [Hd0 |]. contradiction Hdata. symmetry. exact Hd0. }
  inversion Hrows as [| ? ? (Hnames & Hh & Hne & _) _]; subst.
  rewrite (@agg_dfs_weight_cell "count" ic row rows0 label O);
    [| exact Hdfs | rewrite Hnames; apply in_or_app; left; exact Hlabel
     | exact Hne | rewrite Hh; lia].
  apply weighted_mean_between. rewrite Hdfs.
  apply List.Forall_forall. intros wx Hwx. apply in_map_iff in Hwx.
  destruct Hwx as (row' & <- & Hin).
  rewrite List.Forall_forall in Hrows.
  destruct (Hrows row' Hin) as (_ & _ & _ & Hcell).
  destruct (DataLoader.cell "count" 0 row'); [| exact I].
  destruct (DataLoader.cell label 0 row'); [exact Hcell | exact I].
Qed.

Lemma overall_ic_within_band_witness :
  exists ics : list (loader Q),
    Summary.attrs
      (Analysis.summary
         (fst (Analysis.ic_overall (engine := Fixtures.sample_engine)
                 Utils.pearson Fixtures.started)))
    !! "_ic_overall"
    = Some (VList (map (fun ic =>
                          VFrame (DataLoader.agg_dfs_weight "count" ic))
                       ics))
    /\ List.length ics = 1%nat
    /\ Forall
         (fun ic =>
            forall label,
              In label (Analysis.labels Fixtures.started) ->
              match DataLoader.cell label 0
                      (DataLoader.agg_dfs_weight "count" ic) with
              | None => True
              | Some q => (-(2 # 10) <= q <= 2 # 10)%Q
              end)
         ics.
Proof.
  apply (@overall_ic_within_band Q Fixtures.sample_engine Utils.pearson
           Fixtures.started
           (fst (Analysis.ic_overall (engine := Fixtures.sample_engine)
                   Utils.pearson Fixtures.started)));
    [reflexivity | discriminate].
Defined.

(* ===================================================================== *)
(** * Properties of the grouped returns (analysis.py)                     *)
(* ===================================================================== *)

Section GroupedResults.

Context {engine : GroupEngine} {runtime : Runtime}.

(** Reading a stored list of frames by factor name. *)
Lemma stored_frames_by_name (store : Summary.t) name frames :
  Summary.lookup_attr store name = Some (VList (map VPandas frames)) ->
  (forall s i df,
     index_of s (Summary.facs store) = Some i ->
     nth_error frames i = Some df ->
     Summary.fac_attr store name (VStr s) = Ok (VPandas df))
  /\ (forall s,
        ~ In s (firstn (List.length frames) (Summary.facs store)) ->
        exists msg,
          Summary.fac_attr store name (VStr s) = Raise (ValueError msg)).
Proof.
  intros Hstored. apply getattr_found in Hstored.
  assert (Hsome : Forall (fun v => v <> VNone) (map VPandas frames)).
  { apply List.Forall_forall. intros v Hv. apply in_map_iff in Hv.
    destruct Hv as (df & <- & _). discriminate. }
  split.
  - intros s i df Hidx Hnth.
    assert (Hi : (i < List.length (map VPandas frames))%nat).
    { rewrite length_map. apply nth_error_Some. rewrite Hnth. discriminate. }
    pose proof (find_fac_at _ _ _ Hidx Hi) as Hfound.
    rewrite nth_error_map, Hnth in Hfound. cbn in Hfound.
    injection Hfound as Hfound.
    unfold Summary.fac_attr, Summary._fac_attr_single.
    rewrite Hstored. cbn [bind]. rewrite <- Hfound. reflexivity.
  - intros s Hout. eexists.
    unfold Summary.fac_attr, Summary._fac_attr_single.
    rewrite Hstored. cbn [bind].
    replace (Summary.find_fac s (Summary.facs store) (map VPandas frames))
      with VNone; [reflexivity |].
    symmetry. apply find_fac_none; [exact Hsome |].
    rewrite length_map. exact Hout.
Qed.

Lemma ts_group_ret_writes facs group (self : Analysis.t (F := Q)) :
  writes_only ["symbol_ts_group_rets"; "ts_group_rets"] self
    (fst (Grouped.ts_group_ret facs group self)).
Proof.
  unfold Grouped.ts_group_ret.
  destruct (mapM _ (Grouped.facs_arg self facs)) as [loaders |];
    [| apply writes_only_refl].
  destruct (mapM _ loaders); cbn [fst].
  - apply writes_only_setattr2; cbn; auto.
  - apply writes_only_setattr; cbn; auto.
Qed.

Lemma group_ret_writes facs rule group (self : Analysis.t (F := Q)) :
  writes_only ["symbol_group_rets"; "group_rets"] self
    (fst (Grouped.group_ret facs rule group self)).
Proof.
  unfold Grouped.group_ret.
  destruct (mapM _ (Grouped.facs_arg self facs)) as [loaders |];
    [| apply writes_only_refl].
  destruct (mapM _ loaders); cbn [fst].
  - apply writes_only_setattr2; cbn; auto.
  - apply writes_only_setattr; cbn; auto.
Qed.

End GroupedResults.

(** X16: [analysis.py], [ts_group_ret]: the method stores one entry per name
    of its [facs] argument, in the order of the argument, and a lookup by
    factor name reads the entry at the position the name has among the
    factors of the store: asked for a selection of the factors, it files
    the frame of the selection's [i]-th name under the store's [i]-th
    factor, and a factor past the selection's length is reported as not
    in the result. *)
Theorem ts_group_ret_files_results_by_position :
  forall (engine : GroupEngine) (R : Runtime)
         (facs : option (string + list string)) (group : Z)
         (self a : Analysis.t (F := Q)),
    Grouped.ts_group_ret facs group self = (a, Ok tt) ->
    exists (loaders : list (loader Q)) (frames : list (Polars.frame Q)),
      Forall2 (fun fac dl => Grouped.daily_group_ret self group fac = Ok dl)
              (Grouped.facs_arg self facs) loaders
      /\ Forall2
           (fun dl df =>
              agg_dfs_first dl ["group"; daily_col (Analysis.dl self)] None
                            (Some (daily_col (Analysis.dl self)))
              = Ok df)
           loaders frames
      /\ Summary.attrs (Analysis.summary a) !! "symbol_ts_group_rets"
         = Some (VList (map VLoader loaders))
      /\ Summary.attrs (Analysis.summary a) !! "ts_group_rets"
         = Some (VList (map VPandas frames))
      /\ (forall s i df,
            index_of s (Summary.facs (Analysis.summary self)) = Some i ->
            nth_error frames i = Some df ->
            Summary.fac_attr (Analysis.summary a) "ts_group_rets" (VStr s)
            = Ok (VPandas df))
      /\ (forall s,
            ~ In s (firstn (List.length frames)
                           (Summary.facs (Analysis.summary self))) ->
            exists msg,
              Summary.fac_attr (Analysis.summary a) "ts_group_rets" (VStr s)
              = Raise (ValueError msg)).
Proof.
  intros engine R facs group self a. unfold Grouped.ts_group_ret.
  destruct (mapM _ (Grouped.facs_arg self facs)) as [loaders |] eqn:Hl;
    [| discriminate].
  destruct (mapM _ loaders) as [frames |] eqn:Hf; [| discriminate].
  intros [= <-]. exists loaders, frames.
  cbn [Analysis.summary Analysis.with_summary].
  split; [apply mapM_Forall2; exact Hl |].
  split; [apply mapM_Forall2; exact Hf |].
  split; [cbn; rewrite lookup_insert_ne by discriminate;
          apply lookup_insert_eq |].
  split; [apply lookup_insert_eq |].
  apply (@stored_frames_by_name R
           (Summary.setattr "ts_group_rets" (VList (map VPandas frames))
              (Summary.setattr "symbol_ts_group_rets"
                 (VList (map VLoader loaders)) (Analysis.summary self)))
           "ts_group_rets" frames).
  apply lookup_stored; discriminate.
Qed.

(** A selection of one factor, [g], of an analysis of [f] and [g]: the
    frame of [g] is read under the name [f], and [g] is reported as
    missing. *)
Lemma ts_group_ret_files_results_by_position_witness :
  let a := fst (Grouped.ts_group_ret
                  (engine := MoreFixtures.sample_group_engine)
                  (Some (inr ["g"])) 10 MoreFixtures.two_factors) in
  exists frames : list (Polars.frame Q),
    Summary.attrs (Analysis.summary a) !! "ts_group_rets"
    = Some (VList (map VPandas frames))
    /\ (forall df,
          nth_error frames 0 = Some df ->
          Summary.fac_attr (runtime := Fixtures.sample_runtime)
            (Analysis.summary a) "ts_group_rets" (VStr "f")
          = Ok (VPandas df))
    /\ (List.length frames = 1%nat ->
        exists msg,
          Summary.fac_attr (runtime := Fixtures.sample_runtime)
            (Analysis.summary a) "ts_group_rets" (VStr "g")
          = Raise (ValueError msg)).
Proof.
  intros a.
  destruct (@ts_group_ret_files_results_by_position
              MoreFixtures.sample_group_engine Fixtures.sample_runtime
              (Some (inr ["g"])) 10 MoreFixtures.two_factors a)
    as (loaders & frames & _ & _ & _ & Hstored & Hname & Hmissing).
  - vm_compute. reflexivity.
  - exists frames. split; [exact Hstored |]. split.
    + intros df Hdf. apply (Hname "f" 0%nat df); [reflexivity | exact Hdf].
    + intros Hlen. apply Hmissing. rewrite Hlen. cbn.
      intros [H | []]. discriminate H.
Defined.

(** X17: [analysis.py], [group_ret]: with or without a rule the method stores
    one entry per name of its [facs] argument, in the order of the
    argument, the aggregate over the symbols being weighted by [count]
    only when there is no rule; a lookup by factor name, as
    [group_analyse] makes it, reads the entry at the position the name
    has among the factors of the store, and a factor past the length of
    the argument is reported as not in the result. *)
Theorem group_ret_files_results_by_position :
  forall (engine : GroupEngine) (R : Runtime)
         (facs : option (string + list string)) (rule : option string)
         (group : Z) (self a : Analysis.t (F := Q)),
    Grouped.group_ret facs rule group self = (a, Ok tt) ->
    exists (loaders : list (loader Q)) (frames : list (Polars.frame Q)),
      Forall2 (fun fac dl =>
                 Grouped.symbol_group_ret self rule group fac = Ok dl)
              (Grouped.facs_arg self facs) loaders
      /\ Forall2
           (fun dl df =>
              match rule with
              | None => agg_dfs_first dl ["group"] (Some "count") None = Ok df
              | Some _ =>
                  exists means,
                    group_mean_excluding dl (daily_col (Analysis.dl self))
                    = Ok means
                    /\ agg_dfs_first means ["group"] None None = Ok df
              end)
           loaders frames
      /\ Summary.attrs (Analysis.summary a) !! "symbol_group_rets"
         = Some (VList (map VLoader loaders))
      /\ Summary.attrs (Analysis.summary a) !! "group_rets"
         = Some (VList (map VPandas frames))
      /\ (forall s i df,
            index_of s (Summary.facs (Analysis.summary self)) = Some i ->
            nth_error frames i = Some df ->
            Summary.fac_attr (Analysis.summary a) "group_rets" (VStr s)
            = Ok (VPandas df))
      /\ (forall s,
            ~ In s (firstn (List.length frames)
                           (Summary.facs (Analysis.summary self))) ->
            exists msg,
              Summary.fac_attr (Analysis.summary a) "group_rets" (VStr s)
              = Raise (ValueError msg)).
Proof.
  intros engine R facs rule group self a. unfold Grouped.group_ret.
  destruct (mapM _ (Grouped.facs_arg self facs)) as [loaders |] eqn:Hl;
    [| discriminate].
  destruct (mapM _ loaders) as [frames |] eqn:Hf; [| discriminate].
  intros [= <-]. exists loaders, frames.
  cbn [Analysis.summary Analysis.with_summary].
  split; [apply mapM_Forall2; exact Hl |].
  split.
  { apply mapM_Forall2 in Hf.
    eapply List.Forall2_impl; [| exact Hf]. cbv beta. intros dl df.
    destruct rule as [rule |]; [| intros H; exact H].
    destruct (group_mean_excluding dl (daily_col (Analysis.dl self)))
      as [means |]; cbn [bind]; [| discriminate].
    intros Hdf. exists means. split; [reflexivity | exact Hdf]. }
  split; [cbn; rewrite lookup_insert_ne by discriminate;
          apply lookup_insert_eq |].
  split; [apply lookup_insert_eq |].
  apply (@stored_frames_by_name R
           (Summary.setattr "group_rets" (VList (map VPandas frames))
              (Summary.setattr "symbol_group_rets"
                 (VList (map VLoader loaders)) (Analysis.summary self)))
           "group_rets" frames).
  apply lookup_stored; discriminate.
Qed.

Lemma group_ret_files_results_by_position_witness :
  let a := fst (Grouped.group_ret
                  (engine := MoreFixtures.sample_group_engine)
                  (Some (inl "g")) None 10 MoreFixtures.two_factors) in
  exists frames : list (Polars.frame Q),
    Summary.attrs (Analysis.summary a) !! "group_rets"
    = Some (VList (map VPandas frames))
    /\ (forall df,
          nth_error frames 0 = Some df ->
          Summary.fac_attr (runtime := Fixtures.sample_runtime)
            (Analysis.summary a) "group_rets" (VStr "f")
          = Ok (VPandas df)).
Proof.
  intros a.
  destruct (@group_ret_files_results_by_position
              MoreFixtures.sample_group_engine Fixtures.sample_runtime
              (Some (inl "g")) None 10 MoreFixtures.two_factors a)
    as (loaders & frames & _ & _ & _ & Hstored & Hname & _).
  - vm_compute. reflexivity.
  - exists frames. split; [exact Hstored |].
    intros df Hdf. apply (Hname "f" 0%nat df); [reflexivity | exact Hdf].
Defined.

(** X18: [analysis.py], [ts_group_ret] and [group_ret]: whether it returns or
    raises, a grouped-return method leaves the collection, the factors,
    the horizons, the labels and every other stored result as they were;
    it assigns only its own two results. *)
Theorem grouped_methods_write_only_their_results :
  forall (engine : GroupEngine)
         (facs : option (string + list string)) (rule : option string)
         (group : Z) (self : Analysis.t (F := Q)),
    writes_only ["symbol_ts_group_rets"; "ts_group_rets"] self
      (fst (Grouped.ts_group_ret facs group self))
    /\ writes_only ["symbol_group_rets"; "group_rets"] self
         (fst (Grouped.group_ret facs rule group self)).
Proof.
  intros. split; [apply ts_group_ret_writes | apply group_ret_writes].
Qed.

(* ===================================================================== *)
(** * Iterating a collection (py_loader.py)                               *)
(* ===================================================================== *)

Section Zip.

Lemma nth_error_combine {A B} (xs : list A) : forall (ys : list B) i x y,
  nth_error (combine xs ys) i = Some (x, y)
  <-> nth_error xs i = Some x /\ nth_error ys i = Some y.
Proof.
  induction xs as [| a xs IH]; intros ys i x y.
  - cbn. destruct i; split; [discriminate | intros [H _]; discriminate
                             | discriminate | intros [H _]; discriminate].
  - destruct ys as [| b ys].
    + cbn. destruct i; split; try discriminate; intros [_ H]; discriminate.
    + destruct i as [| i]; cbn.
      * split; [intros [= -> ->]; split; reflexivity
               | intros [[= ->] [= ->]]; reflexivity].
      * apply IH.
Qed.

End Zip.

(** X22: [py_loader.py], [DataLoader.__iter__]: a collection with symbols
    yields pairs, the [i]-th pair holding the [i]-th symbol and the
    [i]-th frame, and stops at the shorter of the two lists, so frames
    past the last symbol are never visited; a collection without symbols
    yields every frame. *)
Theorem iteration_stops_at_the_shorter_list :
  forall (RS_Loader PolarsFrame : Type)
         (rs_symbols : RS_Loader -> option (list string))
         (rs_dfs : RS_Loader -> list PolarsFrame) (dl : RS_Loader),
    let items := Iteration.__iter__ rs_symbols rs_dfs dl in
    (forall symbols,
       rs_symbols dl = Some symbols ->
       List.length items
       = Nat.min (List.length symbols) (List.length (rs_dfs dl))
       /\ (forall i s df,
             nth_error items i = Some (Iteration.Pair s df)
             <-> nth_error symbols i = Some s
                 /\ nth_error (rs_dfs dl) i = Some df)
       /\ (forall i df, nth_error items i <> Some (Iteration.Frame df)))
    /\ (rs_symbols dl = None ->
        List.length items = List.length (rs_dfs dl)
        /\ forall i df,
             nth_error items i = Some (Iteration.Frame df)
             <-> nth_error (rs_dfs dl) i = Some df).
Proof.
  intros RS_Loader PolarsFrame rs_symbols rs_dfs dl items.
  unfold items, Iteration.__iter__. split.
  - intros symbols ->. split; [rewrite length_map; apply length_combine |].
    split.
    + intros i s df. rewrite nth_error_map.
      rewrite <- nth_error_combine.
      destruct (nth_error (combine symbols (rs_dfs dl)) i) as [[s' df'] |];
        cbn; split; congruence.
    + intros i df. rewrite nth_error_map.
      destruct (nth_error (combine symbols (rs_dfs dl)) i); discriminate.
  - intros ->. split; [apply length_map |].
    intros i df. rewrite nth_error_map.
    destruct (nth_error (rs_dfs dl) i); cbn; split; congruence.
Qed.

(** X23: [analysis.py], [Analysis.__init__] and [half_life]: on an analysis
    as constructed, none of whose factors is called [half_life], the
    first call reads [None] from the store, asks the engine for the
    table and stores it; when the engine raises, the exception is passed
    on and nothing is stored. *)
Theorem first_half_life_asks_the_engine :
  forall (F : Type) (num : Num F) (engine : Engine F) (R : Runtime)
         (source : loader F + list (Polars.frame F))
         (facs : list string) (base_label : string)
         (symbols : option (list string)) (label_periods : option (list Z))
         (type_ freq : option string) (drop_peak : bool) (a : Analysis.t),
    Analysis.__init__ source facs base_label symbols label_periods
                      type_ freq drop_peak = Ok a ->
    ~ In "half_life" facs ->
    object_attr "half_life" = false ->
    Analysis.half_life a
    = match half_life_table (Analysis.dl a) facs with
      | Ok table =>
          (Analysis.with_summary
             (Summary.setattr "half_life" (VPandas table)
                (Analysis.summary a)) a,
           Ok tt)
      | Raise e => (a, Raise e)
      end.
Proof.
  intros F num engine R source facs base symbols periods type_ freq drop_peak
         a Hinit Hfac Hobj.
  destruct (init_steps _ _ _ _ _ _ _ _ Hinit)
    as (dl0 & dl1 & _ & _ & _ & _ & _ & Hfacs & Hsummary).
  unfold Analysis.half_life.
  rewrite (@getattr_unknown R (Analysis.summary a) "half_life").
  - cbn [is_none]. rewrite Hfacs. reflexivity.
  - rewrite Hsummary. unfold Summary.lookup_attr.
    cbn [Summary.attrs Summary.__init__]. rewrite lookup_empty, Hobj.
    reflexivity.
  - reflexivity.
  - rewrite Hsummary. cbn [Summary.facs Summary.__init__].
    destruct (str_in "half_life" facs) eqn:Hin; [| reflexivity].
    apply str_in_In in Hin. contradiction.
Qed.

Lemma first_half_life_asks_the_engine_witness :
  snd (Analysis.half_life (engine := Fixtures.sample_engine)
         (runtime := Fixtures.sample_runtime) Fixtures.started) = Ok tt
  /\ Summary.attrs
       (Analysis.summary
          (fst (Analysis.half_life (engine := Fixtures.sample_engine)
                  (runtime := Fixtures.sample_runtime) Fixtures.started)))
     !! "half_life"
     = Some (VPandas [("f", [Some 1%Q])]).
Proof.
  rewrite (@first_half_life_asks_the_engine Q Fixtures.sample_num
             Fixtures.sample_engine Fixtures.sample_runtime
             (inl Fixtures.one_symbol) ["f"] "ret" None (Some [2%Z]) None
             None false Fixtures.started eq_refl).
  - split; [reflexivity |]. cbn. apply lookup_insert_eq.
  - cbn. intros [H | []]. discriminate H.
  - reflexivity.
Defined.

(* ===================================================================== *)
(** * The store and the analysis together                                 *)
(* ===================================================================== *)

Section Metrics.

Context {runtime : Runtime}.

Lemma stored_list_resolves k (s : Summary.t) src items :
  Summary.lookup_attr s src = Some (VList items) ->
  Summary.getattr_fuel k s src = Ok (VList items).
Proof.
  intros Hsrc. destruct k; cbn [Summary.getattr_fuel]; rewrite Hsrc;
    reflexivity.
Qed.

(** The four statistics over [ts_ic], and [ir], on a store that holds a
    list under [ts_ic]: each is [concat] over that list, and [ir]
    evaluates [ic] first. *)
Lemma metrics_of_stored (s : Summary.t) items :
  (forall name, In name derived_metrics -> Summary.lookup_attr s name = None) ->
  Summary.lookup_attr s "ts_ic" = Some (VList items) ->
  Summary.getattr s "ic" = Summary.concat_of s (VList items) "mean"
  /\ Summary.getattr s "ic_std" = Summary.concat_of s (VList items) "std"
  /\ Summary.getattr s "ic_skew" = Summary.concat_of s (VList items) "skew"
  /\ Summary.getattr s "ic_kurt"
     = Summary.concat_of s (VList items) "kurtosis"
  /\ Summary.getattr s "ir"
     = (a <- Summary.concat_of s (VList items) "mean" ;;
        b <- Summary.concat_of s (VList items) "std" ;; true_div a b).
Proof.
  intros Hnone Hsrc.
  assert (Hmetric : forall k name,
             In name derived_metrics ->
             Summary.getattr_fuel (S k) s name
             = Summary.__getattr__ (Summary.getattr_fuel k s) s name).
  { intros k name Hin. rewrite getattr_fuel_S, (Hnone name Hin). reflexivity. }
  assert (Hstat : forall k name stat,
             In name derived_metrics ->
             Summary.__getattr__ (Summary.getattr_fuel k s) s name
             = (values <- Summary.getattr_fuel k s "ts_ic" ;;
                Summary.concat_of s values stat) ->
             Summary.getattr_fuel (S k) s name
             = Summary.concat_of s (VList items) stat).
  { intros k name stat Hin Hbody.
    rewrite (Hmetric k name Hin), Hbody, (stored_list_resolves k _ _ Hsrc).
    reflexivity. }
  unfold derived_metrics in *. unfold Summary.getattr.
  split; [apply (Hstat 2%nat "ic" "mean"); [cbn; tauto | reflexivity] |].
  split; [apply (Hstat 2%nat "ic_std" "std"); [cbn; tauto | reflexivity] |].
  split; [apply (Hstat 2%nat "ic_skew" "skew"); [cbn; tauto | reflexivity] |].
  split; [apply (Hstat 2%nat "ic_kurt" "kurtosis");
          [cbn; tauto | reflexivity] |].
  rewrite (Hmetric 2%nat "ir") by (cbn; tauto).
  change (Summary.__getattr__ (Summary.getattr_fuel 2 s) s "ir")
    with (a <- Summary.getattr_fuel 2 s "ic" ;;
          b <- Summary.getattr_fuel 2 s "ic_std" ;; true_div a b).
  rewrite (Hstat 1%nat "ic" "mean"); [| cbn; tauto | reflexivity].
  rewrite (Hstat 1%nat "ic_std" "std"); [| cbn; tauto | reflexivity].
  reflexivity.
Qed.

(** [concat] over a list that starts with a pandas frame raises what
    [select] raises on that frame. *)
Lemma concat_of_pandas (s : Summary.t) frame rest stat :
  Summary.concat_of s (VList (VPandas frame :: rest)) stat
  = Summary.select_of stat (Summary.labels s) (VPandas frame).
Proof.
  unfold Summary.concat_of. cbn [mapM Summary.select_of].
  destruct (Polars.get_column "select" frame); reflexivity.
Qed.

Lemma lookup_attr_kept (s : Summary.t) name other v :
  name <> other ->
  Summary.lookup_attr s name = None ->
  Summary.lookup_attr (Summary.setattr other v s) name = None.
Proof.
  intros Hne Hnone. rewrite lookup_attr_setattr_ne by exact Hne. exact Hnone.
Qed.

End Metrics.

(** X24: [analysis.py], [ts_ic], with [summary.py],
    [Summary.__getattr__], [concat] and [apply]: [ts_ic] stores pandas
    frames, and [concat] calls [df.select] on every stored frame, a
    method pandas frames do not have.  So once [ts_ic] has returned for
    at least one factor, on a store that holds nothing under the names
    of the derived metrics, reading [ic], [ic_std], [ic_skew],
    [ic_kurt] or [ir] raises: [AttributeError], or [TypeError] when the
    first frame has a column called [select]. *)
Theorem derived_metrics_cannot_read_ts_ic :
  forall (F : Type) (engine : Engine F) (R : Runtime)
         (method : Utils.corr_method) (rule : string) (keep : bool)
         (self a : Analysis.t (F := F)),
    Analysis.facs self <> [] ->
    (forall name,
       In name derived_metrics ->
       Summary.lookup_attr (Analysis.summary self) name = None) ->
    Analysis.ts_ic rule method keep self = (a, Ok tt) ->
    exists frames e,
      Summary.attrs (Analysis.summary a) !! "ts_ic"
      = Some (VList (map VPandas frames))
      /\ List.length frames = List.length (Analysis.facs self)
      /\ (e = AttributeError "select"
          \/ e = TypeError "'Series' object is not callable")
      /\ forall name,
           In name ["ic"; "ic_std"; "ic_skew"; "ic_kurt"; "ir"] ->
           Summary.getattr (Analysis.summary a) name = Raise e.
Proof.
  intros F engine R method rule keep self a Hfacs Hnone.
  unfold Analysis.ts_ic.
  destruct (mapM _ (Analysis.facs self)) as [loaders |] eqn:Hl;
    [| discriminate].
  destruct (mapM agg_first loaders) as [ts |] eqn:Ht; [| discriminate].
  intros [= <-]. cbn [Analysis.summary Analysis.with_summary].
  apply mapM_Forall2 in Hl, Ht.
  assert (Hlen : List.length ts = List.length (Analysis.facs self)).
  { apply Forall2_length in Hl, Ht. congruence. }
  destruct ts as [| frame rest].
  { destruct (Analysis.facs self); [contradiction Hfacs; reflexivity |].
    discriminate Hlen. }
  exists (frame :: rest),
         (match Polars.get_column "select" frame with
          | Some _ => TypeError "'Series' object is not callable"
          | None => AttributeError "select"
          end).
  split; [apply lookup_insert_eq |]. split; [exact Hlen |].
  split; [destruct (Polars.get_column "select" frame); [right | left];
          reflexivity |].
  match goal with
  | |- forall name, _ -> Summary.getattr ?s _ = _ =>
      destruct (@metrics_of_stored R s (map VPandas (frame :: rest)))
        as (Hic & Hstd & Hskew & Hkurt & Hir)
  end.
  { intros name Hin.
    apply lookup_attr_kept;
      [intros ->; cbn in Hin; intuition discriminate |].
    destruct keep; [| apply Hnone; exact Hin].
    apply lookup_attr_kept;
      [intros ->; cbn in Hin; intuition discriminate |].
    apply Hnone. exact Hin. }
  { apply lookup_stored; discriminate. }
  cbn [map] in Hic, Hstd, Hskew, Hkurt, Hir.
  rewrite !concat_of_pandas in Hic, Hstd, Hskew, Hkurt, Hir.
  cbn [Summary.select_of] in Hic, Hstd, Hskew, Hkurt, Hir.
  intros name Hin. cbn [In] in Hin.
  destruct Hin as [<- | [<- | [<- | [<- | [<- | []]]]]];
    [refine (eq_trans Hic _) | refine (eq_trans Hstd _)
     | refine (eq_trans Hskew _) | refine (eq_trans Hkurt _)
     | refine (eq_trans Hir _)];
    destruct (Polars.get_column "select" frame); reflexivity.
Qed.

Lemma derived_metrics_cannot_read_ts_ic_witness :
  exists frames e,
    Summary.attrs
      (Analysis.summary
         (fst (Analysis.ts_ic (engine := Fixtures.sample_engine)
                 "1mo" Utils.pearson false Fixtures.started)))
    !! "ts_ic" = Some (VList (map VPandas frames))
    /\ List.length frames = 1%nat
    /\ (e = AttributeError "select"
        \/ e = TypeError "'Series' object is not callable")
    /\ forall name,
         In name ["ic"; "ic_std"; "ic_skew"; "ic_kurt"; "ir"] ->
         Summary.getattr (runtime := Fixtures.sample_runtime)
           (Analysis.summary
              (fst (Analysis.ts_ic (engine := Fixtures.sample_engine)
                      "1mo" Utils.pearson false Fixtures.started)))
           name
         = Raise e.
Proof.
  apply (@derived_metrics_cannot_read_ts_ic Q Fixtures.sample_engine
           Fixtures.sample_runtime Utils.pearson "1mo" false
           Fixtures.started
           (fst (Analysis.ts_ic (engine := Fixtures.sample_engine)
                   "1mo" Utils.pearson false Fixtures.started))).
  - discriminate.
  - intros name Hin. cbn in Hin.
    destruct Hin as [<- | [<- | [<- | [<- | [<- | [<- | []]]]]]];
      reflexivity.
  - reflexivity.
Defined.

Section WinsorizedBase.

Context {F : Type} {num : Num F} {engine : Engine F}.

Lemma Forall2_compose {A B C} (P : A -> B -> Prop) (Q : B -> C -> Prop)
      xs ys zs :
  Forall2 P xs ys -> Forall2 Q ys zs ->
  Forall2 (fun x z => exists y, P x y /\ Q y z) xs zs.
Proof.
  intros HP. revert zs. induction HP as [| x y xs ys Hxy _ IH]; intros zs HQ.
  - inversion HQ. constructor.
  - inversion HQ as [| ? z ? zs' Hyz Hrest]; subst.
    constructor; [exists y; split; assumption | apply IH; exact Hrest].
Qed.

End WinsorizedBase.

(** X25: [analysis.py], [Analysis.__init__]: the factors are winsorized
    before the labels are computed, on the same frames; so when the base
    label is itself one of the factors and [drop_peak] is set, [label_1]
    is the winsorized base label, and every other label is the forward
    return of the winsorized series, not of the series as given. *)
Theorem labels_follow_the_winsorized_base :
  forall (F : Type) (num : Num F) (engine : Engine F)
         (source : loader F + list (Polars.frame F))
         (facs : list string) (base_label : string)
         (symbols : option (list string)) (label_periods : option (list Z))
         (type_ freq : option string) (a : Analysis.t),
    Analysis.__init__ source facs base_label symbols label_periods
                      type_ freq true = Ok a ->
    In base_label facs ->
    exists dl0,
      source_loader source symbols type_ freq = Ok dl0
      /\ Forall2
           (fun df df' =>
              exists c,
                Polars.get_column base_label df = Some c
                /\ Polars.get_column "label_1" df' = Some (winsorize c)
                /\ forall n,
                     In n (Analysis.label_periods a) -> n <> 1%Z ->
                     Polars.get_column (Analysis.label_name n) df'
                     = Some (Analysis.forward_return n (winsorize c)))
           (dfs dl0) (dfs (Analysis.dl a)).
Proof.
  intros F num engine source facs base symbols periods type_ freq a Hinit Hbase.
  pose proof (init_steps _ _ _ _ _ _ _ _ Hinit)
    as (_ & _ & _ & _ & _ & Hper & _).
  apply init_label_columns in Hinit.
  destruct Hinit as (dl0 & dl1 & Hsrc & Hw & Hl).
  exists dl0. split; [exact Hsrc |].
  apply loader_with_columns_frames in Hw.
  eapply List.Forall2_impl; [| exact (Forall2_compose Hw Hl)]. cbv beta.
  intros df df' (df1 & Hwin & Hlab).
  apply with_columns_Ok in Hwin. destruct Hwin as (_ & Hwin & _).
  destruct (Hwin base (Polars.map_expr winsorize (Polars.col base)))
    as [c1 [Hc1 Hget1]].
  { unfold Analysis.winsorize_exprs. apply in_map_iff.
    exists base. split; [reflexivity | exact Hbase]. }
  unfold Polars.map_expr, Polars.col in Hc1.
  destruct (Polars.get_column base df) as [c |]; cbn in Hc1; [| discriminate].
  injection Hc1 as <-. exists c. split; [reflexivity |].
  apply with_columns_Ok in Hlab. destruct Hlab as (_ & Hlab & _). split.
  - destruct (Hlab "label_1" (Polars.col base)) as [c' [Hc' Hget']].
    { unfold Analysis.label_exprs. apply in_or_app. right. left.
      reflexivity. }
    unfold Polars.col in Hc'. rewrite Hget1 in Hc'.
    injection Hc' as <-. exact Hget'.
  - intros n Hn Hne. rewrite Hper in Hn.
    destruct (Hlab (Analysis.label_name n)
                   (Polars.map_expr (Analysis.forward_return n)
                                    (Polars.col base)))
      as [c' [Hc' Hget']].
    { unfold Analysis.label_exprs. apply in_or_app. left.
      apply in_map_iff. exists n. split; [reflexivity |].
      apply filter_In. split; [exact Hn |].
      apply negb_true_iff, Z.eqb_neq. exact Hne. }
    unfold Polars.map_expr, Polars.col in Hc'. rewrite Hget1 in Hc'.
    cbn in Hc'. injection Hc' as <-. exact Hget'.
Qed.

Lemma labels_follow_the_winsorized_base_witness :
  exists dl0,
    source_loader (engine := Fixtures.sample_engine)
      (inl Fixtures.one_symbol) None None None = Ok dl0
    /\ Forall2
         (fun df df' =>
            exists c,
              Polars.get_column "ret" df = Some c
              /\ Polars.get_column "label_1" df'
                 = Some (winsorize (Engine := Fixtures.sample_engine) c)
              /\ forall n,
                   In n (Analysis.label_periods MoreFixtures.own_label) ->
                   n <> 1%Z ->
                   Polars.get_column (Analysis.label_name n) df'
                   = Some (Analysis.forward_return
                             (num := Fixtures.sample_num) n
                             (winsorize (Engine := Fixtures.sample_engine) c)))
         (dfs dl0) (dfs (Analysis.dl MoreFixtures.own_label)).
Proof.
  apply (@labels_follow_the_winsorized_base Q Fixtures.sample_num
           Fixtures.sample_engine (inl Fixtures.one_symbol) ["ret"] "ret"
           None (Some [2%Z]) None None MoreFixtures.own_label);
    [reflexivity | left; reflexivity].
Defined.

Section Aligned.

Lemma index_of_nth s facs i :
  index_of s facs = Some i -> nth_error facs i = Some s.
Proof.
  revert i. induction facs as [| f facs IH]; intros i; [discriminate |].
  cbn [index_of]. destruct (String.eqb f s) eqn:Hfs.
  - intros [= <-]. apply String.eqb_eq in Hfs. subst. reflexivity.
  - destruct (index_of s facs) as [j |]; [| discriminate].
    intros [= <-]. cbn. apply IH. reflexivity.
Qed.

Lemma Forall2_nth {A B} (P : A -> B -> Prop) xs ys i x :
  Forall2 P xs ys -> nth_error xs i = Some x ->
  exists y, nth_error ys i = Some y /\ P x y.
Proof.
  intros Hall. revert i. induction Hall as [| x0 y0 xs ys Hxy _ IH]; intros i.
  - destruct i; discriminate.
  - destruct i as [| i]; cbn.
    + intros [= <-]. exists y0. split; [reflexivity | exact Hxy].
    + apply IH.
Qed.

End Aligned.

(** X26: [analysis.py], [ts_ic], [ts_group_ret] and [group_ret] with
    [summary.py], [fac_attr]: on an analysis whose store carries its
    factors, a method that runs over all the factors ([ts_ic] always,
    the grouped returns when [facs] is left out) files every factor's
    result under the factor's own name: the lookup by name returns the
    frame that was aggregated from the frames computed for that
    factor ([group_ret] aggregates weighted by [count] without a rule,
    and from the per-group means with one). *)
Theorem results_of_all_factors_are_filed_by_name :
  forall (engine : Engine Q) (grouping : GroupEngine) (R : Runtime)
         (method : Utils.corr_method) (rule : string) (keep : bool)
         (by_rule : option string) (group : Z)
         (self : Analysis.t (F := Q)) (fac : string) (i : nat),
    Summary.facs (Analysis.summary self) = Analysis.facs self ->
    index_of fac (Analysis.facs self) = Some i ->
    (forall a,
       Analysis.ts_ic rule method keep self = (a, Ok tt) ->
       exists per_symbol df,
         group_by_time_agg_align (Analysis.dl self) rule
           (Analysis.ic_exprs self fac method) = Ok per_symbol
         /\ agg_first per_symbol = Ok df
         /\ Summary.fac_attr (Analysis.summary a) "ts_ic" (VStr fac)
            = Ok (VPandas df))
    /\ (forall a,
          Grouped.ts_group_ret None group self = (a, Ok tt) ->
          exists per_symbol df,
            Grouped.daily_group_ret self group fac = Ok per_symbol
            /\ agg_dfs_first per_symbol
                 ["group"; daily_col (Analysis.dl self)] None
                 (Some (daily_col (Analysis.dl self))) = Ok df
            /\ Summary.fac_attr (Analysis.summary a) "ts_group_rets" (VStr fac)
               = Ok (VPandas df))
    /\ (forall a,
          Grouped.group_ret None by_rule group self = (a, Ok tt) ->
          exists per_symbol df,
            Grouped.symbol_group_ret self by_rule group fac = Ok per_symbol
            /\ match by_rule with
               | None =>
                   agg_dfs_first per_symbol ["group"] (Some "count") None
                   = Ok df
               | Some _ =>
                   exists means,
                     group_mean_excluding per_symbol
                       (daily_col (Analysis.dl self)) = Ok means
                     /\ agg_dfs_first means ["group"] None None = Ok df
               end
            /\ Summary.fac_attr (Analysis.summary a) "group_rets" (VStr fac)
               = Ok (VPandas df)).
Proof.
  intros engine grouping R method rule keep by_rule group self fac i
         Hfacs Hidx.
  pose proof (index_of_nth _ _ Hidx) as Hnth.
  split; [| split].
  - intros a. unfold Analysis.ts_ic.
    destruct (mapM _ (Analysis.facs self)) as [loaders |] eqn:Hl;
      [| discriminate].
    destruct (mapM agg_first loaders) as [ts |] eqn:Ht; [| discriminate].
    intros [= <-]. cbn [Analysis.summary Analysis.with_summary].
    apply mapM_Forall2 in Hl, Ht.
    destruct (Forall2_nth _ Hl Hnth) as (per_symbol & Hps & Hrun).
    destruct (Forall2_nth _ Ht Hps) as (df & Hdf & Hagg).
    exists per_symbol, df. split; [exact Hrun |]. split; [exact Hagg |].
    match goal with
    | |- Summary.fac_attr ?s _ _ = _ =>
        destruct (@stored_frames_by_name R s "ts_ic" ts) as [Hname _]
    end.
    { apply lookup_stored; discriminate. }
    apply (Hname fac i df); [| exact Hdf].
    destruct keep; cbn [Summary.facs Summary.setattr]; rewrite Hfacs;
      exact Hidx.
  - intros a Hrun.
    unfold Grouped.ts_group_ret in Hrun. cbn [Grouped.facs_arg] in Hrun.
    destruct (mapM _ (Analysis.facs self)) as [loaders |] eqn:Hl;
      [| discriminate].
    destruct (mapM _ loaders) as [frames |] eqn:Hf; [| discriminate].
    injection Hrun as <-. cbn [Analysis.summary Analysis.with_summary].
    apply mapM_Forall2 in Hl, Hf.
    destruct (Forall2_nth _ Hl Hnth) as (per_symbol & Hps & Hone).
    destruct (Forall2_nth _ Hf Hps) as (df & Hdf & Hagg).
    exists per_symbol, df. split; [exact Hone |]. split; [exact Hagg |].
    match goal with
    | |- Summary.fac_attr ?s _ _ = _ =>
        destruct (@stored_frames_by_name R s "ts_group_rets" frames)
          as [Hname _]
    end.
    { apply lookup_stored; discriminate. }
    apply (Hname fac i df); [| exact Hdf].
    cbn [Summary.facs Summary.setattr]. rewrite Hfacs. exact Hidx.
  - intros a Hrun.
    unfold Grouped.group_ret in Hrun. cbn [Grouped.facs_arg] in Hrun.
    destruct (mapM _ (Analysis.facs self)) as [loaders |] eqn:Hl;
      [| discriminate].
    destruct (mapM _ loaders) as [frames |] eqn:Hf; [| discriminate].
    injection Hrun as <-. cbn [Analysis.summary Analysis.with_summary].
    apply mapM_Forall2 in Hl, Hf.
    destruct (Forall2_nth _ Hl Hnth) as (per_symbol & Hps & Hone).
    destruct (Forall2_nth _ Hf Hps) as (df & Hdf & Hagg).
    exists per_symbol, df. split; [exact Hone |]. split.
    { destruct by_rule as [by_rule |]; [| exact Hagg].
      destruct (group_mean_excluding per_symbol
                  (daily_col (Analysis.dl self)))
        as [means |]; cbn [bind] in Hagg; [| discriminate].
      exists means. split; [reflexivity | exact Hagg]. }
    match goal with
    | |- Summary.fac_attr ?s _ _ = _ =>
        destruct (@stored_frames_by_name R s "group_rets" frames)
          as [Hname _]
    end.
    { apply lookup_stored; discriminate. }
    apply (Hname fac i df); [| exact Hdf].
    cbn [Summary.facs Summary.setattr]. rewrite Hfacs. exact Hidx.
Qed.

Lemma results_of_all_factors_are_filed_by_name_witness :
  exists per_symbol df,
    Grouped.symbol_group_ret (engine := MoreFixtures.sample_group_engine)
      MoreFixtures.two_factors None 10 "g" = Ok per_symbol
    /\ agg_dfs_first (GroupEngine := MoreFixtures.sample_group_engine)
         per_symbol ["group"] (Some "count") None = Ok df
    /\ Summary.fac_attr (runtime := Fixtures.sample_runtime)
         (Analysis.summary
            (fst (Grouped.group_ret
                    (engine := MoreFixtures.sample_group_engine)
                    None None 10 MoreFixtures.two_factors)))
         "group_rets" (VStr "g")
       = Ok (VPandas df).
Proof.
  destruct (@results_of_all_factors_are_filed_by_name
              Fixtures.sample_engine MoreFixtures.sample_group_engine
              Fixtures.sample_runtime Utils.pearson "1mo" false None 10
              MoreFixtures.two_factors "g" 1%nat eq_refl eq_refl)
    as (_ & _ & Hgroup).
  apply Hgroup. vm_compute. reflexivity.
Defined.
